(** * Figma document analysis: tree classification and aggregation

    A shallow embedding of the analysis scripts of the repository
    (analyze.ts, analyze_components.ts, analyze_ui_components.ts,
    inspect_buttons.ts, inspect_cards.ts) and the properties their
    specification states about them.

    Conventions.
    - A JavaScript number is a rational (every finite double is one) and
      arithmetic is exact; [NaN] and the infinities do not occur.
    - A string is a sequence of ASCII characters; [toLowerCase] maps
      [A-Z] to [a-z] and [toUpperCase] maps [a-z] to [A-Z].
    - A field that the scripts read with [?.] is an [option]: [None] is
      an absent, [null] or [undefined] field.  The fields [name], [id],
      [type], [componentId] and [characters] hold strings when present,
      as in the file format ([typeof x === "string"] is then [Some]); a
      geometry field may hold a value of any type, because the scripts
      test [typeof] on it.
    - The entries of a [children] array are node objects; an absent
      array is the empty list.
    - The scripts write one property of the nodes they visit,
      [__parent].  It lives in a store indexed by the identity of the
      node object ([Node.oid]); every other field is read-only and is
      part of the tree itself.
    - A [while] loop over [__parent] takes fuel, and a script that runs
      out of fuel returns [None]. *)

From Stdlib Require Import QArith Qround ZArith String Ascii List Lia.
From Stdlib Require Import Sorting.Sorted Sorting.Permutation.
From stdpp Require Import gmap strings list fin_maps.

Open Scope string_scope.
Open Scope list_scope.

Set Warnings "-register-all".

(* ================================================================== *)
(** * JavaScript values and strings *)
(* ================================================================== *)

(** A value read from a geometry field: [null]/[undefined], a number,
    or anything else (a string, a boolean, an object). *)
Inductive jsval : Type :=
| JNullish
| JNum (q : Q)
| JOther.

(** [a ?? b] *)
Definition nullish (a b : jsval) : jsval :=
  match a with
  | JNullish => b
  | _ => a
  end.

(** [o?.f] for an object field [o] that may be absent. *)
Definition chain {A : Type} (o : option A) (f : A -> jsval) : jsval :=
  match o with
  | Some a => f a
  | None => JNullish
  end.

(** [typeof v === "number" && test v] *)
Definition numberAnd (v : jsval) (test : Q -> bool) : bool :=
  match v with
  | JNum q => test q
  | _ => false
  end.

(** [s || d] for a string field that may be absent: the empty string is
    falsy, so it is replaced as well. *)
Definition strOr (s : option string) (d : string) : string :=
  match s with
  | Some (String c t) => String c t
  | _ => d
  end.

Definition lowerChar (c : ascii) : ascii :=
  let n := N_of_ascii c in
  if ((65 <=? n) && (n <=? 90))%N then ascii_of_N (n + 32) else c.

Definition upperChar (c : ascii) : ascii :=
  let n := N_of_ascii c in
  if ((97 <=? n) && (n <=? 122))%N then ascii_of_N (n - 32) else c.

Fixpoint toLowerCase (s : string) : string :=
  match s with
  | EmptyString => EmptyString
  | String c t => String (lowerChar c) (toLowerCase t)
  end.

Fixpoint toUpperCase (s : string) : string :=
  match s with
  | EmptyString => EmptyString
  | String c t => String (upperChar c) (toUpperCase t)
  end.

(** [s.includes(needle)] *)
Fixpoint includes (s needle : string) : bool :=
  String.prefix needle s ||
  match s with
  | EmptyString => false
  | String _ t => includes t needle
  end.

(** [s.padStart(n, "0")] *)
Fixpoint zeros (k : nat) : string :=
  match k with
  | O => EmptyString
  | S k' => String "0" (zeros k')
  end.

Definition padStart0 (n : nat) (s : string) : string :=
  zeros (n - String.length s) +:+ s.

(** [parts.join(" / ")] *)
Fixpoint join (sep : string) (parts : list string) : string :=
  match parts with
  | [] => EmptyString
  | [p] => p
  | p :: rest => p +:+ sep +:+ join sep rest
  end.

(** [Math.round]: the nearest integer, a tie going towards plus
    infinity. *)
Definition Math_round (x : Q) : Z := Qfloor (x + (1 # 2)).

(** [n.toString(16)] for an integer [n]. *)
Definition hexDigit (d : Z) : ascii :=
  match String.get (Z.to_nat d) "0123456789abcdef" with
  | Some c => c
  | None => "0"%char
  end.

Fixpoint hexDigits (fuel : nat) (n : Z) (acc : string) : string :=
  match fuel with
  | O => acc
  | S fuel' =>
      let acc' := String (hexDigit (n mod 16)) acc in
      if (n / 16 =? 0)%Z then acc' else hexDigits fuel' (n / 16) acc'
  end.

Definition toString16 (n : Z) : string :=
  if (n <? 0)%Z
  then String "-" (hexDigits (S (Z.to_nat (Z.log2 (- n)))) (- n) EmptyString)
  else hexDigits (S (Z.to_nat (Z.log2 n))) n EmptyString.

(** A JavaScript [Map] with string keys.  Iteration follows insertion
    order and [set] on an existing key keeps its position, so the map is
    an association list. *)
Fixpoint mapGet {V : Type} (m : list (string * V)) (k : string) : option V :=
  match m with
  | [] => None
  | (k', v) :: rest => if String.eqb k' k then Some v else mapGet rest k
  end.

Fixpoint mapSet {V : Type} (m : list (string * V)) (k : string) (v : V)
  : list (string * V) :=
  match m with
  | [] => [(k, v)]
  | (k', v') :: rest =>
      if String.eqb k' k then (k', v) :: rest else (k', v') :: mapSet rest k v
  end.

(** [m.set(k, (m.get(k) ?? 0) + 1)] *)
Definition mapIncr (m : list (string * nat)) (k : string) : list (string * nat) :=
  mapSet m k (S (default O (mapGet m k))).

(** [Array.prototype.sort] with a comparator: the result is the stable
    ordering of the array; [cmp a b] negative or zero keeps [a] before
    [b].  Insertion from the right keeps equal elements in their
    original order. *)
Section Sort.
Context {A : Type} (cmp : A -> A -> Z).

Fixpoint insertSorted (x : A) (l : list A) : list A :=
  match l with
  | [] => [x]
  | y :: rest =>
      if (cmp x y <=? 0)%Z then x :: y :: rest else y :: insertSorted x rest
  end.

Fixpoint sortBy (l : list A) : list A :=
  match l with
  | [] => []
  | x :: rest => insertSorted x (sortBy rest)
  end.

(** [a] may stay before [b]. *)
Definition before (a b : A) : Prop := (cmp a b <= 0)%Z.
End Sort.

(* ================================================================== *)
(** * The document tree *)
(* ================================================================== *)

Module Rect.
(** [absoluteBoundingBox] *)
Record t : Type := mk { width : jsval; height : jsval }.
End Rect.

Module Vector.
(** [size] *)
Record t : Type := mk { x : jsval; y : jsval }.
End Vector.

Module Color.
Record t : Type := mk { r : option Q; g : option Q; b : option Q }.
End Color.

Module Paint.
(** One entry of [fills] or [strokes]. *)
Record t : Type := mk {
  type : option string;
  visible : option bool;
  color : option Color.t;
  opacity : option Q
}.
End Paint.

Module Node.
(** A node object.  [oid] is the identity of the object, not a field
    of the document: the nodes of a parsed document are pairwise
    distinct objects.  [fills] and [strokes] are the arrays the
    scripts iterate (empty when the field is absent or not an array);
    an entry [None] is a [null] entry. *)
Inductive t : Type := mk {
  oid : positive;
  id : option string;
  name : option string;
  type : option string;
  children : list t;
  absoluteBoundingBox : option Rect.t;
  size : option Vector.t;
  width : jsval;
  height : jsval;
  fills : list (option Paint.t);
  strokes : list (option Paint.t);
  strokeWeight : option Q;
  cornerRadius : option Q;
  rectangleCornerRadii : option (list Q);
  characters : option string;
  componentId : option string;
  opacity : option Q
}.
End Node.

Module Meta.
(** An entry of the component dictionary [file.components]. *)
Record t : Type := mk {
  key : option string;
  name : option string;
  description : option string;
  componentSetId : option string
}.
End Meta.

(** [node.type === s] *)
Definition typeIs (ty : option string) (s : string) : bool :=
  match ty with
  | Some s' => String.eqb s' s
  | None => false
  end.

(** [p?.visible !== false]; a [null] entry has no [visible] field. *)
Definition visibleNotFalse (p : option Paint.t) : bool :=
  match p with
  | Some p' =>
      match Paint.visible p' with
      | Some false => false
      | _ => true
      end
  | None => true
  end.

(** [node?.absoluteBoundingBox?.width ?? node?.size?.x ?? node?.width] *)
Definition resolveWidth (n : Node.t) : jsval :=
  nullish (chain (Node.absoluteBoundingBox n) Rect.width)
    (nullish (chain (Node.size n) Vector.x) (Node.width n)).

Definition resolveHeight (n : Node.t) : jsval :=
  nullish (chain (Node.absoluteBoundingBox n) Rect.height)
    (nullish (chain (Node.size n) Vector.y) (Node.height n)).

(** The value of a [__parent] property: [undefined] or a reference to a
    node object. *)
Inductive pval : Type :=
| PUndef
| PRef (n : Node.t).

(** The [__parent] properties of the objects in memory.  An object with
    no entry has no such property. *)
Abbreviation heap := (gmap positive pval).

(** [cur.__parent] *)
Definition readParent (h : heap) (n : Node.t) : pval :=
  default PUndef (h !! Node.oid n).

(** [n.__parent = parent] *)
Definition writeParent (h : heap) (n : Node.t) (parent : pval) : heap :=
  <[Node.oid n := parent]> h.

(** The file returned by the service: its name, the root node and the
    component dictionary.  The pages are the children of the root. *)
Module File.
Record t : Type := mk {
  name : option string;
  document : option Node.t;
  components : gmap string Meta.t
}.
End File.

(** [Array.isArray(file?.document?.children) ? file.document.children : []] *)
Definition pagesNodes (file : File.t) : list Node.t :=
  match File.document file with
  | Some d => Node.children d
  | None => []
  end.

(* ================================================================== *)
(** * Tree traversal *)
(* ================================================================== *)

(** [traverse(node, visit)] of analyze.ts and analyze_components.ts: the
    node first, then its children in order. *)
Fixpoint traverse {S : Type} (visit : Node.t -> S -> S) (node : Node.t)
    (s : S) : S :=
  fold_left (fun acc ch => traverse visit ch acc) (Node.children node)
    (visit node s).

(** [traverse(node, visit, parent)] of analyze_ui_components.ts,
    inspect_buttons.ts and inspect_cards.ts: the callback sees the node
    and its parent, then the children are visited in order with the node
    as parent.  A callback that does not return ([None]) stops the
    walk. *)
Fixpoint traverseP {S : Type} (visit : Node.t -> pval -> S -> option S)
    (node : Node.t) (parent : pval) (s : S) : option S :=
  fold_left
    (fun acc ch =>
       match acc with
       | Some s' => traverseP visit ch (PRef node) s'
       | None => None
       end)
    (Node.children node) (visit node parent s).

(** The three callbacks given to [traverseP] start with
    [if (n && typeof n === "object") n.__parent = parent;] and then only
    read the store: [rest h n acc] is the remainder of the callback, run
    in the updated store [h] on the accumulator of the script. *)
Definition linking {A : Type} (rest : heap -> Node.t -> A -> option A)
    (n : Node.t) (parent : pval) (st : heap * A) : option (heap * A) :=
  let h := writeParent (fst st) n parent in
  match rest h n (snd st) with
  | Some acc => Some (h, acc)
  | None => None
  end.

(** The loop [while (cur && cur !== page) { step(cur); cur = cur.__parent; }]
    shared by [makePath] and the search of the enclosing view.  One unit
    of fuel per test of the loop condition; [None] when the fuel runs out
    before the loop ends. *)
Fixpoint walkUp {A : Type} (step : Node.t -> A -> A) (fuel : nat) (h : heap)
    (page : Node.t) (cur : pval) (acc : A) : option A :=
  match fuel with
  | O => None
  | S fuel' =>
      match cur with
      | PUndef => Some acc
      | PRef c =>
          if Pos.eqb (Node.oid c) (Node.oid page) then Some acc
          else walkUp step fuel' h page (readParent h c) (step c acc)
      end
  end.

(* ================================================================== *)
(** * analyze_ui_components.ts: classification of UI elements *)
(* ================================================================== *)

Module UiComponents.

Inductive kind : Type := button | input | card.

Definition kindName (k : kind) : string :=
  match k with
  | button => "button"
  | input => "input"
  | card => "card"
  end.

Record item : Type := mkItem { name : string; path : string }.

Record ui : Type := mkUi {
  buttons : list item;
  inputs : list item;
  cards : list item
}.

Record pageReport : Type := mkPage { pageName : string; pageUi : ui }.

Definition iconHints : list string :=
  [ "icon"; "material-symbols"; "mdi:"; "majesticons:"; "basil:";
    "fluent-color:"; "devicon:"; "ic:"; "solar:"; "lets-icons:";
    "iconamoon:"; "fa-"; "feather" ].

Definition isIconComponentName (name : string) : bool :=
  let lower := toLowerCase name in
  existsb (fun h => includes lower h) iconHints.

Definition uiHints : list string :=
  [ "button"; "btn"; "primary button"; "secondary button";
    "card"; "list item"; "list-item"; "item";
    "input"; "text field"; "textfield"; "text-field"; "search";
    "checkbox"; "radio"; "switch"; "toggle";
    "dropdown"; "select"; "combobox";
    "chip"; "badge"; "pill"; "tag";
    "avatar"; "image avatar";
    "tab"; "tabs"; "navbar"; "navigation"; "header"; "footer";
    "modal"; "dialog"; "sheet"; "drawer"; "toast"; "snackbar";
    "progress"; "slider"; "stepper" ].

Definition isUiComponentName (name : string) : bool :=
  let lower := toLowerCase name in
  existsb (fun h => includes lower h) uiHints.

Definition hasAnySolidFill (node : Node.t) : bool :=
  existsb
    (fun p =>
       match p with
       | Some p' =>
           typeIs (Paint.type p') "SOLID" && visibleNotFalse p &&
           match Paint.color p' with Some _ => true | None => false end
       | None => false
       end)
    (Node.fills node).

Definition hasStroke (node : Node.t) : bool :=
  existsb visibleNotFalse (Node.strokes node).

Definition childTextCount (node : Node.t) : nat :=
  fold_left
    (fun count ch => if typeIs (Node.type ch) "TEXT" then count + 1 else count)
    (Node.children node) 0%nat.

Definition childIconLikeCount (node : Node.t) : nat :=
  fold_left
    (fun count n =>
       let name := strOr (Node.name n) "" in
       let count1 := if isIconComponentName name then count + 1 else count in
       if typeIs (Node.type n) "INSTANCE" &&
          match Node.name n with
          | Some s => isIconComponentName s
          | None => false
          end
       then count1 + 1 else count1)
    (Node.children node) 0%nat.

Definition structuralType (ty : option string) : bool :=
  typeIs ty "FRAME" || typeIs ty "GROUP" || typeIs ty "COMPONENT" ||
  typeIs ty "INSTANCE" || typeIs ty "RECTANGLE".

Definition classifyStructuralUi (node : Node.t) : option kind :=
  if negb (structuralType (Node.type node)) then None
  else
    let width := resolveWidth node in
    let height := resolveHeight node in
    let textCount := childTextCount node in
    let iconCount := childIconLikeCount node in
    let hasFill := hasAnySolidFill node in
    let stroke := hasStroke node in
    let name := strOr (Node.name node) "" in
    let lname := toLowerCase name in
    (* Name-based shortcuts *)
    if includes lname "button" || includes lname "btn" then Some button
    else if includes lname "input" || includes lname "textfield" ||
            includes lname "text field" then Some input
    else if includes lname "card" then Some card
    (* Structural heuristics *)
    else if hasFill && (1 <=? textCount)%nat &&
            numberAnd height (fun h => Qle_bool 28 h && Qle_bool h 64)
    then Some button
    else if (stroke || hasFill) &&
            numberAnd width (fun w => Qle_bool 200 w) &&
            numberAnd height (fun h => Qle_bool 34 h && Qle_bool h 72) &&
            ((textCount <=? 1)%nat && (iconCount <=? 2)%nat)
    then Some input
    else if hasFill &&
            numberAnd width (fun w =>
              numberAnd height (fun h =>
                Qle_bool 200 w && Qle_bool 120 h &&
                (2 <=? List.length (Node.children node))%nat))
    then Some card
    else None.

(** The body of the loop of [makePath]:
    [nm = cur.name || cur.id || ""; if (nm) parts.push(nm);] *)
Definition pushName (cur : Node.t) (parts : list string) : list string :=
  match strOr (Node.name cur) (strOr (Node.id cur) "") with
  | EmptyString => parts
  | nm => parts ++ [nm]
  end.

Definition makePath (fuel : nat) (h : heap) (page : Node.t)
    (pageName : string) (n : Node.t) : option string :=
  match walkUp pushName fuel h page (PRef n) [] with
  | Some parts => Some (join " / " (rev (parts ++ [pageName])))
  | None => None
  end.

(** The category of an instance from the name of its component. *)
Definition nameCategory (nm : string) : option kind :=
  if isUiComponentName nm then
    let l := toLowerCase nm in
    if includes l "button" || includes l "btn" then Some button
    else if includes l "card" then Some card
    else if includes l "input" || includes l "text field" ||
            includes l "textfield" then Some input
    else None
  else None.

Definition push (k : kind) (it : item) (u : ui) : ui :=
  match k with
  | button => mkUi (buttons u ++ [it]) (inputs u) (cards u)
  | input => mkUi (buttons u) (inputs u ++ [it]) (cards u)
  | card => mkUi (buttons u) (inputs u) (cards u ++ [it])
  end.

(** The structural fallback at the end of the callback.  [makePath] is
    the closure of the page loop, run in the store of the moment. *)
Definition visitStructural (makePath : Node.t -> option string)
    (n : Node.t) (u : ui) : option ui :=
  match classifyStructuralUi n with
  | None => Some u
  | Some k =>
      let nm := strOr (Node.name n) (kindName k) in
      match makePath n with
      | Some p => Some (push k (mkItem nm p) u)
      | None => None
      end
  end.

(** [meta?.name || n?.name || ""] *)
Definition resolvedName (dict : gmap string Meta.t) (cid : string)
    (n : Node.t) : string :=
  strOr (dict !! cid ≫= Meta.name) (strOr (Node.name n) "").

(** The callback after the assignment of [__parent]: instances of
    dictionary components first, the structural fallback otherwise. *)
Definition visitRest (makePath : Node.t -> option string)
    (dict : gmap string Meta.t) (n : Node.t) (u : ui) : option ui :=
  match (if typeIs (Node.type n) "INSTANCE" then Node.componentId n else None) with
  | Some cid =>
      let nm := resolvedName dict cid n in
      match nm with
      | EmptyString => Some u
      | _ =>
          if isIconComponentName nm then Some u
          else if isUiComponentName nm then
            let cat := nameCategory nm in
            match makePath n with
            | Some p =>
                match cat with
                | Some k => Some (push k (mkItem nm p) u)
                | None => Some u
                end
            | None => None
            end
          else visitStructural makePath n u
      end
  | None => visitStructural makePath n u
  end.

(** The callback passed to [traverse] by [main]. *)
Definition visit (fuel : nat) (dict : gmap string Meta.t) (page : Node.t)
    (pageName : string) : Node.t -> pval -> heap * ui -> option (heap * ui) :=
  linking (fun h => visitRest (makePath fuel h page pageName) dict).

Definition emptyUi : ui := mkUi [] [] [].

(** One iteration of the loop over the pages. *)
Definition classifyPage (fuel : nat) (dict : gmap string Meta.t)
    (page : Node.t) (h : heap) : option (heap * pageReport) :=
  let pageName := strOr (Node.name page) "(isimsiz sayfa)" in
  match traverseP (visit fuel dict page pageName) page PUndef (h, emptyUi) with
  | Some (h', u) => Some (h', mkPage pageName u)
  | None => None
  end.

(** [main]: the pages of the report, and the store the run leaves. *)
Definition main (fuel : nat) (file : File.t) (h : heap)
  : option (heap * list pageReport) :=
  fold_left
    (fun acc page =>
       match acc with
       | Some (h', pages) =>
           match classifyPage fuel (File.components file) page h' with
           | Some (h'', r) => Some (h'', pages ++ [r])
           | None => None
           end
       | None => None
       end)
    (pagesNodes file) (Some (h, [])).

End UiComponents.

(* ================================================================== *)
(** * analyze.ts: pages and colour palette *)
(* ================================================================== *)

Module Analyze.

Record hex : Type := mkHex { rgb : string; rgba : string; alpha255 : Z }.

(** [n.toString(16).padStart(2, "0").toUpperCase()] *)
Definition toHex (n : Z) : string :=
  toUpperCase (padStart0 2 (toString16 n)).

(** [color?.r ?? 0] and its siblings. *)
Definition channel (color : option Color.t) (f : Color.t -> option Q) : Q :=
  default 0%Q (color ≫= f).

Definition rgbaToHex (color : option Color.t) (opacity : option Q) : hex :=
  let r := Math_round (channel color Color.r * 255) in
  let g := Math_round (channel color Color.g * 255) in
  let b := Math_round (channel color Color.b * 255) in
  let a := Math_round (default 1%Q opacity * 255) in
  let rgb := "#" +:+ toHex r +:+ toHex g +:+ toHex b in
  let rgba := if (a <? 255)%Z then rgb +:+ toHex a else rgb in
  mkHex rgb rgba a.

(** [paint.opacity ?? n?.opacity ?? 1] *)
Definition effectiveOpacity (paint : Paint.t) (n : Node.t) : Q :=
  match Paint.opacity paint with
  | Some o => o
  | None => default 1%Q (Node.opacity n)
  end.

(** The key under which the palette counts one entry of [fills], when it
    counts it at all. *)
Definition paintKey (n : Node.t) (paint : option Paint.t) : option string :=
  match paint with
  | None => None
  | Some p =>
      if negb (visibleNotFalse paint) then None
      else if negb (typeIs (Paint.type p) "SOLID") then None
      else
        match Paint.color p with
        | None => None
        | Some c => Some (rgba (rgbaToHex (Some c) (Some (effectiveOpacity p n))))
        end
  end.

(** The callback of the palette traversal. *)
Definition countFills (n : Node.t) (colorCountMap : list (string * nat))
  : list (string * nat) :=
  fold_left
    (fun m paint =>
       match paintKey n paint with
       | Some k => mapIncr m k
       | None => m
       end)
    (Node.fills n) colorCountMap.

Record swatch : Type := mkSwatch { hexOf : string; count : nat }.

(** [(a, b) => b.count - a.count] *)
Definition byCount (a b : swatch) : Z :=
  (Z.of_nat (count b) - Z.of_nat (count a))%Z.

Definition palette (document : Node.t) : list swatch :=
  let colorCountMap := traverse countFills document [] in
  firstn 50
    (sortBy byCount (map (fun e => mkSwatch (fst e) (snd e)) colorCountMap)).

End Analyze.

(* ================================================================== *)
(** * analyze_components.ts: component usage per page *)
(* ================================================================== *)

(** [String.prototype.localeCompare] depends on the collation of the
    host.  What the scripts rely on is that it is a consistent
    comparator: a total preorder on strings. *)
Class Collation : Type := {
  localeCompare : string -> string -> Z;
  localeCompare_total : forall s t, (0 < localeCompare s t)%Z -> (localeCompare t s <= 0)%Z;
  localeCompare_trans : forall s t u,
    (localeCompare s t <= 0)%Z -> (localeCompare t u <= 0)%Z ->
    (localeCompare s u <= 0)%Z
}.

(** The collation that compares code points, the order of a host
    without locale data. *)
Definition codepointCompare (s t : string) : Z :=
  match String.compare s t with
  | Eq => 0%Z
  | Lt => (-1)%Z
  | Gt => 1%Z
  end.

Definition codepointCollation : Collation.
Proof.
  refine {| localeCompare := codepointCompare |}.
  - intros s t. unfold codepointCompare.
    rewrite (String.compare_antisym t s).
    destruct (String.compare s t); simpl; lia.
  - assert (Htrans : forall s t u,
               String.compare s t <> Gt -> String.compare t u <> Gt ->
               String.compare s u <> Gt).
    { induction s as [| a s IH]; intros [| b t] [| c u]; simpl;
        try congruence.
      unfold Ascii.compare.
      destruct (N.compare_spec (N_of_ascii a) (N_of_ascii b))
        as [Eab | Lab | Gab]; try congruence;
      destruct (N.compare_spec (N_of_ascii b) (N_of_ascii c))
        as [Ebc | Lbc | Gbc]; try congruence;
      destruct (N.compare_spec (N_of_ascii a) (N_of_ascii c))
        as [Eac | Lac | Gac]; try congruence; try lia.
      apply IH. }
    intros s t u. unfold codepointCompare.
    pose proof (Htrans s t u) as Ht.
    destruct (String.compare s t); destruct (String.compare t u);
      destruct (String.compare s u); simpl; try lia;
      exfalso; apply Ht; congruence.
Defined.

Module AnalyzeComponents.

Record used : Type := mkUsed {
  componentId : string;
  name : string;
  key : option string;
  count : nat
}.

Record pageReport : Type := mkPage {
  pageName : string;
  componentsUsed : list used
}.

(** The callback of the traversal: count an INSTANCE under its
    [componentId]. *)
Definition countInstance (n : Node.t) (counts : list (string * nat))
  : list (string * nat) :=
  if typeIs (Node.type n) "INSTANCE" then
    match Node.componentId n with
    | Some cid => mapIncr counts cid
    | None => counts
    end
  else counts.

Definition unknownName : string := "(unknown component)".

(** The entry built from one [(componentId, count)] pair of the map. *)
Definition entry (dict : gmap string Meta.t) (e : string * nat) : used :=
  let meta := dict !! fst e in
  mkUsed (fst e)
    (default unknownName (meta ≫= Meta.name))
    (meta ≫= Meta.key)
    (snd e).

(** [(a, b) => b.count - a.count || a.name.localeCompare(b.name)] *)
Definition compareUsed `{Collation} (a b : used) : Z :=
  let d := (Z.of_nat (count b) - Z.of_nat (count a))%Z in
  if (d =? 0)%Z then localeCompare (name a) (name b) else d.

Definition usagePage `{Collation} (dict : gmap string Meta.t) (page : Node.t)
  : pageReport :=
  let pageName := strOr (Node.name page) "(isimsiz sayfa)" in
  let counts := traverse countInstance page [] in
  mkPage pageName (sortBy compareUsed (map (entry dict) counts)).

Definition main `{Collation} (file : File.t) : list pageReport :=
  map (usagePage (File.components file)) (pagesNodes file).

End AnalyzeComponents.

(* ================================================================== *)
(** * inspect_buttons.ts: nodes named like buttons *)
(* ================================================================== *)

(** [rgbaToHex] of inspect_buttons.ts and inspect_cards.ts: the string
    alone, and nothing for an absent colour. *)
Definition rgbaToHexString (color : option Color.t) (opacity : option Q)
  : option string :=
  match color with
  | None => None
  | Some _ => Some (Analyze.rgba (Analyze.rgbaToHex color opacity))
  end.

(** The loop over [fills] of [extractButtonInfo] and [extractCardInfo]. *)
Definition solidHexes (node : Node.t) : list string :=
  fold_left
    (fun acc p =>
       match p with
       | Some p' =>
           if typeIs (Paint.type p') "SOLID" && visibleNotFalse p then
             match rgbaToHexString (Paint.color p')
                     (Some (Analyze.effectiveOpacity p' node)) with
             | Some hx => acc ++ [hx]
             | None => acc
             end
           else acc
       | None => acc
       end)
    (Node.fills node) [].

(** [typeof w === "number" && typeof h === "number" ? { width: w, height: h } : undefined] *)
Definition sizeOf (node : Node.t) : option (Q * Q) :=
  match resolveWidth node, resolveHeight node with
  | JNum w, JNum h => Some (w, h)
  | _, _ => None
  end.

(** [parts.push((cur?.name as string) || cur?.id || "")] *)
Definition pushAnyName (cur : Node.t) (parts : list string) : list string :=
  parts ++ [strOr (Node.name cur) (strOr (Node.id cur) "")].

(** [makePath] of inspect_buttons.ts and inspect_cards.ts. *)
Definition makePathAll (fuel : nat) (h : heap) (page : Node.t)
    (pageName : string) (n : Node.t) : option string :=
  match walkUp pushAnyName fuel h page (PRef n) [] with
  | Some parts => Some (join " / " (rev (parts ++ [pageName])))
  | None => None
  end.

Module InspectButtons.

Definition isButtonName (name : string) : bool :=
  let lower := toLowerCase name in
  includes lower "button" || includes lower "btn" ||
  String.eqb lower "defaultbutton".

Record info : Type := mkInfo {
  name : string;
  size : option (Q * Q);
  fills : list string;
  cornerRadius : option Q;
  rectangleCornerRadii : option (list Q);
  stroke : option (option Q);
  hasText : bool;
  samples : list string
}.

Record found : Type := mkFound { page : string; path : string; infoOf : info }.

Definition extractButtonInfo (node : Node.t) : info :=
  let textChildren :=
    fold_left
      (fun acc ch =>
         if typeIs (Node.type ch) "TEXT" then
           match Node.characters ch with
           | Some s => acc ++ [s]
           | None => acc
           end
         else acc)
      (Node.children node) [] in
  mkInfo
    (strOr (Node.name node) "(button)")
    (sizeOf node)
    (solidHexes node)
    (Node.cornerRadius node)
    (Node.rectangleCornerRadii node)
    (if existsb visibleNotFalse (Node.strokes node)
     then Some (Node.strokeWeight node) else None)
    (0 <? List.length textChildren)%nat
    (firstn 3 textChildren).

(** The callback after the assignment of [__parent]. *)
Definition visitRest (makePath : Node.t -> option string)
    (pageName : string) (n : Node.t) (results : list found)
  : option (list found) :=
  let nm := strOr (Node.name n) "" in
  match nm with
  | EmptyString => Some results
  | _ =>
      if negb (isButtonName nm) then Some results
      else
        let info := extractButtonInfo n in
        match makePath n with
        | Some p => Some (results ++ [mkFound pageName p info])
        | None => None
        end
  end.

(** [page?.name ?? "(page)"] *)
Definition pageNameOf (pg : Node.t) : string :=
  default "(page)" (Node.name pg).

Definition inspectPage (fuel : nat) (pg : Node.t) (st : heap * list found)
  : option (heap * list found) :=
  traverseP
    (linking (fun h =>
       visitRest (makePathAll fuel h pg (pageNameOf pg)) (pageNameOf pg)))
    pg PUndef st.

Definition main (fuel : nat) (file : File.t) (h : heap)
  : option (heap * list found) :=
  fold_left
    (fun acc pg =>
       match acc with
       | Some st => inspectPage fuel pg st
       | None => None
       end)
    (pagesNodes file) (Some (h, [])).

End InspectButtons.

(* ================================================================== *)
(** * inspect_cards.ts: card-like containers *)
(* ================================================================== *)

Module InspectCards.

Definition isIconName (name : string) : bool :=
  let lower := toLowerCase name in
  existsb (fun h => includes lower h) UiComponents.iconHints.

Definition classifyAsCard (node : Node.t) : bool :=
  if negb (UiComponents.structuralType (Node.type node)) then false
  else
    let w := resolveWidth node in
    let h := resolveHeight node in
    let childrenCount := List.length (Node.children node) in
    let hasSolidFill :=
      existsb
        (fun p =>
           match p with
           | Some p' => typeIs (Paint.type p') "SOLID" && visibleNotFalse p
           | None => false
           end)
        (Node.fills node) in
    let hasStroke := existsb visibleNotFalse (Node.strokes node) in
    let name := default "" (Node.name node) in
    if includes (toLowerCase name) "card" then true
    else
      numberAnd w (fun w' =>
        numberAnd h (fun h' =>
          Qle_bool 200 w' && Qle_bool 120 h' &&
          (hasSolidFill || hasStroke) && (2 <=? childrenCount)%nat)).

Record content : Type := mkContent {
  textCount : nat;
  textSamples : list string;
  imageFillCount : nat;
  iconCount : nat;
  instanceCount : nat
}.

Record info : Type := mkInfo {
  name : string;
  size : option (Q * Q);
  fills : list string;
  cornerRadius : option Q;
  rectangleCornerRadii : option (list Q);
  stroke : option (option Q);
  contentOf : content
}.

Record found : Type := mkFound {
  page : string;
  view : string;
  path : string;
  infoOf : info;
  role : string
}.

(** One iteration of the loop over the children in [extractCardInfo]. *)
Definition countChild (c : content) (ch : Node.t) : content :=
  let c1 :=
    if typeIs (Node.type ch) "TEXT" then
      match Node.characters ch with
      | Some s =>
          mkContent (textCount c + 1)
            (if (List.length (textSamples c) <? 3)%nat
             then textSamples c ++ [s] else textSamples c)
            (imageFillCount c) (iconCount c) (instanceCount c)
      | None => c
      end
    else c in
  let c2 :=
    if typeIs (Node.type ch) "INSTANCE" then
      mkContent (textCount c1) (textSamples c1) (imageFillCount c1)
        (if isIconName (default "" (Node.name ch))
         then iconCount c1 + 1 else iconCount c1)
        (instanceCount c1 + 1)
    else c1 in
  fold_left
    (fun c3 cp =>
       match cp with
       | Some cp' =>
           if typeIs (Paint.type cp') "IMAGE" && visibleNotFalse cp then
             mkContent (textCount c3) (textSamples c3) (imageFillCount c3 + 1)
               (iconCount c3) (instanceCount c3)
           else c3
       | None => c3
       end)
    (Node.fills ch) c2.

Definition extractCardInfo (node : Node.t) : info :=
  mkInfo
    (default "(card)" (Node.name node))
    (sizeOf node)
    (solidHexes node)
    (Node.cornerRadius node)
    (Node.rectangleCornerRadii node)
    (if existsb visibleNotFalse (Node.strokes node)
     then Some (Node.strokeWeight node) else None)
    (fold_left countChild (Node.children node) (mkContent 0 [] 0 0 0)).

Definition inferRole (viewName cardName : string) : string :=
  let v := toLowerCase viewName in
  let n := toLowerCase cardName in
  if includes v "home" then "Ana sayfa kartı"
  else if includes v "calendar" || includes n "calendar" then "Takvim kartı"
  else if includes v "login" || includes n "login" then "Giriş/kimlik kartı"
  else if includes v "register" || includes n "register" then "Kayıt kartı"
  else if includes v "closet" || includes n "closet" then "Dolap/ürün kartı"
  else if includes v "verification" || includes n "verification" ||
          includes n "sms" then "Doğrulama kartı"
  else "Genel kart".

(** The body of the loop that looks for the enclosing view:
    [if (cur?.type === "FRAME") topFrameName = cur?.name ?? topFrameName;] *)
Definition frameName (cur : Node.t) (topFrameName : string) : string :=
  if typeIs (Node.type cur) "FRAME"
  then default topFrameName (Node.name cur)
  else topFrameName.

(** The loop that looks for the enclosing view, from [n] upwards. *)
Definition topFrame (fuel : nat) (h : heap) (pg : Node.t)
    (pageName : string) (n : Node.t) : option string :=
  walkUp frameName fuel h pg (PRef n) pageName.

(** The callback after the assignment of [__parent]; [topFrame] and
    [makePath] are its two loops, run in the store of the moment. *)
Definition visitRest (topFrame makePath : Node.t -> option string)
    (pageName : string) (n : Node.t) (cards : list found)
  : option (list found) :=
  if negb (classifyAsCard n) then Some cards
  else
    match topFrame n with
    | None => None
    | Some topFrameName =>
        let info := extractCardInfo n in
        let role := inferRole topFrameName (name info) in
        match makePath n with
        | Some p => Some (cards ++ [mkFound pageName topFrameName p info role])
        | None => None
        end
    end.

Definition inspectPage (fuel : nat) (pg : Node.t) (st : heap * list found)
  : option (heap * list found) :=
  traverseP
    (linking (fun h =>
       visitRest (topFrame fuel h pg (InspectButtons.pageNameOf pg))
         (makePathAll fuel h pg (InspectButtons.pageNameOf pg))
         (InspectButtons.pageNameOf pg)))
    pg PUndef st.

Definition main (fuel : nat) (file : File.t) (h : heap)
  : option (heap * list found) :=
  fold_left
    (fun acc pg =>
       match acc with
       | Some st => inspectPage fuel pg st
       | None => None
       end)
    (pagesNodes file) (Some (h, [])).

End InspectCards.

(* ================================================================== *)
(** * analyze.ts: pages and per-view statistics *)
(* ================================================================== *)

Module Views.

(** The names listed under [Sayfalar]: the [name] of each child of the
    document that is a non-empty string. *)
Definition pages (file : File.t) : list string :=
  flat_map
    (fun p =>
       match Node.name p with
       | Some (String c t) => [String c t]
       | _ => []
       end)
    (pagesNodes file).

(** The counters and the colour map that the traversal of one view
    updates. *)
Record stats : Type := mkStats {
  totalNodes : nat;
  textCount : nat;
  imageFillCount : nat;
  vectorCount : nat;
  componentInstanceCount : nat;
  localColorCount : list (string * nat)
}.

Definition emptyStats : stats := mkStats 0 0 0 0 0 [].

(** One iteration of the loop over [fills] in the callback. *)
Definition countPaint (n : Node.t) (s : stats) (paint : option Paint.t)
  : stats :=
  match paint with
  | None => s
  | Some p =>
      if negb (visibleNotFalse paint) then s
      else if typeIs (Paint.type p) "IMAGE" then
        mkStats (totalNodes s) (textCount s) (imageFillCount s + 1)
          (vectorCount s) (componentInstanceCount s) (localColorCount s)
      else if typeIs (Paint.type p) "SOLID" then
        match Paint.color p with
        | Some c =>
            mkStats (totalNodes s) (textCount s) (imageFillCount s)
              (vectorCount s) (componentInstanceCount s)
              (mapIncr (localColorCount s)
                 (Analyze.rgba
                    (Analyze.rgbaToHex (Some c)
                       (Some (Analyze.effectiveOpacity p n)))))
        | None => s
        end
      else s
  end.

(** The callback of the traversal of a view. *)
Definition countNode (n : Node.t) (s : stats) : stats :=
  let ty := Node.type n in
  let s1 :=
    mkStats (totalNodes s + 1)
      (if typeIs ty "TEXT" then textCount s + 1 else textCount s)
      (imageFillCount s)
      (if typeIs ty "VECTOR" then vectorCount s + 1 else vectorCount s)
      (if typeIs ty "INSTANCE"
       then componentInstanceCount s + 1 else componentInstanceCount s)
      (localColorCount s) in
  fold_left (countPaint n) (Node.fills n) s1.

Record viewReport : Type := mkView {
  viewName : string;
  viewType : string;
  viewStats : stats;
  localPalette : list Analyze.swatch
}.

(** [["FRAME", "COMPONENT", "INSTANCE", "GROUP"].includes(n?.type)] *)
Definition isView (n : Node.t) : bool :=
  typeIs (Node.type n) "FRAME" || typeIs (Node.type n) "COMPONENT" ||
  typeIs (Node.type n) "INSTANCE" || typeIs (Node.type n) "GROUP".

(** What the loop over the views computes for one view; the width and
    the height are only printed. *)
Definition analyzeView (view : Node.t) : viewReport :=
  let s := traverse countNode view emptyStats in
  mkView
    (strOr (Node.name view) "(isimsiz görünüm)")
    (strOr (Node.type view) "NODE")
    s
    (firstn 8
       (sortBy Analyze.byCount
          (map (fun e => Analyze.mkSwatch (fst e) (snd e))
             (localColorCount s)))).

(** The views of a page, in order. *)
Definition analyzePage (page : Node.t) : list viewReport :=
  map analyzeView (List.filter isView (Node.children page)).

End Views.

(* ================================================================== *)
(** * server.ts: inventory and export of components *)
(* ================================================================== *)

Module Server.

(** [traverse(file?.document, visit)]: an absent root is not visited. *)
Definition traverseRoot {S : Type} (visit : Node.t -> S -> S)
    (root : option Node.t) (s : S) : S :=
  match root with
  | Some d => traverse visit d s
  | None => s
  end.

(** An entry of [file.components] as the inventory reads it. *)
Record componentMeta (Links : Type) : Type := mkMeta {
  metaKey : option string;
  metaName : option string;
  metaDescription : option string;
  metaComponentSetId : option string;
  metaDocumentationLinks : option Links
}.
Arguments mkMeta {Links}.
Arguments metaKey {Links}.
Arguments metaName {Links}.
Arguments metaDescription {Links}.
Arguments metaComponentSetId {Links}.
Arguments metaDocumentationLinks {Links}.

Record component (Links : Type) : Type := mkComponent {
  nodeId : string;
  key : option string;
  name : option string;
  description : option string;
  componentSetId : option string;
  documentationLinks : option Links;
  instanceCount : nat
}.
Arguments mkComponent {Links}.
Arguments nodeId {Links}.
Arguments key {Links}.
Arguments name {Links}.
Arguments description {Links}.
Arguments componentSetId {Links}.
Arguments documentationLinks {Links}.
Arguments instanceCount {Links}.

(** The map [instanceCountByComponentId] of the inventory. *)
Definition instanceCountByComponentId (document : option Node.t)
  : list (string * nat) :=
  traverseRoot AnalyzeComponents.countInstance document [].

(** The [components] of the inventory, one per entry of the dictionary
    in the order of [Object.entries]. *)
Definition inventoryComponents {Links : Type}
    (componentsDict : list (string * componentMeta Links))
    (document : option Node.t) : list (component Links) :=
  let counts := instanceCountByComponentId document in
  map
    (fun e =>
       mkComponent (fst e) (metaKey (snd e)) (metaName (snd e))
         (metaDescription (snd e)) (metaComponentSetId (snd e))
         (metaDocumentationLinks (snd e))
         (default 0%nat (mapGet counts (fst e))))
    componentsDict.

(** One entry of the [fills] of a simplified node. *)
Record fill : Type := mkFill {
  fillType : string;
  fillHex : option string;
  fillOpacity : option Q
}.

(** The body of the loop of [simplifyPaints]. *)
Definition pushPaint (nodeOpacity : Q) (fills : list fill)
    (p : option Paint.t) : list fill :=
  match p with
  | None => fills
  | Some p' =>
      if negb (visibleNotFalse p) then fills
      else
        let opacity := default nodeOpacity (Paint.opacity p') in
        if typeIs (Paint.type p') "SOLID" &&
           match Paint.color p' with Some _ => true | None => false end
        then
          fills ++
          [mkFill "SOLID"
             (Some (Analyze.rgba
                      (Analyze.rgbaToHex (Paint.color p') (Some opacity))))
             None]
        else if typeIs (Paint.type p') "IMAGE" then
          fills ++ [mkFill "IMAGE" None (Some opacity)]
        else
          match Paint.type p' with
          | Some ty => fills ++ [mkFill ty None None]
          | None => fills
          end
  end.

Definition simplifyPaints (paints : list (option Paint.t)) (nodeOpacity : Q)
  : list fill :=
  fold_left (pushPaint nodeOpacity) paints [].

(** A simplified node.  [Style] is the type of the [style] field of a
    text node, which is copied as it is. *)
Inductive simple (Style : Type) : Type := mkSimple {
  simpleId : option string;
  simpleName : option string;
  simpleType : string;
  simpleSize : option (Q * Q);
  simpleFills : option (list fill);
  simpleStrokes : option (list (option Paint.t));
  simpleStrokeWeight : option Q;
  simpleCornerRadius : option Q;
  simpleRectangleCornerRadii : option (list Q);
  simpleCharacters : option string;
  simpleTextStyle : option Style;
  simpleChildren : option (list (simple Style))
}.
Arguments mkSimple {Style}.
Arguments simpleId {Style}.
Arguments simpleName {Style}.
Arguments simpleType {Style}.
Arguments simpleSize {Style}.
Arguments simpleFills {Style}.
Arguments simpleStrokes {Style}.
Arguments simpleStrokeWeight {Style}.
Arguments simpleCornerRadius {Style}.
Arguments simpleRectangleCornerRadii {Style}.
Arguments simpleCharacters {Style}.
Arguments simpleTextStyle {Style}.
Arguments simpleChildren {Style}.

Definition allowedTypes : list string :=
  [ "FRAME"; "GROUP"; "RECTANGLE"; "ELLIPSE"; "LINE"; "POLYGON"; "STAR";
    "VECTOR"; "TEXT"; "INSTANCE"; "COMPONENT" ].

(** [allowedTypes.has(c?.type)] *)
Definition isAllowed (c : Node.t) : bool :=
  existsb (typeIs (Node.type c)) allowedTypes.

(** [xs.length > 0 ? xs : undefined] *)
Definition nonEmpty {A : Type} (xs : list A) : option (list A) :=
  match xs with
  | [] => None
  | _ => Some xs
  end.

Section Simplify.

Context {Style : Type} (styleOf : Node.t -> option Style).

(** The children are filtered by [allowedTypes] and simplified in one
    pass over the array. *)
Fixpoint simplifyNode (node : Node.t) : simple Style :=
  let type := default "NODE" (Node.type node) in
  let isText := String.eqb type "TEXT" in
  mkSimple
    (Node.id node) (Node.name node) type
    (match resolveWidth node, resolveHeight node with
     | JNum w, JNum h => Some (w, h)
     | _, _ => None
     end)
    (nonEmpty (simplifyPaints (Node.fills node) (default 1%Q (Node.opacity node))))
    (nonEmpty (Node.strokes node))
    (Node.strokeWeight node)
    (Node.cornerRadius node)
    (Node.rectangleCornerRadii node)
    (if isText then Some (default "" (Node.characters node)) else None)
    (if isText then styleOf node else None)
    (nonEmpty
       ((fix each (kids : list Node.t) : list (simple Style) :=
           match kids with
           | [] => []
           | c :: rest =>
               if isAllowed c then simplifyNode c :: each rest else each rest
           end)
          (Node.children node))).

(** The callback of the export: every COMPONENT node is simplified. *)
Definition collectComponent (n : Node.t) (components : list (simple Style))
  : list (simple Style) :=
  if typeIs (Node.type n) "COMPONENT" then components ++ [simplifyNode n]
  else components.

Definition exportComponents (document : option Node.t) : list (simple Style) :=
  traverseRoot collectComponent document [].

End Simplify.

End Server.

(* ================================================================== *)
(** * parseFigmaUrl *)
(* ================================================================== *)

Module Url.

(** What the scripts read of [new URL(figmaUrl)]: the path and the query
    parameters in order. *)
Record t : Type := mk {
  pathname : string;
  searchParams : list (string * string)
}.

(** [s.split("/")] *)
Fixpoint splitSlash (s : string) (cur : string) : list string :=
  match s with
  | EmptyString => [cur]
  | String c t =>
      if Ascii.eqb c "/" then cur :: splitSlash t EmptyString
      else splitSlash t (cur +:+ String c EmptyString)
  end.

(** [url.pathname.split("/").filter(Boolean)] *)
Definition parts (url : t) : list string :=
  List.filter (fun s => negb (String.eqb s EmptyString))
    (splitSlash (pathname url) EmptyString).

(** [url.searchParams.get(k)] *)
Fixpoint get (params : list (string * string)) (k : string) : option string :=
  match params with
  | [] => None
  | (k', v) :: rest => if String.eqb k' k then Some v else get rest k
  end.

Inductive error : Type :=
| CannotFindFileKey
| ExpectedFileOrDesign
| MissingFileKey.

Record parsed : Type := mkParsed { fileKey : string; nodeId : option string }.

(** [get("node-id") || get("node_id") || undefined] *)
Definition nodeIdOf (url : t) : option string :=
  match get (searchParams url) "node-id" with
  | Some (String c s) => Some (String c s)
  | _ =>
      match get (searchParams url) "node_id" with
      | Some (String c s) => Some (String c s)
      | _ => None
      end
  end.

(** [parseFigmaUrl] of analyze.ts and server.ts. *)
Definition parseFigmaUrl (url : t) : error + parsed :=
  match parts url with
  | [] | [_] => inl CannotFindFileKey
  | seg :: key :: _ =>
      if negb (String.eqb seg "file") && negb (String.eqb seg "design")
      then inl ExpectedFileOrDesign
      else inr (mkParsed key (nodeIdOf url))
  end.

(** [parseFigmaUrl] of the other scripts, with the test of an empty
    key. *)
Definition parseFigmaUrlChecked (url : t) : error + parsed :=
  match parts url with
  | [] | [_] => inl CannotFindFileKey
  | seg :: key :: _ =>
      if negb (String.eqb seg "file") && negb (String.eqb seg "design")
      then inl ExpectedFileOrDesign
      else
        match key with
        | EmptyString => inl MissingFileKey
        | _ => inr (mkParsed key (nodeIdOf url))
        end
  end.

End Url.


(* ================================================================== *)
(** * Vocabulary of the specification *)
(* ================================================================== *)

(** The nodes of a subtree in the order of the traversal, their object
    identities, and the height of the subtree. *)
Fixpoint nodes (n : Node.t) : list Node.t :=
  n :: flat_map nodes (Node.children n).

Definition oids (n : Node.t) : list positive := map Node.oid (nodes n).

Fixpoint height (n : Node.t) : nat :=
  S (fold_right (fun ch m => Nat.max (height ch) m) 0%nat (Node.children n)).

(** [linkedTo h page cur chain]: following [__parent] from [cur] in the
    store [h] meets the nodes of [chain], none of them the page, and
    then the page (or [undefined]). *)
Fixpoint linkedTo (h : heap) (page : Node.t) (cur : pval)
    (chain : list Node.t) : Prop :=
  match chain with
  | [] =>
      match cur with
      | PUndef => True
      | PRef p => Node.oid p = Node.oid page
      end
  | c :: rest =>
      cur = PRef c /\ Node.oid c <> Node.oid page /\
      linkedTo h page (readParent h c) rest
  end.












(** The keywords of the name shortcuts, and the types the structural
    classifier accepts. *)
Definition spec_keywords : list string :=
  [ "button"; "btn"; "input"; "textfield"; "text field"; "card" ].

Definition spec_structuralTypes : list string :=
  [ "FRAME"; "GROUP"; "COMPONENT"; "INSTANCE"; "RECTANGLE" ].

Definition lowerName (n : Node.t) : string :=
  toLowerCase (strOr (Node.name n) "").

(** The number of INSTANCE nodes of a subtree that carry a given
    [componentId]. *)
Definition isInstanceOf (cid : string) (n : Node.t) : bool :=
  typeIs (Node.type n) "INSTANCE" &&
  match Node.componentId n with
  | Some c => String.eqb c cid
  | None => false
  end.

Definition instancesOf (cid : string) (page : Node.t) : nat :=
  List.length (List.filter (isInstanceOf cid) (nodes page)).

(** The order of the usage report: a larger count first, and among equal
    counts the name that the collation puts first. *)
Definition spec_usageOrder `{Collation} (a b : AnalyzeComponents.used) : Prop :=
  (AnalyzeComponents.count b < AnalyzeComponents.count a)%nat \/
  (AnalyzeComponents.count a = AnalyzeComponents.count b /\
   (localeCompare (AnalyzeComponents.name a) (AnalyzeComponents.name b) <= 0)%Z).

(** The path that [makePath] builds for a node whose chain of ancestors
    below the page is [chain] (the node first). *)
Definition pathOf (pageName : string) (chain : list Node.t) : string :=
  join " / "
    (rev (fold_left (fun parts c => UiComponents.pushName c parts) chain []
          ++ [pageName])).

(** The same for [makePath] of inspect_buttons.ts and inspect_cards.ts. *)
Definition pathAllOf (pageName : string) (chain : list Node.t) : string :=
  join " / "
    (rev (fold_left (fun parts c => pushAnyName c parts) chain []
          ++ [pageName])).

(** The [componentId] under which the usage traversal counts a node, if
    it counts it. *)
Definition cidOf (n : Node.t) : option string :=
  if typeIs (Node.type n) "INSTANCE" then Node.componentId n else None.

(** The map of the usage traversal after the nodes of [l]. *)
Definition countsOf (l : list Node.t) (m : list (string * nat))
  : list (string * nat) :=
  fold_left (fun acc x => AnalyzeComponents.countInstance x acc) l m.

(** The store after a linking traversal of a subtree: every node of the
    subtree points to its parent. *)
Fixpoint linkAll (n : Node.t) (parent : pval) (h : heap) : heap :=
  fold_left (fun acc ch => linkAll ch (PRef n) acc) (Node.children n)
    (writeParent h n parent).

(** The store after the linking traversals of the pages of a file. *)
Definition linkPages (file : File.t) (h : heap) : heap :=
  fold_left (fun acc pg => linkAll pg PUndef acc) (pagesNodes file) h.

(** A traversal that hands to the callback the chain of the node (the
    node first, then its ancestors below the page) instead of a store. *)
Fixpoint traverseA {A : Type} (visitA : list Node.t -> Node.t -> A -> A)
    (chainP : list Node.t) (n : Node.t) (a : A) : A :=
  fold_left (fun acc ch => traverseA visitA (n :: chainP) ch acc)
    (Node.children n) (visitA (n :: chainP) n a).

Definition traversePageA {A : Type}
    (visitA : list Node.t -> Node.t -> A -> A) (page : Node.t) (a : A) : A :=
  fold_left (fun acc ch => traverseA visitA [] ch acc) (Node.children page)
    (visitA [] page a).

(** The node objects under the pages of a file are pairwise distinct,
    and the fuel covers the deepest page. *)
Definition distinctObjects (file : File.t) : Prop :=
  List.NoDup (flat_map oids (pagesNodes file)).

Definition deepEnough (fuel : nat) (file : File.t) : Prop :=
  Forall (fun pg => (height pg <= fuel)%nat) (pagesNodes file).

(** The callbacks of the three linking scripts, as functions of the
    chain of the node. *)
Definition classifyA (dict : gmap string Meta.t) (pageName : string)
    (chain : list Node.t) (n : Node.t) (u : UiComponents.ui) : UiComponents.ui :=
  default u
    (UiComponents.visitRest (fun _ => Some (pathOf pageName chain)) dict n u).

Definition classifyPageA (dict : gmap string Meta.t) (page : Node.t)
  : UiComponents.pageReport :=
  let pageName := strOr (Node.name page) "(isimsiz sayfa)" in
  UiComponents.mkPage pageName
    (traversePageA (classifyA dict pageName) page UiComponents.emptyUi).

Definition buttonsA (pageName : string) (chain : list Node.t) (n : Node.t)
    (results : list InspectButtons.found) : list InspectButtons.found :=
  default results
    (InspectButtons.visitRest (fun _ => Some (pathAllOf pageName chain))
       pageName n results).

Definition topFrameOf (pageName : string) (chain : list Node.t) : string :=
  fold_left (fun top c => InspectCards.frameName c top) chain pageName.

Definition cardsA (pageName : string) (chain : list Node.t) (n : Node.t)
    (cards : list InspectCards.found) : list InspectCards.found :=
  default cards
    (InspectCards.visitRest (fun _ => Some (topFrameOf pageName chain))
       (fun _ => Some (pathAllOf pageName chain)) pageName n cards).

(** The keys that the palette traversal counts, in the order in which
    it meets them. *)
Definition optList {A : Type} (o : option A) : list A :=
  match o with
  | Some a => [a]
  | None => []
  end.

Definition nodeKeys (n : Node.t) : list string :=
  flat_map (fun p => optList (Analyze.paintKey n p)) (Node.fills n).

Definition paletteKeys (document : Node.t) : list string :=
  flat_map nodeKeys (nodes document).

(** The number of counted fills of a document with a given key. *)
Definition uses (k : string) (document : Node.t) : nat :=
  List.length (List.filter (String.eqb k) (paletteKeys document)).

(** The keys of a list without repetition, each at its first
    occurrence. *)
Fixpoint firstSeen (ks : list string) (seen : list string) : list string :=
  match ks with
  | [] => []
  | k :: rest =>
      if existsb (String.eqb k) seen then firstSeen rest seen
      else k :: firstSeen rest (seen ++ [k])
  end.

(** The order of a palette: a larger count first. *)
Definition spec_paletteOrder (a b : Analyze.swatch) : Prop :=
  (Analyze.count b <= Analyze.count a)%nat.

(** The sum of the counts of a map. *)
Definition totalCount (m : list (string * nat)) : nat :=
  fold_right (fun e acc => (snd e + acc)%nat) 0%nat m.








(** The visits of a parent-tracking traversal: each node of the subtree
    with the parent it is visited under. *)
Fixpoint withParent (n : Node.t) (parent : pval) : list (Node.t * pval) :=
  (n, parent) :: flat_map (fun ch => withParent ch (PRef n)) (Node.children n).

(** The nodes of a subtree with their chains (the node first, then its
    ancestors below the page); the page itself has the empty chain. *)
Fixpoint withChains (chainP : list Node.t) (n : Node.t)
  : list (list Node.t * Node.t) :=
  (n :: chainP, n) :: flat_map (withChains (n :: chainP)) (Node.children n).

Definition pageChains (page : Node.t) : list (list Node.t * Node.t) :=
  ([], page) :: flat_map (withChains []) (Node.children page).

(** The number of nodes of a given type in a list. *)
Definition countType (ty : string) (l : list Node.t) : nat :=
  List.length (List.filter (fun n => typeIs (Node.type n) ty) l).

(** A visible entry of [fills] of type IMAGE. *)
Definition isImageFill (p : option Paint.t) : bool :=
  match p with
  | Some p' => visibleNotFalse p && typeIs (Paint.type p') "IMAGE"
  | None => false
  end.

Definition imageFills (l : list Node.t) : nat :=
  List.length (List.filter isImageFill (flat_map Node.fills l)).

(** The instances of a component under an optional root. *)
Definition instancesIn (cid : string) (root : option Node.t) : nat :=
  match root with
  | Some d => instancesOf cid d
  | None => 0%nat
  end.

(** The nodes that the usage traversal counts: INSTANCE nodes that carry
    a [componentId]. *)
Definition isCounted (n : Node.t) : bool :=
  match cidOf n with
  | Some _ => true
  | None => false
  end.

(** A child with an icon name, and an INSTANCE child with an icon
    name. *)
Definition iconNamed (ch : Node.t) : bool :=
  UiComponents.isIconComponentName (strOr (Node.name ch) "").

Definition iconInstance (ch : Node.t) : bool :=
  typeIs (Node.type ch) "INSTANCE" && iconNamed ch.

(** A TEXT child that carries its characters. *)
Definition isTextWithCharacters (ch : Node.t) : bool :=
  typeIs (Node.type ch) "TEXT" &&
  match Node.characters ch with
  | Some _ => true
  | None => false
  end.

(** A node with a button-like name. *)
Definition buttonNamed (n : Node.t) : bool :=
  InspectButtons.isButtonName (strOr (Node.name n) "").

(** What the button inspection records for a node of a page. *)
Definition buttonFound (pageName : string) (cx : list Node.t * Node.t)
  : list InspectButtons.found :=
  if buttonNamed (snd cx) then
    [InspectButtons.mkFound pageName (pathAllOf pageName (fst cx))
       (InspectButtons.extractButtonInfo (snd cx))]
  else [].

(** The items of a page of the classification report. *)
Definition allItems (u : UiComponents.ui) : list UiComponents.item :=
  UiComponents.buttons u ++ UiComponents.inputs u ++ UiComponents.cards u.

(** A node of the chain that sets the view: a FRAME whose name is not
    nullish. *)
Definition namedFrame (c : Node.t) : bool :=
  typeIs (Node.type c) "FRAME" &&
  match Node.name c with Some _ => true | None => false end.


(** A string without the separator of the path. *)
Fixpoint noSlash (s : string) : bool :=
  match s with
  | EmptyString => true
  | String c t => negb (Ascii.eqb c "/") && noSlash t
  end.


(** The nodes below [n] that are reached through children of allowed
    types only, in the order of the document. *)
Fixpoint allowedBelow (n : Node.t) : list Node.t :=
  flat_map (fun c => if Server.isAllowed c then c :: allowedBelow c else [])
    (Node.children n).

(** The nodes below the root of a simplified tree. *)
Fixpoint descendants {Style : Type} (s : Server.simple Style)
  : list (Server.simple Style) :=
  match Server.simpleChildren s with
  | Some kids => flat_map (fun c => c :: descendants c) kids
  | None => []
  end.

Definition isComponent (n : Node.t) : bool :=
  typeIs (Node.type n) "COMPONENT".

(** The type of a paint that is shown: the entry is an object, is not
    hidden and has a type. *)
Definition shownType (p : option Paint.t) : list string :=
  match p with
  | Some p' => if visibleNotFalse p then optList (Paint.type p') else []
  | None => []
  end.


(** What an entry of the simplified fills carries beside its type. *)
Definition fillShape (f : Server.fill) : Prop :=
  (Server.fillHex f <> None -> Server.fillType f = "SOLID") /\
  (Server.fillOpacity f <> None -> Server.fillType f = "IMAGE") /\
  (Server.fillHex f = None \/ Server.fillOpacity f = None).

(** The segment that a node gives to a path: its name, else its id,
    else the empty string. *)
Definition label (c : Node.t) : string :=
  strOr (Node.name c) (strOr (Node.id c) "").

Definition notEmpty (s : string) : bool := negb (String.eqb s "").


(** What the card inspection records for a node of a page. *)
Definition cardFound (pageName : string) (cx : list Node.t * Node.t)
  : list InspectCards.found :=
  if InspectCards.classifyAsCard (snd cx) then
    [InspectCards.mkFound pageName (topFrameOf pageName (fst cx))
       (pathAllOf pageName (fst cx))
       (InspectCards.extractCardInfo (snd cx))
       (InspectCards.inferRole (topFrameOf pageName (fst cx))
          (InspectCards.name (InspectCards.extractCardInfo (snd cx))))]
  else [].


(* ================================================================== *)
(** * Sample documents *)
(* ================================================================== *)

Definition sampleNode (oid : positive) (type : string) (name : option string)
    (kids : list Node.t) (box : option (Q * Q))
    (fills : list (option Paint.t)) (cid : option string) : Node.t :=
  Node.mk oid None name (Some type) kids
    (match box with
     | Some (w, h) => Some (Rect.mk (JNum w) (JNum h))
     | None => None
     end)
    None JNullish JNullish fills [] None None None None cid None.

Definition sampleText (oid : positive) (s : string) : Node.t :=
  Node.mk oid None (Some s) (Some "TEXT") [] None None JNullish JNullish
    [] [] None None None (Some s) None None.

Definition red : Color.t := Color.mk (Some 1%Q) (Some 0%Q) (Some 0%Q).

Definition solidRed : option Paint.t :=
  Some (Paint.mk (Some "SOLID") None (Some red) None).

Definition sampleFile (pages : list Node.t) (dict : gmap string Meta.t)
  : File.t :=
  File.mk (Some "sample")
    (Some (sampleNode 1000 "DOCUMENT" (Some "Document") pages None [] None))
    dict.

(** A frame with one solid fill, one text child and height 40. *)
Definition sampleSubmit : Node.t :=
  sampleNode 4 "FRAME" (Some "Submit") [sampleText 5 "Go"]
    (Some (100, 40)%Q) [solidRed] None.

(** The same frame, 80 high. *)
Definition sampleTall : Node.t :=
  sampleNode 4 "FRAME" (Some "Submit") [sampleText 5 "Go"]
    (Some (100, 80)%Q) [solidRed] None.

(** A frame that holds one instance of an icon. *)
Definition sampleIconRow : Node.t :=
  sampleNode 2 "FRAME" (Some "Row")
    [sampleNode 3 "INSTANCE" (Some "mdi:home") [] None [] None]
    None [] None.

(** A frame and a text layer with telling names. *)
Definition sampleIconButton : Node.t :=
  sampleNode 4 "FRAME" (Some "Icon Button") [] None [] None.

Definition samplePrimaryText : Node.t :=
  sampleNode 4 "TEXT" (Some "Primary Button") [] None [] None.

(** An instance that looks like a button, of a component [c1]. *)
Definition sampleInstance (name : option string) : Node.t :=
  sampleNode 4 "INSTANCE" name [sampleText 5 "Go"]
    (Some (100, 40)%Q) [solidRed] (Some "c1").

Definition sampleDict (componentName : string) : gmap string Meta.t :=
  {[ "c1" := Meta.mk (Some "k1") (Some componentName) None None ]}.

(** A page [Auth] with a view, a card and a button in it. *)
Definition sampleView (leaf : Node.t) : Node.t :=
  sampleNode 2 "FRAME" (Some "Login View")
    [sampleNode 3 "FRAME" (Some "Card") [leaf] None [] None] None [] None.

Definition samplePage (leaf : Node.t) : Node.t :=
  sampleNode 1 "CANVAS" (Some "Auth") [sampleView leaf] None [] None.

(** A page with four instances of [cA], two of [cB] and one of a
    component that the dictionary does not know. *)
Definition sampleUse (oid : positive) (cid : string) : Node.t :=
  sampleNode oid "INSTANCE" (Some "use") [] None [] (Some cid).

Definition sampleUsagePage : Node.t :=
  sampleNode 1 "CANVAS" (Some "Home")
    [ sampleUse 2 "cX";
      sampleNode 3 "FRAME" (Some "Row")
        [ sampleUse 4 "cB"; sampleUse 5 "cA"; sampleUse 6 "cA" ] None [] None;
      sampleUse 7 "cB"; sampleUse 8 "cA"; sampleUse 9 "cA" ]
    None [] None.

Definition sampleUsageDict : gmap string Meta.t :=
  {[ "cA" := Meta.mk (Some "kA") (Some "A") None None;
     "cB" := Meta.mk (Some "kB") (Some "B") None None ]}.

(** A page with one instance of [Beta], then one of [Alpha]. *)
Definition sampleTiePage : Node.t :=
  sampleNode 1 "CANVAS" (Some "Home") [ sampleUse 2 "c2"; sampleUse 3 "c1" ]
    None [] None.

Definition sampleTieDict : gmap string Meta.t :=
  {[ "c1" := Meta.mk None (Some "Alpha") None None;
     "c2" := Meta.mk None (Some "Beta") None None ]}.

(** The file with the page [Auth] and its nested button. *)
Definition sampleAuthFile : File.t := sampleFile [samplePage sampleSubmit] ∅.

Definition sampleCard : Node.t :=
  sampleNode 3 "FRAME" (Some "Card") [sampleSubmit] None [] None.

(* ================================================================== *)
(** * Colour canonicalization *)
(* ================================================================== *)

Section Hex.

Local Open Scope Q_scope.








End Hex.





(* ================================================================== *)
(** * The structural classifier *)
(* ================================================================== *)








Lemma structuralType_In (ty : option string) :
  (exists t, In t spec_structuralTypes /\ ty = Some t) ->
  UiComponents.structuralType ty = true.
Proof.
  intros (t & Hin & ->). simpl in Hin.
  destruct Hin as [<- | [<- | [<- | [<- | [<- | []]]]]]; reflexivity.
Qed.




(** The two frames of the specification: 40 high is a button, 80 high is
    nothing. *)
Example structural_button_fallback :
  UiComponents.classifyStructuralUi sampleSubmit = Some UiComponents.button /\
  UiComponents.classifyStructuralUi sampleTall = None.
Proof. split; reflexivity. Qed.

(* ================================================================== *)
(** * Icon-like children *)
(* ================================================================== *)

(** C8.  An INSTANCE child with an icon name is counted twice: a frame
    with one such child has an icon-like count of 2. *)
Theorem childIconLikeCount_counts_instance_twice :
  List.length (Node.children sampleIconRow) = 1%nat /\
  UiComponents.childIconLikeCount sampleIconRow = 2%nat.
Proof. split; reflexivity. Qed.

(* ================================================================== *)
(** * Walking up the parent links *)
(* ================================================================== *)

Lemma walkUp_linked {A : Type} (step : Node.t -> A -> A) (h : heap)
    (page : Node.t) (chain : list Node.t) :
  forall fuel cur acc,
    linkedTo h page cur chain ->
    (List.length chain < fuel)%nat ->
    walkUp step fuel h page cur acc
    = Some (fold_left (fun a c => step c a) chain acc).
Proof.
  induction chain as [| c rest IH]; intros fuel cur acc Hl Hf.
  - destruct fuel as [| fuel]; [simpl in Hf; lia |].
    simpl in *. destruct cur as [| p]; [reflexivity |].
    rewrite Hl, Pos.eqb_refl. reflexivity.
  - destruct fuel as [| fuel]; [simpl in Hf; lia |].
    simpl in Hl. destruct Hl as (-> & Hne & Hrest).
    simpl. apply Pos.eqb_neq in Hne. rewrite Hne.
    apply IH; [exact Hrest | simpl in Hf; lia].
Qed.

Lemma makePath_linked (fuel : nat) (h : heap) (page : Node.t)
    (pageName : string) (n : Node.t) (chain : list Node.t) :
  linkedTo h page (PRef n) chain ->
  (List.length chain < fuel)%nat ->
  UiComponents.makePath fuel h page pageName n = Some (pathOf pageName chain).
Proof.
  intros Hl Hf. unfold UiComponents.makePath.
  rewrite (walkUp_linked _ h page chain) by assumption. reflexivity.
Qed.

Lemma makePathAll_linked (fuel : nat) (h : heap) (page : Node.t)
    (pageName : string) (n : Node.t) (chain : list Node.t) :
  linkedTo h page (PRef n) chain ->
  (List.length chain < fuel)%nat ->
  makePathAll fuel h page pageName n = Some (pathAllOf pageName chain).
Proof.
  intros Hl Hf. unfold makePathAll.
  rewrite (walkUp_linked _ h page chain) by assumption. reflexivity.
Qed.

(* ================================================================== *)
(** * Names: icons, shortcuts and component names *)
(* ================================================================== *)

Lemma strOr_keep (s : option string) (d : string) :
  strOr s "" <> "" -> strOr s d = strOr s "".
Proof. destruct s as [[| c t] |]; simpl; congruence. Qed.

Lemma strOr_some (s d : string) : s <> "" -> strOr (Some s) d = s.
Proof. destruct s; simpl; congruence. Qed.

Lemma isIconComponentName_nonempty (nm : string) :
  UiComponents.isIconComponentName nm = true -> nm <> "".
Proof. intros H ->. discriminate H. Qed.

Lemma isUiComponentName_nonempty (nm : string) :
  UiComponents.isUiComponentName nm = true -> nm <> "".
Proof. intros H ->. discriminate H. Qed.

(** The name of the component wins over the name of the instance. *)
Lemma resolvedName_dict (dict : gmap string Meta.t) (cid : string)
    (n : Node.t) (meta : Meta.t) (dn : string) :
  dict !! cid = Some meta -> Meta.name meta = Some dn -> dn <> "" ->
  UiComponents.resolvedName dict cid n = dn.
Proof.
  intros Hd Hm Hne. unfold UiComponents.resolvedName.
  rewrite Hd. simpl. rewrite Hm. apply strOr_some, Hne.
Qed.

(** An instance whose resolved name is an icon name leaves the callback
    before any category is considered. *)
Lemma visitRest_icon (fuel : nat) (dict : gmap string Meta.t)
    (page : Node.t) (pageName : string) (h : heap) (n : Node.t)
    (u : UiComponents.ui) (cid : string) :
  Node.type n = Some "INSTANCE" ->
  Node.componentId n = Some cid ->
  UiComponents.isIconComponentName (UiComponents.resolvedName dict cid n) = true ->
  UiComponents.visitRest (UiComponents.makePath fuel h page pageName) dict n u = Some u.
Proof.
  intros Hty Hcid Hicon. unfold UiComponents.visitRest.
  rewrite Hty, Hcid. cbn [typeIs]. rewrite String.eqb_refl.
  rewrite Hicon.
  destruct (UiComponents.resolvedName dict cid n); reflexivity.
Qed.

(** C6, as the code has it.  The icon keywords take precedence in the
    instance path only: an INSTANCE with a [componentId] whose resolved
    name (the name of the component when it has one, else its own)
    matches an icon keyword is put in no category, whatever other
    keyword the name holds. *)
Theorem icon_instance_excluded (fuel : nat) (dict : gmap string Meta.t)
    (page : Node.t) (pageName : string) (h : heap) (n : Node.t)
    (u : UiComponents.ui) (cid : string) :
  Node.type n = Some "INSTANCE" ->
  Node.componentId n = Some cid ->
  UiComponents.isIconComponentName (UiComponents.resolvedName dict cid n) = true ->
  UiComponents.visitRest (UiComponents.makePath fuel h page pageName) dict n u = Some u.
Proof. apply visitRest_icon. Qed.

Lemma icon_instance_excluded_witness :
  UiComponents.visitRest
    (UiComponents.makePath 5 ∅
       (samplePage (sampleInstance (Some "Icon Button"))) "Auth")
    ∅ (sampleInstance (Some "Icon Button")) UiComponents.emptyUi
  = Some UiComponents.emptyUi.
Proof.
  apply (icon_instance_excluded 5 ∅ _ "Auth" ∅
           (sampleInstance (Some "Icon Button")) UiComponents.emptyUi "c1");
    reflexivity.
Defined.

(** C6, as stated, fails: a frame named [Icon Button] matches the icon
    keyword [icon], and it is classified as a button and reported as
    one. *)
Lemma icon_keyword_not_excluded :
  UiComponents.isIconComponentName "Icon Button" = true /\
  UiComponents.classifyStructuralUi sampleIconButton = Some UiComponents.button /\
  option_map snd
    (UiComponents.main 5 (sampleFile [samplePage sampleIconButton] ∅) ∅)
  = Some [ UiComponents.mkPage "Auth"
             (UiComponents.mkUi
                [ UiComponents.mkItem "Icon Button"
                    "Auth / Login View / Card / Icon Button" ]
                []
                [ UiComponents.mkItem "Card" "Auth / Login View / Card" ]) ].
Proof. repeat split; vm_compute; reflexivity. Qed.

(** C7.  An INSTANCE whose [componentId] resolves in the dictionary to
    an icon name is put in no category, whatever its geometry, fills and
    children; the name tested is the one of the dictionary, whatever the
    name of the instance. *)
Theorem icon_component_excluded (fuel : nat) (dict : gmap string Meta.t)
    (page : Node.t) (pageName : string) (h : heap) (n : Node.t)
    (u : UiComponents.ui) (cid : string) (meta : Meta.t) (dn : string) :
  Node.type n = Some "INSTANCE" ->
  Node.componentId n = Some cid ->
  dict !! cid = Some meta ->
  Meta.name meta = Some dn ->
  UiComponents.isIconComponentName dn = true ->
  UiComponents.resolvedName dict cid n = dn /\
  UiComponents.visitRest (UiComponents.makePath fuel h page pageName) dict n u = Some u.
Proof.
  intros Hty Hcid Hd Hm Hicon.
  assert (Hr : UiComponents.resolvedName dict cid n = dn).
  { eapply resolvedName_dict; eauto using isIconComponentName_nonempty. }
  split; [exact Hr |].
  apply (visitRest_icon fuel dict page pageName h n u cid Hty Hcid).
  rewrite Hr. exact Hicon.
Qed.

Lemma icon_component_excluded_witness :
  UiComponents.classifyStructuralUi (sampleInstance (Some "Primary Button"))
  = Some UiComponents.button /\
  UiComponents.resolvedName (sampleDict "mdi:home") "c1"
    (sampleInstance (Some "Primary Button")) = "mdi:home" /\
  UiComponents.visitRest
    (UiComponents.makePath 5 ∅
       (samplePage (sampleInstance (Some "Primary Button"))) "Auth")
    (sampleDict "mdi:home")
    (sampleInstance (Some "Primary Button")) UiComponents.emptyUi
  = Some UiComponents.emptyUi.
Proof.
  split; [reflexivity |].
  apply (icon_component_excluded 5 (sampleDict "mdi:home") _ "Auth" ∅
           (sampleInstance (Some "Primary Button")) UiComponents.emptyUi "c1"
           (Meta.mk (Some "k1") (Some "mdi:home") None None) "mdi:home");
    reflexivity.
Defined.

Lemma lowerName_nonempty (n : Node.t) (k : string) :
  k <> "" -> includes (lowerName n) k = true -> strOr (Node.name n) "" <> "".
Proof.
  intros Hk Hin Hempty. unfold lowerName in Hin. rewrite Hempty in Hin.
  destruct k; [congruence | discriminate Hin].
Qed.

Lemma classifyStructuralUi_button_name (n : Node.t) :
  UiComponents.structuralType (Node.type n) = true ->
  includes (lowerName n) "button" || includes (lowerName n) "btn" = true ->
  UiComponents.classifyStructuralUi n = Some UiComponents.button.
Proof.
  intros Hty Hb. unfold UiComponents.classifyStructuralUi.
  rewrite Hty. cbn [negb]. fold (lowerName n). rewrite Hb. reflexivity.
Qed.

(** C9, as the code has it.  For a node of a structural type whose
    lower-cased name holds [button] or [btn], the structural classifier
    answers button whatever the geometry and the fills; and unless the
    node is an INSTANCE that carries a [componentId], the callback
    reports it as a button under its own name. *)
Theorem button_name_shortcut (n : Node.t) :
  (exists t, In t spec_structuralTypes /\ Node.type n = Some t) ->
  includes (lowerName n) "button" || includes (lowerName n) "btn" = true ->
  UiComponents.classifyStructuralUi n = Some UiComponents.button /\
  (forall fuel dict page pageName h u chain,
      Node.type n <> Some "INSTANCE" \/ Node.componentId n = None ->
      linkedTo h page (PRef n) chain ->
      (List.length chain < fuel)%nat ->
      UiComponents.visitRest (UiComponents.makePath fuel h page pageName) dict n u
      = Some (UiComponents.push UiComponents.button
                (UiComponents.mkItem (strOr (Node.name n) "")
                   (pathOf pageName chain)) u)).
Proof.
  intros Hty Hb.
  pose proof (classifyStructuralUi_button_name n (structuralType_In _ Hty) Hb)
    as Hc.
  split; [exact Hc |].
  intros fuel dict page pageName h u chain Hinst Hl Hf.
  assert (Hne : strOr (Node.name n) "" <> "").
  { apply orb_true_iff in Hb as [Hb | Hb];
      eapply lowerName_nonempty; try exact Hb; discriminate. }
  assert (Hs : UiComponents.visitStructural (UiComponents.makePath fuel h page pageName) n u
               = Some (UiComponents.push UiComponents.button
                         (UiComponents.mkItem (strOr (Node.name n) "")
                            (pathOf pageName chain)) u)).
  { unfold UiComponents.visitStructural. rewrite Hc.
    rewrite (makePath_linked fuel h page pageName n chain Hl Hf).
    cbn [UiComponents.kindName]. rewrite (strOr_keep _ _ Hne). reflexivity. }
  unfold UiComponents.visitRest.
  destruct Hinst as [Hnot | Hnone].
  - destruct (typeIs (Node.type n) "INSTANCE") eqn:Et; [| exact Hs].
    exfalso. apply Hnot. unfold typeIs in Et.
    destruct (Node.type n) as [t |]; [| discriminate].
    apply String.eqb_eq in Et. congruence.
  - rewrite Hnone. destruct (typeIs (Node.type n) "INSTANCE"); exact Hs.
Qed.

Lemma button_name_shortcut_witness :
  UiComponents.classifyStructuralUi sampleIconButton = Some UiComponents.button.
Proof.
  apply (button_name_shortcut sampleIconButton).
  - exists "FRAME". split; [simpl; tauto | reflexivity].
  - reflexivity.
Defined.

(** C9, as stated, fails: a text layer named [Primary Button] is not
    classified, and the report of a page that holds it has no button. *)
Lemma button_name_not_enough :
  includes (lowerName samplePrimaryText) "button" = true /\
  UiComponents.classifyStructuralUi samplePrimaryText = None /\
  option_map snd
    (UiComponents.main 5 (sampleFile [samplePage samplePrimaryText] ∅) ∅)
  = Some [ UiComponents.mkPage "Auth"
             (UiComponents.mkUi [] []
                [ UiComponents.mkItem "Card" "Auth / Login View / Card" ]) ].
Proof. repeat split; vm_compute; reflexivity. Qed.

(** C10.  An INSTANCE whose dictionary name matches a UI keyword but
    none of [button], [btn], [card], [input], [textfield], [text field]
    is put in no category, and the structural fallback is not run on it,
    whatever its fills, size and children. *)
Theorem generic_ui_instance_unclassified (fuel : nat)
    (dict : gmap string Meta.t) (page : Node.t) (pageName : string)
    (h : heap) (n : Node.t) (u : UiComponents.ui) (cid : string)
    (meta : Meta.t) (dn : string) (chain : list Node.t) :
  Node.type n = Some "INSTANCE" ->
  Node.componentId n = Some cid ->
  dict !! cid = Some meta ->
  Meta.name meta = Some dn ->
  UiComponents.isUiComponentName dn = true ->
  (forall k, In k spec_keywords -> includes (toLowerCase dn) k = false) ->
  linkedTo h page (PRef n) chain ->
  (List.length chain < fuel)%nat ->
  UiComponents.visitRest (UiComponents.makePath fuel h page pageName) dict n u = Some u.
Proof.
  intros Hty Hcid Hd Hm Hui Hkw Hl Hf.
  unfold UiComponents.visitRest.
  rewrite Hty, Hcid. cbn [typeIs]. rewrite String.eqb_refl.
  rewrite (resolvedName_dict dict cid n meta dn Hd Hm
             (isUiComponentName_nonempty dn Hui)).
  destruct dn as [| c t] eqn:Edn; [reflexivity |]. rewrite <- Edn in *.
  destruct (UiComponents.isIconComponentName dn); [reflexivity |].
  rewrite Hui.
  rewrite (makePath_linked fuel h page pageName n chain Hl Hf).
  unfold UiComponents.nameCategory. rewrite Hui.
  rewrite !Hkw by (simpl; tauto). reflexivity.
Qed.

Lemma generic_ui_instance_unclassified_witness :
  UiComponents.classifyStructuralUi (sampleInstance (Some "Agree"))
  = Some UiComponents.button /\
  UiComponents.visitRest
    (UiComponents.makePath 5
       {[ 4%positive := PRef (samplePage (sampleInstance (Some "Agree"))) ]}
       (samplePage (sampleInstance (Some "Agree"))) "Auth")
    (sampleDict "Checkbox")
    (sampleInstance (Some "Agree")) UiComponents.emptyUi
  = Some UiComponents.emptyUi.
Proof.
  split; [reflexivity |].
  apply (generic_ui_instance_unclassified 5 (sampleDict "Checkbox") _ "Auth" _
           (sampleInstance (Some "Agree")) UiComponents.emptyUi "c1"
           (Meta.mk (Some "k1") (Some "Checkbox") None None) "Checkbox"
           [sampleInstance (Some "Agree")]).
  - reflexivity.
  - reflexivity.
  - reflexivity.
  - reflexivity.
  - reflexivity.
  - intros k Hk. simpl in Hk.
    destruct Hk as [<- | [<- | [<- | [<- | [<- | [<- | []]]]]]]; reflexivity.
  - simpl. split; [reflexivity |]. split; [discriminate | reflexivity].
  - simpl. lia.
Defined.

(* ================================================================== *)
(** * Traversal visits the nodes in order *)
(* ================================================================== *)

(** Induction on a tree: a property that passes from the children to the
    node holds of every node. *)
Lemma node_children_ind (P : Node.t -> Prop) :
  (forall n, Forall P (Node.children n) -> P n) -> forall n, P n.
Proof.
  intros step. fix rec 1. intros n. apply step.
  destruct n as [o i nm ty kids bb sz w h fl st sw cr rr ch cid op].
  cbn [Node.children].
  induction kids as [| k kids IH]; constructor; [apply rec | exact IH].
Qed.

Lemma fold_left_flat_map {A B S : Type} (f : A -> list B) (g : S -> B -> S)
    (l : list A) (s : S) :
  fold_left g (flat_map f l) s
  = fold_left (fun acc a => fold_left g (f a) acc) l s.
Proof.
  revert s. induction l as [| a l IH]; intros s; simpl; [reflexivity |].
  rewrite fold_left_app. apply IH.
Qed.

Lemma traverse_nodes {S : Type} (visit : Node.t -> S -> S) (n : Node.t) :
  forall s, traverse visit n s = fold_left (fun acc x => visit x acc) (nodes n) s.
Proof.
  induction n as [n IH] using node_children_ind. intros s.
  destruct n as [o i nm ty kids bb sz w h fl st sw cr rr ch cid op].
  cbn [traverse nodes Node.children fold_left] in *.
  rewrite fold_left_flat_map.
  generalize (visit (Node.mk o i nm ty kids bb sz w h fl st sw cr rr ch cid op) s).
  induction IH as [| k kids Hk _ IHk]; intros s0; simpl; [reflexivity |].
  rewrite Hk. apply IHk.
Qed.

(* ================================================================== *)
(** * Insertion-ordered maps *)
(* ================================================================== *)

Section MapFacts.

Context {V : Type}.
Implicit Types (m : list (string * V)) (k : string) (v : V).

Lemma mapGet_mapSet_eq m k v : mapGet (mapSet m k v) k = Some v.
Proof.
  induction m as [| [k' v'] m IH]; simpl.
  - rewrite String.eqb_refl. reflexivity.
  - destruct (String.eqb k' k) eqn:E; simpl; rewrite E; [reflexivity | exact IH].
Qed.

Lemma mapGet_mapSet_ne m k k' v :
  k <> k' -> mapGet (mapSet m k v) k' = mapGet m k'.
Proof.
  intros Hne. induction m as [| [k0 v0] m IH]; simpl.
  - apply String.eqb_neq in Hne. rewrite Hne. reflexivity.
  - destruct (String.eqb k0 k) eqn:E; simpl.
    + apply String.eqb_eq in E. subst k0.
      apply String.eqb_neq in Hne. rewrite Hne. reflexivity.
    + rewrite IH. reflexivity.
Qed.

Lemma mapSet_keys m k v k' :
  In k' (map fst (mapSet m k v)) <-> k' = k \/ In k' (map fst m).
Proof.
  induction m as [| [k0 v0] m IH]; simpl.
  - intuition.
  - destruct (String.eqb k0 k) eqn:E; simpl.
    + apply String.eqb_eq in E. subst k0. intuition.
    + rewrite IH. intuition.
Qed.

Lemma mapSet_NoDup m k v :
  List.NoDup (map fst m) -> List.NoDup (map fst (mapSet m k v)).
Proof.
  induction m as [| [k0 v0] m IH]; simpl; intros Hnd.
  - constructor; [simpl; tauto | constructor].
  - apply List.NoDup_cons_iff in Hnd as [Hnot Hnd].
    destruct (String.eqb k0 k) eqn:E; simpl.
    + apply List.NoDup_cons_iff. split; assumption.
    + apply List.NoDup_cons_iff. split; [| apply IH, Hnd].
      rewrite mapSet_keys. intros [-> | Hin]; [| tauto].
      rewrite String.eqb_refl in E. discriminate.
Qed.

Lemma mapGet_In m k v :
  List.NoDup (map fst m) -> In (k, v) m -> mapGet m k = Some v.
Proof.
  induction m as [| [k0 v0] m IH]; simpl; intros Hnd Hin; [tauto |].
  apply List.NoDup_cons_iff in Hnd as [Hnot Hnd].
  destruct Hin as [Heq | Hin].
  - inversion Heq; subst. rewrite String.eqb_refl. reflexivity.
  - destruct (String.eqb k0 k) eqn:E; [| apply IH; assumption].
    apply String.eqb_eq in E. subst k0. exfalso. apply Hnot.
    apply (in_map fst) in Hin. exact Hin.
Qed.

End MapFacts.

(* ================================================================== *)
(** * Sorting *)
(* ================================================================== *)

Section SortFacts.

Context {A : Type} (cmp : A -> A -> Z).

Hypothesis cmp_total : forall a b, (0 < cmp a b)%Z -> (cmp b a <= 0)%Z.

Lemma insertSorted_perm (x : A) (l : list A) :
  Permutation (insertSorted cmp x l) (x :: l).
Proof.
  induction l as [| y l IH]; simpl; [apply Permutation_refl |].
  destruct (cmp x y <=? 0)%Z; [apply Permutation_refl |].
  apply Permutation_trans with (y :: x :: l);
    [apply perm_skip, IH | apply perm_swap].
Qed.

Lemma sortBy_perm (l : list A) : Permutation (sortBy cmp l) l.
Proof.
  induction l as [| x l IH]; simpl; [apply perm_nil |].
  apply Permutation_trans with (x :: sortBy cmp l);
    [apply insertSorted_perm | apply perm_skip, IH].
Qed.

Lemma insertSorted_HdRel (a x : A) (l : list A) :
  before cmp a x -> HdRel (before cmp) a l -> HdRel (before cmp) a (insertSorted cmp x l).
Proof.
  intros Hax Hal. destruct l as [| y l]; simpl; [constructor; exact Hax |].
  destruct (cmp x y <=? 0)%Z; constructor; [exact Hax |].
  inversion Hal; assumption.
Qed.

Lemma insertSorted_sorted (x : A) (l : list A) :
  Sorted (before cmp) l -> Sorted (before cmp) (insertSorted cmp x l).
Proof.
  induction l as [| y l IH]; simpl; intros Hs.
  - repeat constructor.
  - destruct (Z.leb_spec (cmp x y) 0) as [Hle | Hgt].
    + constructor; [exact Hs | constructor; exact Hle].
    + inversion Hs as [| ? ? Hs' Hhd]; subst.
      constructor; [apply IH, Hs' |].
      apply insertSorted_HdRel; [apply cmp_total, Hgt | exact Hhd].
Qed.

Lemma sortBy_sorted (l : list A) : Sorted (before cmp) (sortBy cmp l).
Proof.
  induction l as [| x l IH]; simpl; [constructor |].
  apply insertSorted_sorted, IH.
Qed.

End SortFacts.

(* ================================================================== *)
(** * Component usage *)
(* ================================================================== *)

Lemma countInstance_cidOf (n : Node.t) (m : list (string * nat)) :
  AnalyzeComponents.countInstance n m
  = match cidOf n with
    | Some c => mapIncr m c
    | None => m
    end.
Proof.
  unfold AnalyzeComponents.countInstance, cidOf.
  destruct (typeIs (Node.type n) "INSTANCE"); reflexivity.
Qed.

Lemma isInstanceOf_cidOf (cid : string) (n : Node.t) :
  isInstanceOf cid n = true <-> cidOf n = Some cid.
Proof.
  unfold isInstanceOf, cidOf.
  destruct (typeIs (Node.type n) "INSTANCE"); simpl; [| split; discriminate].
  destruct (Node.componentId n) as [c |]; [| split; discriminate].
  rewrite String.eqb_eq. split; congruence.
Qed.

Lemma countsOf_get (cid : string) (l : list Node.t) :
  forall m,
    default 0%nat (mapGet (countsOf l m) cid)
    = (default 0%nat (mapGet m cid) + List.length (List.filter (isInstanceOf cid) l))%nat.
Proof.
  induction l as [| n l IH]; intros m; simpl; [lia |].
  unfold countsOf in *. simpl. rewrite IH, countInstance_cidOf.
  destruct (isInstanceOf cid n) eqn:E.
  - apply isInstanceOf_cidOf in E. rewrite E. unfold mapIncr.
    rewrite mapGet_mapSet_eq. simpl. lia.
  - destruct (cidOf n) as [c |] eqn:Ec; [| lia].
    unfold mapIncr. rewrite mapGet_mapSet_ne; [lia |].
    intros ->. apply isInstanceOf_cidOf in Ec. congruence.
Qed.

Lemma countsOf_keys (cid : string) (l : list Node.t) :
  forall m,
    In cid (map fst (countsOf l m))
    <-> In cid (map fst m) \/ (0 < List.length (List.filter (isInstanceOf cid) l))%nat.
Proof.
  induction l as [| n l IH]; intros m; simpl.
  - intuition lia.
  - unfold countsOf in *. simpl. rewrite IH, countInstance_cidOf.
    destruct (isInstanceOf cid n) eqn:E.
    + apply isInstanceOf_cidOf in E. rewrite E. unfold mapIncr.
      rewrite mapSet_keys. simpl. intuition lia.
    + destruct (cidOf n) as [c |] eqn:Ec; [| tauto].
      unfold mapIncr. rewrite mapSet_keys.
      assert (cid <> c).
      { intros ->. apply isInstanceOf_cidOf in Ec. congruence. }
      tauto.
Qed.

Lemma countsOf_NoDup (l : list Node.t) :
  forall m, List.NoDup (map fst m) -> List.NoDup (map fst (countsOf l m)).
Proof.
  induction l as [| n l IH]; intros m Hnd; simpl; [exact Hnd |].
  unfold countsOf in *. simpl. apply IH. rewrite countInstance_cidOf.
  destruct (cidOf n); [apply mapSet_NoDup |]; exact Hnd.
Qed.

Section Usage.

Context `{Collation}.

Lemma compareUsed_order (a b : AnalyzeComponents.used) :
  (AnalyzeComponents.compareUsed a b <= 0)%Z <-> spec_usageOrder a b.
Proof.
  unfold AnalyzeComponents.compareUsed, spec_usageOrder.
  destruct (Z.eqb_spec
              (Z.of_nat (AnalyzeComponents.count b) -
               Z.of_nat (AnalyzeComponents.count a)) 0) as [Hz | Hnz].
  - split; [intros Hle; right; split; [lia | exact Hle] |].
    intros [Hlt | [_ Hle]]; [lia | exact Hle].
  - split; [intros Hle; left; lia |].
    intros [Hlt | [Heq _]]; lia.
Qed.

Lemma compareUsed_total (a b : AnalyzeComponents.used) :
  (0 < AnalyzeComponents.compareUsed a b)%Z ->
  (AnalyzeComponents.compareUsed b a <= 0)%Z.
Proof.
  unfold AnalyzeComponents.compareUsed.
  destruct (Z.eqb_spec
              (Z.of_nat (AnalyzeComponents.count b) -
               Z.of_nat (AnalyzeComponents.count a)) 0) as [Hz | Hnz];
  destruct (Z.eqb_spec
              (Z.of_nat (AnalyzeComponents.count a) -
               Z.of_nat (AnalyzeComponents.count b)) 0) as [Hz' | Hnz'];
  try lia.
  apply localeCompare_total.
Qed.

Lemma usageOrder_trans (a b c : AnalyzeComponents.used) :
  spec_usageOrder a b -> spec_usageOrder b c -> spec_usageOrder a c.
Proof.
  unfold spec_usageOrder.
  intros [Hab | [Eab Lab]] [Hbc | [Ebc Lbc]]; try (left; lia).
  right. split; [lia |]. eapply localeCompare_trans; eassumption.
Qed.

Lemma usage_sorted (l : list AnalyzeComponents.used) :
  StronglySorted spec_usageOrder (sortBy AnalyzeComponents.compareUsed l).
Proof.
  apply Sorted_StronglySorted.
  - intros a b c. apply usageOrder_trans.
  - pose proof (sortBy_sorted AnalyzeComponents.compareUsed compareUsed_total l)
      as Hs.
    induction Hs as [| a l' Hs IH Hhd]; constructor; [exact IH |].
    destruct Hhd as [| b l'' Hab]; constructor.
    apply compareUsed_order, Hab.
Qed.

(** C5.  The usage report of a page has one entry per [componentId]
    carried by an INSTANCE under the page, with the number of those
    instances as its count; the name is the one of the dictionary, and
    the unknown-component marker for an id the dictionary does not
    hold; the entries come by descending count and, among equal counts,
    by ascending name.  Four instances of A, two of B and one unknown
    give A:4, B:2 and the marker with 1. *)
Theorem usage_report (dict : gmap string Meta.t) (page : Node.t) :
  let r := AnalyzeComponents.componentsUsed (AnalyzeComponents.usagePage dict page) in
  List.NoDup (map AnalyzeComponents.componentId r)
  /\ (forall cid,
        In cid (map AnalyzeComponents.componentId r)
        <-> (0 < instancesOf cid page)%nat)
  /\ (forall e, In e r ->
        AnalyzeComponents.count e
        = instancesOf (AnalyzeComponents.componentId e) page)
  /\ (forall e, In e r ->
        dict !! AnalyzeComponents.componentId e = None ->
        AnalyzeComponents.name e = "(unknown component)")
  /\ (forall e meta nm, In e r ->
        dict !! AnalyzeComponents.componentId e = Some meta ->
        Meta.name meta = Some nm ->
        AnalyzeComponents.name e = nm)
  /\ StronglySorted spec_usageOrder r
  /\ AnalyzeComponents.componentsUsed
       (AnalyzeComponents.usagePage sampleUsageDict sampleUsagePage)
     = [ AnalyzeComponents.mkUsed "cA" "A" (Some "kA") 4;
         AnalyzeComponents.mkUsed "cB" "B" (Some "kB") 2;
         AnalyzeComponents.mkUsed "cX" "(unknown component)" None 1 ].
Proof.
  intros r. subst r. unfold AnalyzeComponents.usagePage.
  cbn [AnalyzeComponents.componentsUsed].
  rewrite traverse_nodes. fold (countsOf (nodes page) []).
  set (counts := countsOf (nodes page) []).
  set (cmp := AnalyzeComponents.compareUsed).
  assert (Hnd : List.NoDup (map fst counts)).
  { apply countsOf_NoDup. constructor. }
  assert (Hperm : Permutation
                    (sortBy cmp (map (AnalyzeComponents.entry dict) counts))
                    (map (AnalyzeComponents.entry dict) counts)).
  { apply sortBy_perm. }
  assert (Hids : map AnalyzeComponents.componentId
                   (map (AnalyzeComponents.entry dict) counts)
                 = map fst counts).
  { rewrite map_map. reflexivity. }
  assert (Hin : forall e,
             In e (sortBy cmp (map (AnalyzeComponents.entry dict) counts)) ->
             exists kv, In kv counts /\ e = AnalyzeComponents.entry dict kv).
  { intros e He. apply (Permutation_in _ Hperm) in He.
    apply in_map_iff in He as (kv & <- & Hkv). eauto. }
  split; [| split; [| split; [| split; [| split; [| split]]]]].
  - eapply Permutation_NoDup.
    + apply Permutation_map, Permutation_sym, Hperm.
    + rewrite Hids. exact Hnd.
  - intros cid. unfold instancesOf. split; intros Hc.
    + apply (Permutation_in _ (Permutation_map _ Hperm)) in Hc.
      rewrite Hids in Hc. apply countsOf_keys in Hc as [[] | Hc]. exact Hc.
    + apply (Permutation_in _
               (Permutation_map _ (Permutation_sym Hperm))).
      rewrite Hids. apply countsOf_keys. right. exact Hc.
  - intros e He. apply Hin in He as ([k v] & Hkv & ->).
    cbn [AnalyzeComponents.entry AnalyzeComponents.count
         AnalyzeComponents.componentId fst snd].
    pose proof (countsOf_get k (nodes page) []) as Hg. fold counts in Hg.
    rewrite (mapGet_In counts k v Hnd Hkv) in Hg. exact Hg.
  - intros e He Hd. apply Hin in He as ([k v] & Hkv & ->).
    cbn [AnalyzeComponents.entry AnalyzeComponents.componentId
         AnalyzeComponents.name fst] in *.
    rewrite Hd. reflexivity.
  - intros e meta nm He Hd Hm. apply Hin in He as ([k v] & Hkv & ->).
    cbn [AnalyzeComponents.entry AnalyzeComponents.componentId
         AnalyzeComponents.name fst] in *.
    rewrite Hd. simpl. rewrite Hm. reflexivity.
  - apply usage_sorted.
  - vm_compute. reflexivity.
Qed.

End Usage.

(** Equal counts come in the order of the names: [Beta] is met first,
    [Alpha] is listed first. *)
Example usage_tie_break :
  AnalyzeComponents.componentsUsed
    (@AnalyzeComponents.usagePage codepointCollation sampleTieDict sampleTiePage)
  = [ AnalyzeComponents.mkUsed "c1" "Alpha" None 1;
      AnalyzeComponents.mkUsed "c2" "Beta" None 1 ].
Proof. vm_compute. reflexivity. Qed.

(* ================================================================== *)
(** * Linking traversals *)
(* ================================================================== *)

Lemma oids_unfold (n : Node.t) :
  oids n = Node.oid n :: flat_map oids (Node.children n).
Proof.
  unfold oids. destruct n as [o i nm ty kids bb sz w h fl st sw cr rr ch cid op].
  cbn [nodes Node.children Node.oid map]. f_equal.
  induction kids as [| k kids IH]; simpl; [reflexivity |].
  rewrite map_app, IH. reflexivity.
Qed.

Lemma height_child (n k : Node.t) :
  In k (Node.children n) -> (height k < height n)%nat.
Proof.
  destruct n as [o i nm ty kids bb sz w h fl st sw cr rr ch cid op].
  cbn [height Node.children].
  induction kids as [| k' kids IH]; simpl; [tauto |].
  intros [-> | Hin]; [lia |]. specialize (IH Hin). lia.
Qed.

Lemma traverseP_unfold {S : Type} (visit : Node.t -> pval -> S -> option S)
    (n : Node.t) (parent : pval) (s : S) :
  traverseP visit n parent s
  = fold_left
      (fun acc ch =>
         match acc with
         | Some s' => traverseP visit ch (PRef n) s'
         | None => None
         end)
      (Node.children n) (visit n parent s).
Proof. destruct n; reflexivity. Qed.

Lemma linkAll_unfold (n : Node.t) (parent : pval) (h : heap) :
  linkAll n parent h
  = fold_left (fun acc ch => linkAll ch (PRef n) acc) (Node.children n)
      (writeParent h n parent).
Proof. destruct n; reflexivity. Qed.

Lemma traverseA_unfold {A : Type} (visitA : list Node.t -> Node.t -> A -> A)
    (chainP : list Node.t) (n : Node.t) (a : A) :
  traverseA visitA chainP n a
  = fold_left (fun acc ch => traverseA visitA (n :: chainP) ch acc)
      (Node.children n) (visitA (n :: chainP) n a).
Proof. destruct n; reflexivity. Qed.

Lemma linkedTo_frame (h h' : heap) (page : Node.t) (chain : list Node.t) :
  forall cur,
    (forall c, In c chain -> h' !! Node.oid c = h !! Node.oid c) ->
    linkedTo h page cur chain -> linkedTo h' page cur chain.
Proof.
  induction chain as [| c rest IH]; intros cur Hsame Hl; simpl in *.
  - exact Hl.
  - destruct Hl as (-> & Hne & Hrest). repeat split; [exact Hne |].
    unfold readParent in *. rewrite (Hsame c) by tauto.
    apply IH; [intros c' Hc'; apply Hsame; tauto | exact Hrest].
Qed.

(** A linking traversal leaves the objects outside the subtree alone. *)
Lemma linkAll_frame (n : Node.t) :
  forall parent h a, ~ In a (oids n) -> linkAll n parent h !! a = h !! a.
Proof.
  induction n as [n IH] using node_children_ind.
  intros parent h a. rewrite oids_unfold.
  destruct n as [o i nm ty kids bb sz w hh fl st sw cr rr ch cid op].
  cbn [linkAll Node.children Node.oid] in *.
  set (self := Node.mk o i nm ty kids bb sz w hh fl st sw cr rr ch cid op).
  intros Hnot.
  assert (Ho : o <> a) by (intros ->; apply Hnot; left; reflexivity).
  assert (Hk : ~ In a (flat_map oids kids)) by (intros Hin; apply Hnot; right; exact Hin).
  clear Hnot.
  transitivity (writeParent h self parent !! a);
    [| unfold writeParent; cbn [Node.oid self]; apply lookup_insert_ne, Ho].
  generalize (writeParent h self parent). generalize (PRef self).
  induction IH as [| k kids Hk0 _ IHk]; intros p h0; simpl; [reflexivity |].
  simpl in Hk. rewrite in_app_iff in Hk.
  rewrite IHk by tauto. apply Hk0. tauto.
Qed.

Section Linking.

Context {A : Type} (page : Node.t).
Context (rest : heap -> Node.t -> A -> option A).
Context (restA : list Node.t -> Node.t -> A -> A).
Context (fuel : nat).

(** The callback reads the store through the chain of the node only. *)
Hypothesis rest_chain : forall h n chain a,
  linkedTo h page (PRef n) chain ->
  (List.length chain < fuel)%nat ->
  rest h n a = Some (restA chain n a).

(** The children of [self], visited one after the other below the chain
    of [self]. *)
Lemma traverseP_children (self : Node.t) (chain : list Node.t)
    (kids : list Node.t) :
  Forall
    (fun k => forall chainP parent h a,
       List.NoDup (oids k) ->
       (forall c, In c chainP -> ~ In (Node.oid c) (oids k)) ->
       ~ In (Node.oid page) (oids k) ->
       linkedTo h page parent chainP ->
       (List.length chainP + height k < fuel)%nat ->
       traverseP (linking rest) k parent (h, a)
       = Some (linkAll k parent h, traverseA restA chainP k a))
    kids ->
  List.NoDup (flat_map oids kids) ->
  (forall c, In c chain -> ~ In (Node.oid c) (flat_map oids kids)) ->
  ~ In (Node.oid page) (flat_map oids kids) ->
  (forall k, In k kids -> (List.length chain + height k < fuel)%nat) ->
  forall h a,
    linkedTo h page (PRef self) chain ->
    fold_left
      (fun acc ch =>
         match acc with
         | Some s' => traverseP (linking rest) ch (PRef self) s'
         | None => None
         end)
      kids (Some (h, a))
    = Some (fold_left (fun acc ch => linkAll ch (PRef self) acc) kids h,
            fold_left (fun acc ch => traverseA restA chain ch acc) kids a).
Proof.
  intros IH.
  induction IH as [| k kids Hk _ IHk]; intros Hnd Hchain Hpage Hfuel h a Hl;
    simpl; [reflexivity |].
  simpl in Hnd, Hchain, Hpage.
  pose proof (List.NoDup_app_remove_r _ _ Hnd) as Hndk.
  pose proof (List.NoDup_app_remove_l _ _ Hnd) as Hndr.
  rewrite in_app_iff in Hpage.
  rewrite (Hk chain (PRef self) h a).
  - apply IHk.
    + exact Hndr.
    + intros c Hc Hin. apply (Hchain c Hc). rewrite in_app_iff. tauto.
    + tauto.
    + intros k' Hk'. apply Hfuel. right. exact Hk'.
    + apply (linkedTo_frame h); [| exact Hl].
      intros c Hc. apply linkAll_frame.
      intros Hin. apply (Hchain c Hc). rewrite in_app_iff. tauto.
  - exact Hndk.
  - intros c Hc Hin. apply (Hchain c Hc). rewrite in_app_iff. tauto.
  - tauto.
  - exact Hl.
  - apply Hfuel. left. reflexivity.
Qed.

Lemma traverseP_subtree (n : Node.t) :
  forall chainP parent h a,
    List.NoDup (oids n) ->
    (forall c, In c chainP -> ~ In (Node.oid c) (oids n)) ->
    ~ In (Node.oid page) (oids n) ->
    linkedTo h page parent chainP ->
    (List.length chainP + height n < fuel)%nat ->
    traverseP (linking rest) n parent (h, a)
    = Some (linkAll n parent h, traverseA restA chainP n a).
Proof.
  induction n as [n IH] using node_children_ind.
  intros chainP parent h a Hnd Hchain Hpage Hl Hfuel.
  rewrite oids_unfold in Hnd, Hchain, Hpage.
  pose proof (height_child n) as Hkids.
  assert (Hpos : (0 < height n)%nat) by (destruct n; simpl; lia).
  apply List.NoDup_cons_iff in Hnd as [Hself Hnd].
  assert (Hl1 : linkedTo (writeParent h n parent) page (PRef n) (n :: chainP)).
  { cbn [linkedTo]. split; [reflexivity |]. split.
    - intros Heq. apply Hpage. left. exact Heq.
    - unfold readParent, writeParent.
      rewrite lookup_insert_eq. cbn [default].
      apply (linkedTo_frame h); [| exact Hl].
      intros c Hc. apply lookup_insert_ne.
      intros Heq. apply (Hchain c Hc). left. exact Heq. }
  rewrite traverseP_unfold, linkAll_unfold, traverseA_unfold.
  unfold linking at 2. cbn [fst snd].
  rewrite (rest_chain _ n (n :: chainP) a Hl1)
    by (cbn [List.length]; lia).
  apply traverseP_children.
  - exact IH.
  - exact Hnd.
  - intros c [<- | Hc] Hin.
    + apply Hself, Hin.
    + apply (Hchain c Hc). right. exact Hin.
  - intros Hin. apply Hpage. right. exact Hin.
  - intros k Hk. specialize (Hkids k Hk). cbn [List.length]. lia.
  - exact Hl1.
Qed.

Lemma traverseP_page (h : heap) (a : A) :
  List.NoDup (oids page) ->
  (height page <= fuel)%nat ->
  traverseP (linking rest) page PUndef (h, a)
  = Some (linkAll page PUndef h, traversePageA restA page a).
Proof.
  intros Hnd Hfuel.
  rewrite oids_unfold in Hnd.
  pose proof (height_child page) as Hkids.
  assert (Hpos : (0 < height page)%nat) by (destruct page; simpl; lia).
  apply List.NoDup_cons_iff in Hnd as [Hself Hnd].
  unfold traversePageA.
  rewrite traverseP_unfold, linkAll_unfold.
  unfold linking at 2. cbn [fst snd].
  rewrite (rest_chain _ page [] a) by (simpl; first [reflexivity | lia]).
  apply traverseP_children.
  - apply Forall_forall. intros k _. apply traverseP_subtree.
  - exact Hnd.
  - intros c [].
  - exact Hself.
  - intros k Hk. specialize (Hkids k Hk). simpl. lia.
  - simpl. reflexivity.
Qed.

End Linking.

(* ================================================================== *)
(** * The three linking scripts *)
(* ================================================================== *)

Lemma NoDup_flat_map_each {A B : Type} (f : A -> list B) (l : list A) :
  List.NoDup (flat_map f l) -> forall x, In x l -> List.NoDup (f x).
Proof.
  induction l as [| y l IH]; simpl; intros Hnd x Hx; [tauto |].
  destruct Hx as [-> | Hx].
  - apply (List.NoDup_app_remove_r _ _ Hnd).
  - apply IH; [apply (List.NoDup_app_remove_l _ _ Hnd) | exact Hx].
Qed.

Lemma classify_chain (fuel : nat) (dict : gmap string Meta.t) (page : Node.t)
    (pageName : string) (h : heap) (n : Node.t) (chain : list Node.t)
    (u : UiComponents.ui) :
  linkedTo h page (PRef n) chain ->
  (List.length chain < fuel)%nat ->
  UiComponents.visitRest (UiComponents.makePath fuel h page pageName) dict n u
  = Some (classifyA dict pageName chain n u).
Proof.
  intros Hl Hf. unfold classifyA, UiComponents.visitRest,
    UiComponents.visitStructural.
  rewrite (makePath_linked fuel h page pageName n chain Hl Hf).
  destruct (if typeIs (Node.type n) "INSTANCE" then Node.componentId n else None)
    as [cid |].
  - destruct (UiComponents.resolvedName dict cid n); [reflexivity |].
    destruct (UiComponents.isIconComponentName _); [reflexivity |].
    destruct (UiComponents.isUiComponentName _).
    + destruct (UiComponents.nameCategory _); reflexivity.
    + destruct (UiComponents.classifyStructuralUi n); reflexivity.
  - destruct (UiComponents.classifyStructuralUi n); reflexivity.
Qed.

Lemma buttons_chain (fuel : nat) (page : Node.t) (pageName : string)
    (h : heap) (n : Node.t) (chain : list Node.t)
    (results : list InspectButtons.found) :
  linkedTo h page (PRef n) chain ->
  (List.length chain < fuel)%nat ->
  InspectButtons.visitRest (makePathAll fuel h page pageName) pageName n results
  = Some (buttonsA pageName chain n results).
Proof.
  intros Hl Hf. unfold buttonsA, InspectButtons.visitRest.
  rewrite (makePathAll_linked fuel h page pageName n chain Hl Hf).
  destruct (strOr (Node.name n) ""); [reflexivity |].
  destruct (negb _); reflexivity.
Qed.

Lemma cards_chain (fuel : nat) (page : Node.t) (pageName : string)
    (h : heap) (n : Node.t) (chain : list Node.t)
    (cards : list InspectCards.found) :
  linkedTo h page (PRef n) chain ->
  (List.length chain < fuel)%nat ->
  InspectCards.visitRest (InspectCards.topFrame fuel h page pageName)
    (makePathAll fuel h page pageName) pageName n cards
  = Some (cardsA pageName chain n cards).
Proof.
  intros Hl Hf. unfold cardsA, InspectCards.visitRest, InspectCards.topFrame.
  rewrite (makePathAll_linked fuel h page pageName n chain Hl Hf).
  rewrite (walkUp_linked _ h page chain fuel (PRef n) pageName Hl Hf).
  fold (topFrameOf pageName chain).
  destruct (negb _); reflexivity.
Qed.

(** One page of the classification: the store is linked and the report
    is the one of the chains. *)
Lemma classifyPage_linked (fuel : nat) (dict : gmap string Meta.t)
    (page : Node.t) (h : heap) :
  List.NoDup (oids page) ->
  (height page <= fuel)%nat ->
  UiComponents.classifyPage fuel dict page h
  = Some (linkAll page PUndef h, classifyPageA dict page).
Proof.
  intros Hnd Hf. unfold UiComponents.classifyPage, UiComponents.visit.
  set (pageName := strOr (Node.name page) "(isimsiz sayfa)").
  rewrite (traverseP_page page _ (classifyA dict pageName) fuel);
    try assumption.
  - reflexivity.
  - intros. apply classify_chain; assumption.
Qed.

Lemma buttonsPage_linked (fuel : nat) (page : Node.t) (h : heap)
    (results : list InspectButtons.found) :
  List.NoDup (oids page) ->
  (height page <= fuel)%nat ->
  InspectButtons.inspectPage fuel page (h, results)
  = Some (linkAll page PUndef h,
          traversePageA (buttonsA (InspectButtons.pageNameOf page)) page results).
Proof.
  intros Hnd Hf. unfold InspectButtons.inspectPage.
  apply (traverseP_page page _ _ fuel); try assumption.
  intros. apply buttons_chain; assumption.
Qed.

Lemma cardsPage_linked (fuel : nat) (page : Node.t) (h : heap)
    (cards : list InspectCards.found) :
  List.NoDup (oids page) ->
  (height page <= fuel)%nat ->
  InspectCards.inspectPage fuel page (h, cards)
  = Some (linkAll page PUndef h,
          traversePageA (cardsA (InspectButtons.pageNameOf page)) page cards).
Proof.
  intros Hnd Hf. unfold InspectCards.inspectPage.
  apply (traverseP_page page _ _ fuel); try assumption.
  intros. apply cards_chain; assumption.
Qed.

Lemma classify_pages_linked (fuel : nat) (dict : gmap string Meta.t)
    (pages : list Node.t) :
  List.NoDup (flat_map oids pages) ->
  Forall (fun pg => (height pg <= fuel)%nat) pages ->
  forall h acc,
    fold_left
      (fun acc page =>
         match acc with
         | Some (h', reports) =>
             match UiComponents.classifyPage fuel dict page h' with
             | Some (h'', r) => Some (h'', reports ++ [r])
             | None => None
             end
         | None => None
         end)
      pages (Some (h, acc))
    = Some (fold_left (fun hh pg => linkAll pg PUndef hh) pages h,
            acc ++ map (classifyPageA dict) pages).
Proof.
  induction pages as [| pg pages IH]; intros Hnd Hdeep h acc; simpl.
  - rewrite app_nil_r. reflexivity.
  - inversion Hdeep as [| ? ? Hpg Hrest]; subst.
    rewrite classifyPage_linked;
      [| apply (NoDup_flat_map_each oids (pg :: pages) Hnd); left; reflexivity
       | exact Hpg].
    rewrite IH; [| apply (List.NoDup_app_remove_l _ _ Hnd) | exact Hrest].
    rewrite <- app_assoc. reflexivity.
Qed.

Lemma classify_main_linked (fuel : nat) (file : File.t) (h : heap) :
  distinctObjects file ->
  deepEnough fuel file ->
  UiComponents.main fuel file h
  = Some (linkPages file h,
          map (classifyPageA (File.components file)) (pagesNodes file)).
Proof.
  intros Hnd Hdeep. unfold UiComponents.main.
  rewrite (classify_pages_linked fuel _ _ Hnd Hdeep). reflexivity.
Qed.



(* ================================================================== *)
(** * What a linking traversal writes *)
(* ================================================================== *)

Lemma NoDup_app_disjoint {A : Type} (l l' : list A) :
  List.NoDup (l ++ l') -> forall a, In a l -> ~ In a l'.
Proof.
  induction l as [| x l IH]; simpl; intros Hnd a Hin; [tauto |].
  apply List.NoDup_cons_iff in Hnd as [Hx Hnd].
  destruct Hin as [-> | Hin]; [| apply IH; assumption].
  intros Hin'. apply Hx, in_or_app. right. exact Hin'.
Qed.

Lemma linkKids_frame (q : pval) (kids : list Node.t) :
  forall h a,
    ~ In a (flat_map oids kids) ->
    fold_left (fun acc ch => linkAll ch q acc) kids h !! a = h !! a.
Proof.
  induction kids as [| k kids IH]; intros h a Hnot; simpl; [reflexivity |].
  simpl in Hnot. rewrite in_app_iff in Hnot.
  rewrite IH by tauto. apply linkAll_frame. tauto.
Qed.

Lemma linkPages_frame (file : File.t) (h : heap) (a : positive) :
  ~ In a (flat_map oids (pagesNodes file)) -> linkPages file h !! a = h !! a.
Proof. apply linkKids_frame. Qed.

(** The root of a linked subtree points to the parent it was given. *)
Lemma linkAll_root (n : Node.t) (parent : pval) (h : heap) :
  List.NoDup (oids n) -> linkAll n parent h !! Node.oid n = Some parent.
Proof.
  rewrite oids_unfold, linkAll_unfold. intros Hnd.
  apply List.NoDup_cons_iff in Hnd as [Hself _].
  rewrite linkKids_frame by exact Hself.
  apply lookup_insert_eq.
Qed.

Lemma child_in_nodes (n : Node.t) :
  forall x k, In x (nodes n) -> In k (Node.children x) -> In k (nodes n).
Proof.
  induction n as [n IH] using node_children_ind. intros x k Hx Hk.
  destruct n as [o i nm ty kids bb sz w hh fl st sw cr rr ch cid op].
  cbn [nodes Node.children] in *.
  destruct Hx as [<- | Hx].
  - right. cbn [Node.children] in Hk.
    apply in_flat_map. exists k. split; [exact Hk |].
    destruct k; left; reflexivity.
  - right. apply in_flat_map in Hx as (k' & Hk' & Hx).
    apply in_flat_map. exists k'. split; [exact Hk' |].
    rewrite List.Forall_forall in IH. apply (IH k' Hk' x k Hx Hk).
Qed.

(** The children of a list of siblings, linked one subtree after the
    other to the same parent. *)
Lemma linkKids_links (q : pval) (kids : list Node.t) :
  Forall
    (fun n => forall p h x k,
       List.NoDup (oids n) -> In x (nodes n) -> In k (Node.children x) ->
       linkAll n p h !! Node.oid k = Some (PRef x))
    kids ->
  List.NoDup (flat_map oids kids) ->
  forall h,
    (forall k, In k kids ->
       fold_left (fun acc ch => linkAll ch q acc) kids h !! Node.oid k = Some q)
    /\ (forall x k, In x (flat_map nodes kids) -> In k (Node.children x) ->
          fold_left (fun acc ch => linkAll ch q acc) kids h !! Node.oid k
          = Some (PRef x)).
Proof.
  intros IH. induction IH as [| k1 kids Hk1 _ IHk]; intros Hnd h; simpl.
  - split; intros; tauto.
  - simpl in Hnd.
    pose proof (List.NoDup_app_remove_r _ _ Hnd) as Hnd1.
    pose proof (List.NoDup_app_remove_l _ _ Hnd) as Hndr.
    pose proof (NoDup_app_disjoint _ _ Hnd) as Hdisj.
    destruct (IHk Hndr (linkAll k1 q h)) as [IHa IHb].
    split.
    + intros k [<- | Hk]; [| apply IHa, Hk].
      rewrite linkKids_frame.
      * apply linkAll_root, Hnd1.
      * apply Hdisj. rewrite oids_unfold. left. reflexivity.
    + intros x k Hx Hk. apply in_app_or in Hx as [Hx | Hx];
        [| apply (IHb x k Hx Hk)].
      rewrite linkKids_frame.
      * apply Hk1; assumption.
      * apply Hdisj. unfold oids. apply in_map.
        apply (child_in_nodes k1 x k Hx Hk).
Qed.

(** Inside a linked subtree every child points to the node that holds
    it. *)
Lemma linkAll_child (n : Node.t) :
  forall p h x k,
    List.NoDup (oids n) -> In x (nodes n) -> In k (Node.children x) ->
    linkAll n p h !! Node.oid k = Some (PRef x).
Proof.
  induction n as [n IH] using node_children_ind.
  intros p h x k Hnd Hx Hk.
  rewrite oids_unfold in Hnd. rewrite linkAll_unfold.
  apply List.NoDup_cons_iff in Hnd as [_ Hnd].
  destruct (linkKids_links (PRef n) (Node.children n) IH Hnd
              (writeParent h n p)) as [Ha Hb].
  assert (Hn : nodes n = n :: flat_map nodes (Node.children n))
    by (destruct n; reflexivity).
  rewrite Hn in Hx. destruct Hx as [<- | Hx].
  - apply Ha, Hk.
  - apply (Hb x k Hx Hk).
Qed.

Lemma linkPages_links (file : File.t) (h : heap) :
  distinctObjects file ->
  (forall pg, In pg (pagesNodes file) ->
     linkPages file h !! Node.oid pg = Some PUndef)
  /\ (forall x k, In x (flat_map nodes (pagesNodes file)) ->
        In k (Node.children x) ->
        linkPages file h !! Node.oid k = Some (PRef x)).
Proof.
  intros Hnd. apply linkKids_links; [| exact Hnd].
  apply Forall_forall. intros pg _. apply linkAll_child.
Qed.

(** A node of a subtree is its root or the child of a node of the
    subtree. *)
Lemma nodes_cases (n : Node.t) :
  forall x, In x (nodes n) ->
    x = n \/ exists y, In y (nodes n) /\ In x (Node.children y).
Proof.
  induction n as [n IH] using node_children_ind. intros x Hx.
  assert (Hn : nodes n = n :: flat_map nodes (Node.children n))
    by (destruct n; reflexivity).
  rewrite Hn in Hx |- *. destruct Hx as [<- | Hx]; [left; reflexivity |].
  right. apply in_flat_map in Hx as (k & Hk & Hx).
  rewrite List.Forall_forall in IH.
  destruct (IH k Hk x Hx) as [-> | (y & Hy & Hxy)].
  - exists n. split; [left; reflexivity | exact Hk].
  - exists y. split; [| exact Hxy].
    right. apply in_flat_map. exists k. split; assumption.
Qed.

(** Linking the pages again changes nothing. *)
Lemma linkPages_idempotent (file : File.t) (h : heap) :
  distinctObjects file ->
  linkPages file (linkPages file h) = linkPages file h.
Proof.
  intros Hnd. apply map_eq. intros a.
  destruct (in_dec Pos.eq_dec a (flat_map oids (pagesNodes file)))
    as [Hin | Hout]; [| apply linkPages_frame, Hout].
  destruct (linkPages_links file h Hnd) as [Hp1 Hk1].
  destruct (linkPages_links file (linkPages file h) Hnd) as [Hp2 Hk2].
  apply in_flat_map in Hin as (pg & Hpg & Hin).
  unfold oids in Hin. apply in_map_iff in Hin as (x & <- & Hx).
  destruct (nodes_cases pg x Hx) as [-> | (y & Hy & Hxy)].
  - rewrite Hp1, Hp2 by exact Hpg. reflexivity.
  - assert (Hy' : In y (flat_map nodes (pagesNodes file)))
      by (apply in_flat_map; exists pg; split; assumption).
    rewrite (Hk1 y x Hy' Hxy), (Hk2 y x Hy' Hxy). reflexivity.
Qed.

(* ================================================================== *)
(** * Effects on the input, and repeated runs *)
(* ================================================================== *)

Lemma sampleAuthFile_distinct : distinctObjects sampleAuthFile.
Proof.
  unfold distinctObjects. simpl.
  repeat (constructor; [simpl; lia |]). constructor.
Defined.

Lemma sampleAuthFile_deep : deepEnough 5 sampleAuthFile.
Proof.
  unfold deepEnough. simpl. constructor; [simpl; lia | constructor].
Defined.




(** C4.  Two classification runs in a row over the same tree return the
    same report: the report is a function of the tree and the
    dictionary, whatever [__parent] values the store holds at the
    start.  The second run also leaves the store as the first left
    it. *)
Theorem classification_idempotent (fuel : nat) (file : File.t) (h : heap) :
  distinctObjects file ->
  deepEnough fuel file ->
  exists report h1,
    UiComponents.main fuel file h = Some (h1, report) /\
    UiComponents.main fuel file h1 = Some (h1, report) /\
    report = map (classifyPageA (File.components file)) (pagesNodes file).
Proof.
  intros Hnd Hdeep.
  exists (map (classifyPageA (File.components file)) (pagesNodes file)).
  exists (linkPages file h).
  split; [| split; [| reflexivity]].
  - apply classify_main_linked; assumption.
  - rewrite <- (linkPages_idempotent file h Hnd) at 2.
    apply classify_main_linked; assumption.
Qed.

Lemma classification_idempotent_witness :
  exists report h1,
    UiComponents.main 5 sampleAuthFile ∅ = Some (h1, report) /\
    UiComponents.main 5 sampleAuthFile h1 = Some (h1, report) /\
    report = map (classifyPageA (File.components sampleAuthFile))
               (pagesNodes sampleAuthFile).
Proof.
  apply (classification_idempotent 5 sampleAuthFile ∅
           sampleAuthFile_distinct sampleAuthFile_deep).
Defined.

(** The path of the specification: [Submit] in [Card] in [Login View] on
    the page [Auth]. *)
Example path_construction :
  option_map snd (UiComponents.main 5 sampleAuthFile ∅)
  = Some [ UiComponents.mkPage "Auth"
             (UiComponents.mkUi
                [ UiComponents.mkItem "Submit"
                    "Auth / Login View / Card / Submit" ]
                []
                [ UiComponents.mkItem "Card" "Auth / Login View / Card" ]) ].
Proof. vm_compute. reflexivity. Qed.

(* ================================================================== *)
(** * Counting maps *)
(* ================================================================== *)

Lemma mapSet_keys_exact {V : Type} (m : list (string * V)) (k : string) (v : V) :
  map fst (mapSet m k v)
  = if existsb (String.eqb k) (map fst m) then map fst m
    else map fst m ++ [k].
Proof.
  induction m as [| [k' v'] m IH]; simpl; [reflexivity |].
  rewrite (String.eqb_sym k k').
  destruct (String.eqb k' k) eqn:E; simpl; [reflexivity |].
  rewrite IH. destruct (existsb _ _); reflexivity.
Qed.

Lemma incr_get (ks : list string) (k : string) :
  forall m,
    default 0%nat (mapGet (fold_left mapIncr ks m) k)
    = (default 0%nat (mapGet m k)
       + List.length (List.filter (String.eqb k) ks))%nat.
Proof.
  induction ks as [| k0 ks IH]; intros m; simpl; [lia |].
  rewrite IH. unfold mapIncr.
  destruct (String.eqb k k0) eqn:E.
  - apply String.eqb_eq in E. subst k0.
    rewrite mapGet_mapSet_eq. simpl. lia.
  - rewrite mapGet_mapSet_ne; [lia |].
    intros ->. rewrite String.eqb_refl in E. discriminate.
Qed.

Lemma incr_keys (ks : list string) (k : string) :
  forall m,
    In k (map fst (fold_left mapIncr ks m)) <-> In k (map fst m) \/ In k ks.
Proof.
  induction ks as [| k0 ks IH]; intros m; simpl; [tauto |].
  rewrite IH. unfold mapIncr. rewrite mapSet_keys.
  intuition congruence.
Qed.

Lemma incr_NoDup (ks : list string) :
  forall m, List.NoDup (map fst m) ->
    List.NoDup (map fst (fold_left mapIncr ks m)).
Proof.
  induction ks as [| k0 ks IH]; intros m Hnd; simpl; [exact Hnd |].
  apply IH. unfold mapIncr. apply mapSet_NoDup, Hnd.
Qed.

Lemma incr_firstSeen (ks : list string) :
  forall m,
    map fst (fold_left mapIncr ks m)
    = map fst m ++ firstSeen ks (map fst m).
Proof.
  induction ks as [| k0 ks IH]; intros m; simpl; [symmetry; apply app_nil_r |].
  rewrite IH. unfold mapIncr. rewrite mapSet_keys_exact.
  destruct (existsb (String.eqb k0) (map fst m)); [reflexivity |].
  rewrite <- app_assoc. reflexivity.
Qed.

Lemma mapSet_total (m : list (string * nat)) (k : string) (v : nat) :
  (totalCount (mapSet m k v) + default 0%nat (mapGet m k)
   = totalCount m + v)%nat.
Proof.
  induction m as [| [k' v'] m IH]; simpl; [lia |].
  destruct (String.eqb k' k); simpl; lia.
Qed.

Lemma incr_total (ks : list string) :
  forall m,
    totalCount (fold_left mapIncr ks m)
    = (totalCount m + List.length ks)%nat.
Proof.
  induction ks as [| k0 ks IH]; intros m; simpl; [lia |].
  rewrite IH. unfold mapIncr.
  pose proof (mapSet_total m k0 (S (default 0%nat (mapGet m k0)))). lia.
Qed.

Lemma mapGet_some_In {V : Type} (m : list (string * V)) (k : string) (v : V) :
  mapGet m k = Some v -> In (k, v) m.
Proof.
  induction m as [| [k' v'] m IH]; simpl; [discriminate |].
  destruct (String.eqb k' k) eqn:E; [| auto].
  apply String.eqb_eq in E. intros [= ->]. left. congruence.
Qed.

(** The palette traversal counts the keys of the document in order. *)
Lemma countFills_keys (n : Node.t) (m : list (string * nat)) :
  Analyze.countFills n m = fold_left mapIncr (nodeKeys n) m.
Proof.
  unfold Analyze.countFills, nodeKeys. revert m.
  induction (Node.fills n) as [| p ps IH]; intros m; simpl; [reflexivity |].
  rewrite fold_left_app, IH.
  destruct (Analyze.paintKey n p); reflexivity.
Qed.

Lemma palette_counts (d : Node.t) :
  traverse Analyze.countFills d [] = fold_left mapIncr (paletteKeys d) [].
Proof.
  rewrite traverse_nodes. unfold paletteKeys.
  generalize (@nil (string * nat)).
  induction (nodes d) as [| n ns IH]; intros m; simpl; [reflexivity |].
  rewrite fold_left_app, IH, countFills_keys. reflexivity.
Qed.

(* ================================================================== *)
(** * The palette *)
(* ================================================================== *)

Lemma StronglySorted_firstn {A : Type} (R : A -> A -> Prop) (l : list A) :
  forall n, StronglySorted R l -> StronglySorted R (firstn n l).
Proof.
  induction l as [| x l IH]; intros [| n] Hs; simpl; try constructor.
  - apply IH. inversion Hs; assumption.
  - inversion Hs as [| ? ? _ Hall]; subst.
    rewrite List.Forall_forall in *. intros y Hy. apply Hall.
    rewrite <- (firstn_skipn n l). apply in_or_app. left. exact Hy.
Qed.

Lemma StronglySorted_app_order {A : Type} (R : A -> A -> Prop)
    (l1 l2 : list A) :
  StronglySorted R (l1 ++ l2) ->
  forall a b, In a l1 -> In b l2 -> R a b.
Proof.
  induction l1 as [| x l1 IH]; simpl; intros Hs a b Ha Hb; [tauto |].
  inversion Hs as [| ? ? Hs' Hall]; subst.
  destruct Ha as [<- | Ha]; [| apply IH; assumption].
  rewrite List.Forall_forall in Hall. apply Hall, in_or_app. right. exact Hb.
Qed.

Lemma NoDup_firstn {A : Type} (l : list A) (n : nat) :
  List.NoDup l -> List.NoDup (firstn n l).
Proof.
  intros Hnd. rewrite <- (firstn_skipn n l) in Hnd.
  apply (List.NoDup_app_remove_r _ _ Hnd).
Qed.

(** A stable sort keeps the order inside a class that no element of the
    class is moved across. *)
Lemma sortBy_stable {A : Type} (cmp : A -> A -> Z) (p : A -> bool) :
  (forall x y, p x = true -> (0 < cmp x y)%Z -> p y = false) ->
  forall l, List.filter p (sortBy cmp l) = List.filter p l.
Proof.
  intros Hclass.
  assert (Hins : forall x l,
             List.filter p (insertSorted cmp x l) = List.filter p (x :: l)).
  { intros x l. induction l as [| y l IH]; [reflexivity |].
    cbn [insertSorted].
    destruct (Z.leb_spec (cmp x y) 0) as [Hle | Hgt]; [reflexivity |].
    cbn [List.filter] in *. rewrite IH.
    destruct (p x) eqn:Ex; [| reflexivity].
    rewrite (Hclass x y Ex Hgt). reflexivity. }
  induction l as [| x l IH]; [reflexivity |].
  cbn [sortBy]. rewrite Hins. cbn [List.filter]. rewrite IH. reflexivity.
Qed.

Lemma filter_map_swap {A B : Type} (f : A -> B) (p : A -> bool)
    (q : B -> bool) (l : list A) :
  (forall x, In x l -> p x = q (f x)) ->
  map f (List.filter p l) = List.filter q (map f l).
Proof.
  induction l as [| x l IH]; intros Hpq; [reflexivity |].
  cbn [List.filter map]. rewrite <- (Hpq x) by (left; reflexivity).
  rewrite <- IH by (intros y Hy; apply Hpq; right; exact Hy).
  destruct (p x); reflexivity.
Qed.

Lemma byCount_total (a b : Analyze.swatch) :
  (0 < Analyze.byCount a b)%Z -> (Analyze.byCount b a <= 0)%Z.
Proof. unfold Analyze.byCount. lia. Qed.

Lemma palette_sorted (l : list Analyze.swatch) :
  StronglySorted spec_paletteOrder (sortBy Analyze.byCount l).
Proof.
  apply Sorted_StronglySorted.
  - intros a b c. unfold spec_paletteOrder. lia.
  - pose proof (sortBy_sorted Analyze.byCount byCount_total l) as Hs.
    induction Hs as [| a l' Hs IH Hhd]; constructor; [exact IH |].
    destruct Hhd as [| b l'' Hab]; constructor.
    unfold before, Analyze.byCount in Hab. unfold spec_paletteOrder. lia.
Qed.

(** The entries of the colour map: one per key, with the number of its
    uses. *)
Lemma palette_entry (d : Node.t) (k : string) (v : nat) :
  In (k, v) (traverse Analyze.countFills d []) ->
  v = uses k d /\ (0 < v)%nat.
Proof.
  rewrite palette_counts. intros Hin.
  assert (Hnd : List.NoDup (map fst (fold_left mapIncr (paletteKeys d) [])))
    by (apply incr_NoDup; constructor).
  pose proof (incr_get (paletteKeys d) k []) as Hg.
  rewrite (mapGet_In _ k v Hnd Hin) in Hg. simpl in Hg.
  split; [exact Hg |].
  apply (in_map fst) in Hin. apply incr_keys in Hin as [[] | Hin].
  unfold uses in Hg. rewrite Hg.
  assert (Hf : In k (List.filter (String.eqb k) (paletteKeys d)))
    by (apply filter_In; split; [exact Hin | apply String.eqb_refl]).
  destruct (List.filter _ _); [destruct Hf | simpl; lia].
Qed.

(** X1.  The palette of a document has at most 50 entries with distinct
    keys; the count of an entry is the number of counted fills with
    that key; the entries come by descending count; and a colour that
    is used but left out is used no more often than any entry, the
    palette being full. *)
Theorem palette_top_fifty (d : Node.t) :
  let pal := Analyze.palette d in
  (List.length pal <= 50)%nat
  /\ List.NoDup (map Analyze.hexOf pal)
  /\ (forall s, In s pal ->
        Analyze.count s = uses (Analyze.hexOf s) d /\ (0 < Analyze.count s)%nat)
  /\ StronglySorted spec_paletteOrder pal
  /\ (forall k, (0 < uses k d)%nat -> ~ In k (map Analyze.hexOf pal) ->
        List.length pal = 50%nat /\
        forall s, In s pal -> (uses k d <= Analyze.count s)%nat).
Proof.
  intros pal. subst pal. unfold Analyze.palette.
  set (counts := traverse Analyze.countFills d []).
  set (entries := map (fun e => Analyze.mkSwatch (fst e) (snd e)) counts).
  set (full := sortBy Analyze.byCount entries).
  assert (Hperm : Permutation full entries) by apply sortBy_perm.
  assert (Hkeys : map Analyze.hexOf entries = map fst counts)
    by (unfold entries; rewrite map_map; reflexivity).
  assert (Hnd : List.NoDup (map Analyze.hexOf full)).
  { eapply Permutation_NoDup;
      [apply Permutation_map, Permutation_sym, Hperm |].
    rewrite Hkeys. unfold counts. rewrite palette_counts.
    apply incr_NoDup. constructor. }
  assert (Hentry : forall s, In s full ->
             Analyze.count s = uses (Analyze.hexOf s) d /\
             (0 < Analyze.count s)%nat).
  { intros s Hs. apply (Permutation_in _ Hperm) in Hs.
    apply in_map_iff in Hs as ([k v] & <- & Hkv).
    apply (palette_entry d k v Hkv). }
  assert (Hsorted : StronglySorted spec_paletteOrder full)
    by apply palette_sorted.
  assert (Hsub : forall s, In s (firstn 50 full) -> In s full).
  { intros s Hs. rewrite <- (firstn_skipn 50 full).
    apply in_or_app. left. exact Hs. }
  split; [apply firstn_le_length |].
  split; [rewrite <- firstn_map; apply NoDup_firstn, Hnd |].
  split; [intros s Hs; apply Hentry, Hsub, Hs |].
  split; [apply StronglySorted_firstn, Hsorted |].
  intros k Hk Hout.
  assert (Hin : In k (map Analyze.hexOf full)).
  { apply (Permutation_in _
             (Permutation_map _ (Permutation_sym Hperm))).
    rewrite Hkeys. unfold counts. rewrite palette_counts.
    apply incr_keys. right. unfold uses in Hk.
    destruct (List.filter (String.eqb k) (paletteKeys d)) as [| k' ?] eqn:Ef;
      [simpl in Hk; lia |].
    assert (Hk' : In k' (List.filter (String.eqb k) (paletteKeys d)))
      by (rewrite Ef; left; reflexivity).
    apply filter_In in Hk' as [Hk' Heq].
    apply String.eqb_eq in Heq. subst k'. exact Hk'. }
  apply in_map_iff in Hin as (t & Ht & Hfull).
  rewrite <- (firstn_skipn 50 full) in Hfull.
  apply in_app_or in Hfull as [Hfirst | Hrest].
  { exfalso. apply Hout. apply in_map_iff. exists t. split; assumption. }
  split.
  - apply firstn_length_le.
    destruct (Nat.le_gt_cases 50 (List.length full)) as [Hle | Hlt];
      [exact Hle |].
    rewrite skipn_all2 in Hrest by lia. destruct Hrest.
  - intros s Hs.
    assert (Hst : spec_paletteOrder s t).
    { apply (StronglySorted_app_order _ (firstn 50 full) (skipn 50 full));
        [rewrite firstn_skipn; exact Hsorted | exact Hs | exact Hrest]. }
    unfold spec_paletteOrder in Hst.
    assert (Ht' : In t full).
    { rewrite <- (firstn_skipn 50 full). apply in_or_app. right. exact Hrest. }
    destruct (Hentry t Ht') as [Hc _]. rewrite Ht in Hc. lia.
Qed.

(** X2.  Colours that are used equally often come in the palette in the
    order in which the traversal first met them: the palette is the
    first 50 entries of a list in which, for every count, the colours
    with that count are in first-seen order. *)
Theorem palette_ties_first_seen (d : Node.t) :
  exists full,
    Analyze.palette d = firstn 50 full /\
    forall c,
      map Analyze.hexOf
        (List.filter (fun s => Nat.eqb (Analyze.count s) c) full)
      = List.filter (fun k => Nat.eqb (uses k d) c)
          (firstSeen (paletteKeys d) []).
Proof.
  unfold Analyze.palette.
  set (counts := traverse Analyze.countFills d []).
  exists (sortBy Analyze.byCount
            (map (fun e => Analyze.mkSwatch (fst e) (snd e)) counts)).
  split; [reflexivity |]. intros c.
  rewrite sortBy_stable.
  - rewrite (filter_map_swap Analyze.hexOf _
               (fun k => Nat.eqb (uses k d) c)).
    + rewrite map_map. cbn [Analyze.hexOf].
      unfold counts. rewrite palette_counts.
      change (map (fun x : string * nat => fst x)) with (@map (string * nat) _ fst).
      rewrite incr_firstSeen. reflexivity.
    + intros s Hs. apply in_map_iff in Hs as ([k v] & <- & Hkv).
      cbn [Analyze.hexOf Analyze.count fst snd].
      destruct (palette_entry d k v Hkv) as [-> _]. reflexivity.
  - intros x y Hx Hgt. apply Nat.eqb_eq in Hx. apply Nat.eqb_neq.
    unfold Analyze.byCount in Hgt. lia.
Qed.

(* ================================================================== *)
(** * Palette keys can be read back *)
(* ================================================================== *)








(* ================================================================== *)
(** * The order of the visits *)
(* ================================================================== *)

Lemma fold_left_None {A S : Type} (f : A -> S -> option S) (l : list A) :
  fold_left
    (fun acc x => match acc with Some s => f x s | None => None end) l None
  = None.
Proof. induction l as [| x l IH]; simpl; auto. Qed.

Lemma withParent_unfold (n : Node.t) (parent : pval) :
  withParent n parent
  = (n, parent) :: flat_map (fun ch => withParent ch (PRef n)) (Node.children n).
Proof. destruct n; reflexivity. Qed.

Lemma nodes_unfold (n : Node.t) :
  nodes n = n :: flat_map nodes (Node.children n).
Proof. destruct n; reflexivity. Qed.

Lemma traverseP_withParent {S : Type}
    (visit : Node.t -> pval -> S -> option S) (n : Node.t) :
  forall parent s,
    traverseP visit n parent s
    = fold_left
        (fun acc xp =>
           match acc with
           | Some s' => visit (fst xp) (snd xp) s'
           | None => None
           end)
        (withParent n parent) (Some s).
Proof.
  induction n as [n IH] using node_children_ind. intros parent s.
  rewrite traverseP_unfold, withParent_unfold. cbn [fold_left fst snd].
  generalize (visit n parent s). generalize (PRef n).
  induction IH as [| k kids Hk _ IHk]; intros p acc; simpl; [reflexivity |].
  rewrite fold_left_app. rewrite <- IHk. f_equal.
  destruct acc as [s' |]; [apply Hk |].
  symmetry. apply (fold_left_None (fun xp => visit (fst xp) (snd xp))).
Qed.

Lemma withParent_nodes (n : Node.t) :
  forall parent, map fst (withParent n parent) = nodes n.
Proof.
  induction n as [n IH] using node_children_ind. intros parent.
  rewrite withParent_unfold, nodes_unfold. cbn [map fst]. f_equal.
  generalize (PRef n).
  induction IH as [| k kids Hk _ IHk]; intros p; simpl; [reflexivity |].
  rewrite map_app, Hk, IHk. reflexivity.
Qed.

Lemma withParent_parent (n : Node.t) :
  forall parent x p,
    In (x, p) (withParent n parent) ->
    (x = n /\ p = parent) \/
    exists y, In y (nodes n) /\ In x (Node.children y) /\ p = PRef y.
Proof.
  induction n as [n IH] using node_children_ind. intros parent x p.
  rewrite withParent_unfold, nodes_unfold. intros [Heq | Hin].
  - left. inversion Heq. split; reflexivity.
  - right. apply in_flat_map in Hin as (k & Hk & Hin).
    rewrite List.Forall_forall in IH.
    destruct (IH k Hk (PRef n) x p Hin) as [[-> ->] | (y & Hy & Hxy & ->)].
    + exists n. split; [left; reflexivity | split; [exact Hk | reflexivity]].
    + exists y. split; [| split; [exact Hxy | reflexivity]].
      right. apply in_flat_map. exists k. split; assumption.
Qed.

(** X4.  A traversal calls its callback once per node of the tree, the
    root first and then the subtrees of the children in order; the
    parent-tracking traversal does so with the holder of each node as
    its parent, and both stop at nothing else than the end of the
    tree.  An absent root is not visited at all. *)
Theorem traversal_is_preorder {S : Type} (n : Node.t) :
  (forall (visit : Node.t -> S -> S) s,
      traverse visit n s = fold_left (fun acc x => visit x acc) (nodes n) s)
  /\ (forall (visit : Node.t -> pval -> S -> option S) parent s,
        traverseP visit n parent s
        = fold_left
            (fun acc xp =>
               match acc with
               | Some s' => visit (fst xp) (snd xp) s'
               | None => None
               end)
            (withParent n parent) (Some s))
  /\ (forall parent, map fst (withParent n parent) = nodes n)
  /\ (forall parent x p,
        In (x, p) (withParent n parent) ->
        (x = n /\ p = parent) \/
        exists y, In y (nodes n) /\ In x (Node.children y) /\ p = PRef y)
  /\ nodes n = n :: flat_map nodes (Node.children n)
  /\ (forall (visit : Node.t -> S -> S) s,
        Server.traverseRoot visit None s = s).
Proof.
  split; [intros; apply traverse_nodes |].
  split; [intros; apply traverseP_withParent |].
  split; [apply withParent_nodes |].
  split; [apply withParent_parent |].
  split; [apply nodes_unfold | reflexivity].
Qed.

Lemma withChains_unfold (chainP : list Node.t) (n : Node.t) :
  withChains chainP n
  = (n :: chainP, n) :: flat_map (withChains (n :: chainP)) (Node.children n).
Proof. destruct n; reflexivity. Qed.

Lemma traverseA_chains {A : Type} (visitA : list Node.t -> Node.t -> A -> A)
    (n : Node.t) :
  forall chainP a,
    traverseA visitA chainP n a
    = fold_left (fun acc cx => visitA (fst cx) (snd cx) acc)
        (withChains chainP n) a.
Proof.
  induction n as [n IH] using node_children_ind. intros chainP a.
  rewrite traverseA_unfold, withChains_unfold. cbn [fold_left fst snd].
  generalize (visitA (n :: chainP) n a). generalize (n :: chainP).
  induction IH as [| k kids Hk _ IHk]; intros c acc; simpl; [reflexivity |].
  rewrite fold_left_app, Hk. apply IHk.
Qed.

Lemma traversePageA_chains {A : Type}
    (visitA : list Node.t -> Node.t -> A -> A) (page : Node.t) (a : A) :
  traversePageA visitA page a
  = fold_left (fun acc cx => visitA (fst cx) (snd cx) acc) (pageChains page) a.
Proof.
  unfold traversePageA, pageChains. cbn [fold_left fst snd].
  generalize (visitA [] page a).
  induction (Node.children page) as [| k kids IHk]; intros acc; simpl;
    [reflexivity |].
  rewrite fold_left_app, traverseA_chains. apply IHk.
Qed.

Lemma withChains_nodes (n : Node.t) :
  forall chainP, map snd (withChains chainP n) = nodes n.
Proof.
  induction n as [n IH] using node_children_ind. intros chainP.
  rewrite withChains_unfold, nodes_unfold. cbn [map snd]. f_equal.
  generalize (n :: chainP).
  induction IH as [| k kids Hk _ IHk]; intros c; simpl; [reflexivity |].
  rewrite map_app, Hk, IHk. reflexivity.
Qed.

Lemma pageChains_nodes (page : Node.t) :
  map snd (pageChains page) = nodes page.
Proof.
  unfold pageChains. rewrite nodes_unfold. cbn [map snd]. f_equal.
  induction (Node.children page) as [| k kids IHk]; simpl; [reflexivity |].
  rewrite map_app, withChains_nodes, IHk. reflexivity.
Qed.

(* ================================================================== *)
(** * Statistics of a view *)
(* ================================================================== *)

Lemma typeIs_exclusive (ty : option string) (a b : string) :
  a <> b -> typeIs ty a = true -> typeIs ty b = false.
Proof.
  intros Hne Ha. destruct ty as [t |]; [| discriminate].
  simpl in *. apply String.eqb_eq in Ha. subst t.
  apply String.eqb_neq, Hne.
Qed.

(** The loop over the fills of a node leaves the node counters alone,
    counts the visible images and counts the solid colours as the
    palette does. *)
Lemma countPaint_fold (n : Node.t) (ps : list (option Paint.t)) :
  forall s,
    let s' := fold_left (Views.countPaint n) ps s in
    Views.totalNodes s' = Views.totalNodes s /\
    Views.textCount s' = Views.textCount s /\
    Views.vectorCount s' = Views.vectorCount s /\
    Views.componentInstanceCount s' = Views.componentInstanceCount s /\
    Views.imageFillCount s'
    = (Views.imageFillCount s + List.length (List.filter isImageFill ps))%nat /\
    Views.localColorCount s'
    = fold_left
        (fun m paint =>
           match Analyze.paintKey n paint with
           | Some k => mapIncr m k
           | None => m
           end)
        ps (Views.localColorCount s).
Proof.
  induction ps as [| p ps IH]; intros s; cbn [fold_left List.filter].
  - cbn. repeat split; lia.
  - specialize (IH (Views.countPaint n s p)). cbn zeta in IH.
    destruct IH as (H1 & H2 & H3 & H4 & H5 & H6).
    rewrite H1, H2, H3, H4, H5, H6. clear H1 H2 H3 H4 H5 H6.
    unfold Views.countPaint, Analyze.paintKey, isImageFill.
    destruct p as [p' |]; [| cbn; repeat split; lia].
    destruct (visibleNotFalse (Some p')); cbn [negb andb];
      [| cbn; repeat split; lia].
    destruct (typeIs (Paint.type p') "IMAGE") eqn:Ei.
    + rewrite (typeIs_exclusive _ "IMAGE" "SOLID") by (discriminate || exact Ei).
      cbn. repeat split; lia.
    + destruct (typeIs (Paint.type p') "SOLID"); cbn [negb];
        [| cbn; repeat split; lia].
      destruct (Paint.color p'); cbn; repeat split; lia.
Qed.

Lemma countNode_fold (l : list Node.t) :
  forall s,
    let s' := fold_left (fun acc x => Views.countNode x acc) l s in
    Views.totalNodes s' = (Views.totalNodes s + List.length l)%nat /\
    Views.textCount s' = (Views.textCount s + countType "TEXT" l)%nat /\
    Views.vectorCount s' = (Views.vectorCount s + countType "VECTOR" l)%nat /\
    Views.componentInstanceCount s'
    = (Views.componentInstanceCount s + countType "INSTANCE" l)%nat /\
    Views.imageFillCount s' = (Views.imageFillCount s + imageFills l)%nat /\
    Views.localColorCount s'
    = fold_left (fun m x => Analyze.countFills x m) l (Views.localColorCount s).
Proof.
  induction l as [| n l IH]; intros s; cbn [fold_left].
  - unfold countType, imageFills. cbn. repeat split; lia.
  - specialize (IH (Views.countNode n s)). cbn zeta in IH.
    destruct IH as (H1 & H2 & H3 & H4 & H5 & H6).
    rewrite H1, H2, H3, H4, H5, H6. clear H1 H2 H3 H4 H5 H6.
    unfold Views.countNode.
    match goal with
    | |- context [fold_left (Views.countPaint n) ?ps ?s0] =>
        destruct (countPaint_fold n ps s0) as (P1 & P2 & P3 & P4 & P5 & P6)
    end.
    rewrite P1, P2, P3, P4, P5, P6. clear P1 P2 P3 P4 P5 P6.
    unfold countType, imageFills, Analyze.countFills.
    cbn [Views.totalNodes Views.textCount Views.vectorCount
         Views.componentInstanceCount Views.imageFillCount
         Views.localColorCount List.filter flat_map List.length].
    rewrite List.filter_app, List.length_app.
    destruct (typeIs (Node.type n) "TEXT");
      destruct (typeIs (Node.type n) "VECTOR");
      destruct (typeIs (Node.type n) "INSTANCE");
      cbn [List.length]; repeat split; lia.
Qed.

Lemma countType_exclusive (l : list Node.t) :
  (countType "TEXT" l + countType "VECTOR" l + countType "INSTANCE" l
   <= List.length l)%nat.
Proof.
  unfold countType. induction l as [| n l IH]; [simpl; lia |].
  cbn [List.filter List.length].
  destruct (typeIs (Node.type n) "TEXT") eqn:Et.
  - rewrite (typeIs_exclusive _ "TEXT" "VECTOR") by (discriminate || exact Et).
    rewrite (typeIs_exclusive _ "TEXT" "INSTANCE") by (discriminate || exact Et).
    cbn [List.length]. lia.
  - destruct (typeIs (Node.type n) "VECTOR") eqn:Ev.
    + rewrite (typeIs_exclusive _ "VECTOR" "INSTANCE")
        by (discriminate || exact Ev).
      cbn [List.length]. lia.
    + destruct (typeIs (Node.type n) "INSTANCE"); cbn [List.length]; lia.
Qed.

(** X5.  The statistics of a view count its subtree: the total is the
    number of nodes (the view included, so never 0), the text, vector
    and instance counters are the numbers of nodes of these types and
    together never exceed the total, the image counter is the number of
    visible IMAGE fills, the colour map is the one the palette
    traversal builds on the subtree, and the local palette has at most
    8 entries by descending count. *)
Theorem view_statistics (view : Node.t) :
  let r := Views.analyzeView view in
  let s := Views.viewStats r in
  Views.totalNodes s = List.length (nodes view)
  /\ (0 < Views.totalNodes s)%nat
  /\ Views.textCount s = countType "TEXT" (nodes view)
  /\ Views.vectorCount s = countType "VECTOR" (nodes view)
  /\ Views.componentInstanceCount s = countType "INSTANCE" (nodes view)
  /\ (Views.textCount s + Views.vectorCount s + Views.componentInstanceCount s
      <= Views.totalNodes s)%nat
  /\ Views.imageFillCount s = imageFills (nodes view)
  /\ Views.localColorCount s = traverse Analyze.countFills view []
  /\ (List.length (Views.localPalette r) <= 8)%nat
  /\ StronglySorted spec_paletteOrder (Views.localPalette r).
Proof.
  intros r s. subst r s. unfold Views.analyzeView.
  cbn [Views.viewStats Views.localPalette].
  rewrite !traverse_nodes.
  destruct (countNode_fold (nodes view) Views.emptyStats)
    as (H1 & H2 & H3 & H4 & H5 & H6).
  cbn zeta in *. cbn [Views.emptyStats Views.totalNodes Views.textCount
    Views.vectorCount Views.componentInstanceCount Views.imageFillCount
    Views.localColorCount] in *.
  rewrite H1, H2, H3, H4, H5, H6.
  pose proof (countType_exclusive (nodes view)) as Hex.
  assert (Hpos : (0 < List.length (nodes view))%nat)
    by (rewrite nodes_unfold; simpl; lia).
  repeat split; try lia.
  - apply firstn_le_length.
  - apply StronglySorted_firstn, palette_sorted.
Qed.

(* ================================================================== *)
(** * Inventory and totals of the usage report *)
(* ================================================================== *)

Lemma countsOf_incr (l : list Node.t) :
  forall m,
    countsOf l m = fold_left mapIncr (flat_map (fun n => optList (cidOf n)) l) m.
Proof.
  unfold countsOf. induction l as [| n l IH]; intros m; simpl; [reflexivity |].
  rewrite fold_left_app, IH, countInstance_cidOf.
  destruct (cidOf n); reflexivity.
Qed.

Lemma counted_length (l : list Node.t) :
  List.length (flat_map (fun n => optList (cidOf n)) l)
  = List.length (List.filter isCounted l).
Proof.
  induction l as [| n l IH]; simpl; [reflexivity |].
  rewrite List.length_app, IH. unfold isCounted.
  destruct (cidOf n); reflexivity.
Qed.

Lemma filter_flat_map_length {A B : Type} (p : B -> bool) (f : A -> list B)
    (l : list A) :
  List.length (List.filter p (flat_map f l))
  = list_sum (map (fun x => List.length (List.filter p (f x))) l).
Proof.
  induction l as [| x l IH]; simpl; [reflexivity |].
  rewrite List.filter_app, List.length_app, IH. reflexivity.
Qed.

Lemma list_sum_perm (l l' : list nat) :
  Permutation l l' -> list_sum l = list_sum l'.
Proof. induction 1; simpl; lia. Qed.

(** X6.  The inventory lists the components of the dictionary, one per
    entry and in its order, each with the number of INSTANCE nodes of
    the document that carry its id (0 when there is none, and 0 for
    every component when the document is absent).  When the root is not
    itself an instance, that number is the sum over the pages of the
    instances of the id under each page. *)
Theorem inventory_instance_counts {Links : Type}
    (componentsDict : list (string * Server.componentMeta Links))
    (document : option Node.t) :
  let inv := Server.inventoryComponents componentsDict document in
  map Server.nodeId inv = map fst componentsDict
  /\ (forall c, In c inv ->
        Server.instanceCount c = instancesIn (Server.nodeId c) document)
  /\ (forall c d, In c inv -> document = Some d ->
        typeIs (Node.type d) "INSTANCE" = false ->
        Server.instanceCount c
        = list_sum (map (instancesOf (Server.nodeId c)) (Node.children d))).
Proof.
  intros inv. subst inv. unfold Server.inventoryComponents.
  assert (Hcount : forall cid,
             default 0%nat
               (mapGet (Server.instanceCountByComponentId document) cid)
             = instancesIn cid document).
  { intros cid. unfold Server.instanceCountByComponentId, Server.traverseRoot.
    destruct document as [d |]; [| reflexivity].
    rewrite traverse_nodes. fold (countsOf (nodes d) []).
    rewrite countsOf_get. reflexivity. }
  split; [rewrite map_map; reflexivity |].
  split.
  - intros c Hc. apply in_map_iff in Hc as (e & <- & _).
    cbn [Server.instanceCount Server.nodeId]. apply Hcount.
  - intros c d Hc -> Hroot. apply in_map_iff in Hc as (e & <- & _).
    cbn [Server.instanceCount Server.nodeId]. rewrite Hcount.
    unfold instancesIn, instancesOf at 1. rewrite nodes_unfold.
    cbn [List.filter]. unfold isInstanceOf at 1. rewrite Hroot. cbn [andb].
    apply filter_flat_map_length.
Qed.

(** X7.  The counts of the usage report of a page add up to the number
    of INSTANCE nodes under the page that carry a [componentId], which
    is at most the number of INSTANCE nodes. *)
Theorem usage_counts_total `{Collation} (dict : gmap string Meta.t)
    (page : Node.t) :
  list_sum
    (map AnalyzeComponents.count
       (AnalyzeComponents.componentsUsed (AnalyzeComponents.usagePage dict page)))
  = List.length (List.filter isCounted (nodes page))
  /\ (List.length (List.filter isCounted (nodes page))
      <= countType "INSTANCE" (nodes page))%nat.
Proof.
  split.
  - unfold AnalyzeComponents.usagePage. cbn [AnalyzeComponents.componentsUsed].
    rewrite traverse_nodes. fold (countsOf (nodes page) []).
    rewrite (list_sum_perm _ _
               (Permutation_map AnalyzeComponents.count
                  (sortBy_perm AnalyzeComponents.compareUsed _))).
    rewrite map_map. cbn [AnalyzeComponents.entry AnalyzeComponents.count].
    rewrite countsOf_incr.
    transitivity
      (totalCount
         (fold_left mapIncr
            (flat_map (fun n => optList (cidOf n)) (nodes page)) [])).
    + generalize (fold_left mapIncr
                    (flat_map (fun n => optList (cidOf n)) (nodes page)) []).
      intros m. induction m as [| e m IH]; simpl; [reflexivity |].
      rewrite IH. reflexivity.
    + rewrite incr_total, counted_length. reflexivity.
  - unfold countType. induction (nodes page) as [| n l IH]; [simpl; lia |].
    cbn [List.filter]. unfold isCounted at 1, cidOf.
    destruct (typeIs (Node.type n) "INSTANCE"); [| exact IH].
    destruct (Node.componentId n); cbn [List.length]; lia.
Qed.

(* ================================================================== *)
(** * Cards and categories across the scripts *)
(* ================================================================== *)

Lemma strOr_default (s : option string) :
  strOr s "" = default "" s.
Proof. destruct s as [[| c t] |]; reflexivity. Qed.

Lemma existsb_impl {A : Type} (p q : A -> bool) (l : list A) :
  (forall x, p x = true -> q x = true) ->
  existsb p l = true -> existsb q l = true.
Proof.
  intros Hpq. rewrite !existsb_exists. intros (x & Hx & Hp). eauto.
Qed.

(** X8.  Every node that the UI classifier calls a card is a card for
    the card inspection as well. *)
Theorem ui_card_is_inspected_card (n : Node.t) :
  UiComponents.classifyStructuralUi n = Some UiComponents.card ->
  InspectCards.classifyAsCard n = true.
Proof.
  unfold UiComponents.classifyStructuralUi, InspectCards.classifyAsCard.
  destruct (UiComponents.structuralType (Node.type n)); cbn [negb];
    [| discriminate].
  rewrite <- strOr_default.
  destruct (_ || _); [discriminate |].
  destruct (_ || _ || _); [discriminate |].
  destruct (includes (toLowerCase (strOr (Node.name n) "")) "card");
    [reflexivity |].
  destruct (_ && _ && numberAnd (resolveHeight n) _); [discriminate |].
  destruct (_ && _ && _ && _); [discriminate |].
  destruct (UiComponents.hasAnySolidFill n) eqn:Hfill; cbn [andb];
    [| discriminate].
  assert (Hsolid :
            existsb
              (fun p : option Paint.t =>
                 match p with
                 | Some p' => typeIs (Paint.type p') "SOLID" && visibleNotFalse p
                 | None => false
                 end)
              (Node.fills n) = true).
  { revert Hfill. unfold UiComponents.hasAnySolidFill. apply existsb_impl.
    intros [p' |] Hp; [| discriminate].
    apply andb_true_iff in Hp as [Hp _]. exact Hp. }
  rewrite Hsolid.
  destruct (resolveWidth n) as [| w |]; cbn [numberAnd]; try discriminate.
  destruct (resolveHeight n) as [| h |]; cbn [numberAnd]; try discriminate.
  destruct (Qle_bool 200 w), (Qle_bool 120 h),
    (2 <=? List.length (Node.children n))%nat; cbn; congruence.
Qed.

Lemma ui_card_is_inspected_card_witness :
  InspectCards.classifyAsCard sampleCard = true.
Proof. apply (ui_card_is_inspected_card sampleCard). reflexivity. Defined.

Lemma includes_uiHint (nm k : string) :
  In k UiComponents.uiHints ->
  includes (toLowerCase nm) k = true ->
  UiComponents.isUiComponentName nm = true.
Proof.
  intros Hk Hin. unfold UiComponents.isUiComponentName.
  apply existsb_exists. exists k. split; assumption.
Qed.

(** X9.  The two name tests order their keywords differently.  For a
    name that holds [card] and [input] but neither [button] nor [btn],
    an instance classified by this name is a card, while a node of a
    structural type that bears it is an input. *)
Theorem category_priority_differs (nm : string) (n : Node.t) :
  (exists t, In t spec_structuralTypes /\ Node.type n = Some t) ->
  Node.name n = Some nm ->
  includes (toLowerCase nm) "card" = true ->
  includes (toLowerCase nm) "input" = true ->
  includes (toLowerCase nm) "button" = false ->
  includes (toLowerCase nm) "btn" = false ->
  UiComponents.nameCategory nm = Some UiComponents.card /\
  UiComponents.classifyStructuralUi n = Some UiComponents.input.
Proof.
  intros Hty Hname Hcard Hinput Hbutton Hbtn. split.
  - unfold UiComponents.nameCategory.
    rewrite (includes_uiHint nm "card") by (simpl; tauto || exact Hcard).
    rewrite Hbutton, Hbtn, Hcard. reflexivity.
  - unfold UiComponents.classifyStructuralUi.
    rewrite (structuralType_In _ Hty). cbn [negb].
    assert (Hs : strOr (Node.name n) "" = nm).
    { rewrite Hname. apply strOr_some. intros ->. discriminate Hcard. }
    rewrite Hs, Hbutton, Hbtn, Hinput. reflexivity.
Qed.

Lemma category_priority_differs_witness :
  UiComponents.nameCategory "Input Card" = Some UiComponents.card /\
  UiComponents.classifyStructuralUi
    (sampleNode 4 "FRAME" (Some "Input Card") [] None [] None)
  = Some UiComponents.input.
Proof.
  apply (category_priority_differs "Input Card"
           (sampleNode 4 "FRAME" (Some "Input Card") [] None [] None)).
  - exists "FRAME". split; [simpl; tauto | reflexivity].
  - reflexivity.
  - reflexivity.
  - reflexivity.
  - reflexivity.
  - reflexivity.
Defined.

(* ================================================================== *)
(** * Counting children *)
(* ================================================================== *)

Lemma iconInstance_step (ch : Node.t) :
  typeIs (Node.type ch) "INSTANCE" &&
  match Node.name ch with
  | Some s => UiComponents.isIconComponentName s
  | None => false
  end = iconInstance ch.
Proof.
  unfold iconInstance, iconNamed. f_equal.
  destruct (Node.name ch) as [[| c t] |]; reflexivity.
Qed.

Lemma childIconLikeCount_fold (kids : list Node.t) :
  forall count,
    fold_left
      (fun count n =>
         let name := strOr (Node.name n) "" in
         let count1 :=
           if UiComponents.isIconComponentName name
           then (count + 1)%nat else count in
         if typeIs (Node.type n) "INSTANCE" &&
            match Node.name n with
            | Some s => UiComponents.isIconComponentName s
            | None => false
            end
         then (count1 + 1)%nat else count1)
      kids count
    = (count + List.length (List.filter iconNamed kids)
       + List.length (List.filter iconInstance kids))%nat.
Proof.
  induction kids as [| ch kids IH]; intros count; cbn [fold_left List.filter];
    [simpl; lia |].
  rewrite IH, iconInstance_step. fold (iconNamed ch).
  destruct (iconNamed ch), (iconInstance ch); cbn [List.length]; lia.
Qed.

Lemma childTextCount_fold (kids : list Node.t) :
  forall count,
    fold_left
      (fun count ch =>
         if typeIs (Node.type ch) "TEXT" then (count + 1)%nat else count)
      kids count
    = (count + countType "TEXT" kids)%nat.
Proof.
  unfold countType.
  induction kids as [| ch kids IH]; intros count; cbn [fold_left List.filter];
    [simpl; lia |].
  rewrite IH. destruct (typeIs (Node.type ch) "TEXT"); cbn [List.length]; lia.
Qed.

Lemma filter_length_le {A : Type} (p : A -> bool) (l : list A) :
  (List.length (List.filter p l) <= List.length l)%nat.
Proof.
  induction l as [| x l IH]; simpl; [lia |].
  destruct (p x); simpl; lia.
Qed.

Lemma filter_length_impl {A : Type} (p q : A -> bool) (l : list A) :
  (forall x, p x = true -> q x = true) ->
  (List.length (List.filter p l) <= List.length (List.filter q l))%nat.
Proof.
  intros Hpq. induction l as [| x l IH]; simpl; [lia |].
  destruct (p x) eqn:Ep.
  - rewrite (Hpq x Ep). simpl. lia.
  - destruct (q x); simpl; lia.
Qed.

(** X10.  The icon-like count of a node is the number of its children
    with an icon name plus the number of its INSTANCE children with an
    icon name: between the number of icon-named children and twice that
    number.  A count of at most 2, as the input rule asks, allows at
    most one icon instance.  The text count is the number of TEXT
    children. *)
Theorem child_counts (n : Node.t) :
  let kids := Node.children n in
  let named := List.length (List.filter iconNamed kids) in
  let instances := List.length (List.filter iconInstance kids) in
  UiComponents.childIconLikeCount n = (named + instances)%nat
  /\ (instances <= named)%nat
  /\ (named <= List.length kids)%nat
  /\ (UiComponents.childIconLikeCount n <= 2 * List.length kids)%nat
  /\ ((UiComponents.childIconLikeCount n <= 2)%nat -> (instances <= 1)%nat)
  /\ UiComponents.childTextCount n = countType "TEXT" kids
  /\ (UiComponents.childTextCount n <= List.length kids)%nat.
Proof.
  intros kids named instances.
  assert (Hcount : UiComponents.childIconLikeCount n = (named + instances)%nat).
  { unfold UiComponents.childIconLikeCount.
    rewrite childIconLikeCount_fold. reflexivity. }
  assert (Hinst : (instances <= named)%nat).
  { apply filter_length_impl. intros x Hx.
    apply andb_true_iff in Hx as [_ Hx]. exact Hx. }
  assert (Hnamed : (named <= List.length kids)%nat)
    by apply filter_length_le.
  assert (Htext : UiComponents.childTextCount n = countType "TEXT" kids).
  { unfold UiComponents.childTextCount. rewrite childTextCount_fold.
    reflexivity. }
  pose proof (filter_length_le (fun c => typeIs (Node.type c) "TEXT") kids)
    as Htl.
  unfold countType in Htext.
  repeat split; try lia. exact Htext.
Qed.

Lemma countChild_fills (ps : list (option Paint.t)) :
  forall c,
    fold_left
      (fun c3 cp =>
         match cp with
         | Some cp' =>
             if typeIs (Paint.type cp') "IMAGE" && visibleNotFalse cp then
               InspectCards.mkContent (InspectCards.textCount c3)
                 (InspectCards.textSamples c3)
                 (InspectCards.imageFillCount c3 + 1)
                 (InspectCards.iconCount c3) (InspectCards.instanceCount c3)
             else c3
         | None => c3
         end)
      ps c
    = InspectCards.mkContent (InspectCards.textCount c)
        (InspectCards.textSamples c)
        (InspectCards.imageFillCount c
         + List.length (List.filter isImageFill ps))
        (InspectCards.iconCount c) (InspectCards.instanceCount c).
Proof.
  induction ps as [| p ps IH]; intros c; cbn [fold_left List.filter].
  - destruct c. cbn. f_equal. lia.
  - rewrite IH. unfold isImageFill.
    destruct p as [p' |]; [| reflexivity].
    rewrite (andb_comm (visibleNotFalse (Some p'))).
    destruct (typeIs (Paint.type p') "IMAGE" && visibleNotFalse (Some p'));
      cbn; f_equal; lia.
Qed.

Lemma countChild_step (c : InspectCards.content) (ch : Node.t) :
  let c' := InspectCards.countChild c ch in
  InspectCards.textCount c'
  = (InspectCards.textCount c
     + List.length (List.filter isTextWithCharacters [ch]))%nat /\
  InspectCards.instanceCount c'
  = (InspectCards.instanceCount c + countType "INSTANCE" [ch])%nat /\
  InspectCards.iconCount c'
  = (InspectCards.iconCount c
     + List.length (List.filter iconInstance [ch]))%nat /\
  InspectCards.imageFillCount c'
  = (InspectCards.imageFillCount c + imageFills [ch])%nat /\
  (List.length (InspectCards.textSamples c)
   = Nat.min 3 (InspectCards.textCount c) ->
   List.length (InspectCards.textSamples c')
   = Nat.min 3 (InspectCards.textCount c')).
Proof.
  cbn zeta. unfold InspectCards.countChild. rewrite countChild_fills.
  unfold countType, imageFills, isTextWithCharacters, iconInstance,
    iconNamed, InspectCards.isIconName.
  rewrite <- strOr_default.
  fold (UiComponents.isIconComponentName (strOr (Node.name ch) "")).
  cbn [List.filter flat_map]. rewrite app_nil_r.
  destruct (typeIs (Node.type ch) "TEXT") eqn:Et.
  - rewrite (typeIs_exclusive _ "TEXT" "INSTANCE")
      by (discriminate || exact Et).
    destruct (Node.characters ch);
      cbn [InspectCards.textCount InspectCards.textSamples
           InspectCards.imageFillCount InspectCards.iconCount
           InspectCards.instanceCount List.length andb];
      (repeat split; try lia).
    intros Hlen.
    destruct (Nat.ltb_spec (List.length (InspectCards.textSamples c)) 3);
      try rewrite List.length_app; cbn [List.length]; lia.
  - destruct (typeIs (Node.type ch) "INSTANCE");
      destruct (UiComponents.isIconComponentName (strOr (Node.name ch) ""));
      cbn [InspectCards.textCount InspectCards.textSamples
           InspectCards.imageFillCount InspectCards.iconCount
           InspectCards.instanceCount List.length andb];
      repeat split; lia.
Qed.

Lemma countChild_fold (kids : list Node.t) :
  forall c,
    let c' := fold_left InspectCards.countChild kids c in
    InspectCards.textCount c'
    = (InspectCards.textCount c
       + List.length (List.filter isTextWithCharacters kids))%nat /\
    InspectCards.instanceCount c'
    = (InspectCards.instanceCount c + countType "INSTANCE" kids)%nat /\
    InspectCards.iconCount c'
    = (InspectCards.iconCount c
       + List.length (List.filter iconInstance kids))%nat /\
    InspectCards.imageFillCount c'
    = (InspectCards.imageFillCount c + imageFills kids)%nat /\
    (List.length (InspectCards.textSamples c)
     = Nat.min 3 (InspectCards.textCount c) ->
     List.length (InspectCards.textSamples c')
     = Nat.min 3 (InspectCards.textCount c')).
Proof.
  induction kids as [| ch kids IH]; intros c; cbn [fold_left].
  - unfold countType, imageFills. cbn. repeat split; try lia; auto.
  - destruct (countChild_step c ch) as (S1 & S2 & S3 & S4 & S5).
    specialize (IH (InspectCards.countChild c ch)).
    cbn zeta in *. revert S1 S2 S3 S4 S5 IH.
    generalize (InspectCards.countChild c ch). intros c1 S1 S2 S3 S4 S5 IH.
    destruct IH as (H1 & H2 & H3 & H4 & H5).
    rewrite H1, H2, H3, H4, S1, S2, S3, S4.
    change (ch :: kids) with ([ch] ++ kids).
    unfold countType, imageFills in *.
    rewrite flat_map_app, !List.filter_app, !List.length_app.
    repeat split; try lia; auto.
Qed.

(** X11.  The content summary of a card counts its immediate children:
    the instances, among them the instances with an icon name (each
    once), the TEXT children that carry characters, and the visible
    IMAGE fills of the children.  Texts and instances together never
    exceed the children, and the samples are the first texts, three at
    most. *)
Theorem card_content_counts (n : Node.t) :
  let kids := Node.children n in
  let c := InspectCards.contentOf (InspectCards.extractCardInfo n) in
  InspectCards.instanceCount c = countType "INSTANCE" kids
  /\ InspectCards.iconCount c = List.length (List.filter iconInstance kids)
  /\ (InspectCards.iconCount c <= InspectCards.instanceCount c)%nat
  /\ InspectCards.textCount c
     = List.length (List.filter isTextWithCharacters kids)
  /\ (InspectCards.textCount c + InspectCards.instanceCount c
      <= List.length kids)%nat
  /\ List.length (InspectCards.textSamples c)
     = Nat.min 3 (InspectCards.textCount c)
  /\ InspectCards.imageFillCount c = imageFills kids.
Proof.
  intros kids c. subst c. unfold InspectCards.extractCardInfo.
  cbn [InspectCards.contentOf].
  destruct (countChild_fold kids (InspectCards.mkContent 0 [] 0 0 0))
    as (H1 & H2 & H3 & H4 & H5).
  cbn zeta in *. cbn [InspectCards.textCount InspectCards.instanceCount
    InspectCards.iconCount InspectCards.imageFillCount
    InspectCards.textSamples] in *.
  fold kids. rewrite H1, H2, H3, H4 in *.
  specialize (H5 eq_refl).
  assert (Hicon : (List.length (List.filter iconInstance kids)
                   <= countType "INSTANCE" kids)%nat).
  { apply filter_length_impl. intros x Hx.
    apply andb_true_iff in Hx as [Hx _]. exact Hx. }
  assert (Hexcl : (List.length (List.filter isTextWithCharacters kids)
                   + countType "INSTANCE" kids <= List.length kids)%nat).
  { pose proof (countType_exclusive kids) as Hex.
    assert (Ht : (List.length (List.filter isTextWithCharacters kids)
                  <= countType "TEXT" kids)%nat).
    { apply filter_length_impl. intros x Hx.
      apply andb_true_iff in Hx as [Hx _]. exact Hx. }
    lia. }
  repeat split; try lia; exact H5.
Qed.

(* ================================================================== *)
(** * The reports of the linking scripts *)
(* ================================================================== *)

Lemma fold_left_append {A B : Type} (g : A -> list B) (l : list A) :
  forall acc,
    fold_left (fun acc x => acc ++ g x) l acc = acc ++ flat_map g l.
Proof.
  induction l as [| x l IH]; intros acc; simpl; [symmetry; apply app_nil_r |].
  rewrite IH, app_assoc. reflexivity.
Qed.

Lemma fold_left_pointwise {A B : Type} (f g : A -> B -> A) (l : list B) :
  (forall a x, f a x = g a x) ->
  forall a, fold_left f l a = fold_left g l a.
Proof.
  intros Hfg. induction l as [| x l IH]; intros a; simpl; [reflexivity |].
  rewrite Hfg. apply IH.
Qed.

Lemma isButtonName_nonempty (nm : string) :
  InspectButtons.isButtonName nm = true -> nm <> "".
Proof. intros H ->. discriminate H. Qed.

Lemma buttonsA_step (pageName : string) (chain : list Node.t) (n : Node.t)
    (results : list InspectButtons.found) :
  buttonsA pageName chain n results
  = results ++ buttonFound pageName (chain, n).
Proof.
  unfold buttonsA, buttonFound, buttonNamed, InspectButtons.visitRest.
  cbn [fst snd].
  destruct (strOr (Node.name n) "") as [| c t] eqn:E.
  - cbn. symmetry. apply app_nil_r.
  - destruct (InspectButtons.isButtonName (String c t)); cbn;
      [reflexivity | symmetry; apply app_nil_r].
Qed.

Lemma buttons_pages_exact (fuel : nat) (pages : list Node.t) :
  List.NoDup (flat_map oids pages) ->
  Forall (fun pg => (height pg <= fuel)%nat) pages ->
  forall h acc,
    fold_left
      (fun acc pg =>
         match acc with
         | Some st => InspectButtons.inspectPage fuel pg st
         | None => None
         end)
      pages (Some (h, acc))
    = Some (fold_left (fun hh pg => linkAll pg PUndef hh) pages h,
            acc ++
            flat_map
              (fun pg =>
                 flat_map (buttonFound (InspectButtons.pageNameOf pg))
                   (pageChains pg))
              pages).
Proof.
  induction pages as [| pg pages IH]; intros Hnd Hdeep h acc; simpl.
  - rewrite app_nil_r. reflexivity.
  - inversion Hdeep as [| ? ? Hpg Hrest]; subst.
    rewrite buttonsPage_linked;
      [| apply (NoDup_flat_map_each oids (pg :: pages) Hnd); left; reflexivity
       | exact Hpg].
    rewrite IH; [| apply (List.NoDup_app_remove_l _ _ Hnd) | exact Hrest].
    rewrite traversePageA_chains.
    rewrite (fold_left_pointwise
               (fun acc cx => buttonsA (InspectButtons.pageNameOf pg)
                                (fst cx) (snd cx) acc)
               (fun acc cx => acc ++ buttonFound (InspectButtons.pageNameOf pg) cx)).
    + rewrite fold_left_append, <- app_assoc. reflexivity.
    + intros res [c x]. apply buttonsA_step.
Qed.

(** X12.  The button inspection returns, and its results are the nodes
    with a button-like name, page after page and in the order of the
    traversal, each once, with the name of its page, its path and its
    attributes. *)
Theorem button_inspection_results (fuel : nat) (file : File.t) (h : heap) :
  distinctObjects file ->
  deepEnough fuel file ->
  exists h' results,
    InspectButtons.main fuel file h = Some (h', results)
    /\ results
       = flat_map
           (fun pg =>
              flat_map (buttonFound (InspectButtons.pageNameOf pg))
                (pageChains pg))
           (pagesNodes file)
    /\ map InspectButtons.infoOf results
       = map InspectButtons.extractButtonInfo
           (List.filter buttonNamed (flat_map nodes (pagesNodes file)))
    /\ (forall r, In r results ->
          InspectButtons.name (InspectButtons.infoOf r) <> "").
Proof.
  intros Hnd Hdeep. unfold InspectButtons.main.
  rewrite (buttons_pages_exact fuel _ Hnd Hdeep).
  eexists. eexists. split; [reflexivity |]. split; [reflexivity |].
  assert (Hinfo : forall pg,
             map InspectButtons.infoOf
               (flat_map (buttonFound (InspectButtons.pageNameOf pg))
                  (pageChains pg))
             = map InspectButtons.extractButtonInfo
                 (List.filter buttonNamed (nodes pg))).
  { intros pg. rewrite <- pageChains_nodes.
    induction (pageChains pg) as [| [c x] l IH]; [reflexivity |].
    cbn [flat_map map List.filter snd]. rewrite map_app, IH.
    unfold buttonFound. cbn [snd]. destruct (buttonNamed x); reflexivity. }
  cbn [app]. split.
  - induction (pagesNodes file) as [| pg pages IH]; [reflexivity |].
    cbn [flat_map]. rewrite map_app, List.filter_app, map_app, Hinfo, IH.
    reflexivity.
  - intros r Hr. apply in_flat_map in Hr as (pg & _ & Hr).
    apply in_flat_map in Hr as ([c x] & _ & Hr).
    unfold buttonFound in Hr. cbn [snd fst] in Hr.
    destruct (buttonNamed x) eqn:Eb; [| destruct Hr].
    destruct Hr as [<- | []]. cbn.
    pose proof (isButtonName_nonempty _ Eb) as Hne.
    rewrite (strOr_keep _ _ Hne). exact Hne.
Qed.

Lemma button_inspection_results_witness :
  exists h' results,
    InspectButtons.main 5 sampleAuthFile ∅ = Some (h', results) /\
    results
    = flat_map
        (fun pg =>
           flat_map (buttonFound (InspectButtons.pageNameOf pg))
             (pageChains pg))
        (pagesNodes sampleAuthFile).
Proof.
  destruct (button_inspection_results 5 sampleAuthFile ∅
              sampleAuthFile_distinct sampleAuthFile_deep)
    as (h' & results & H1 & H2 & _).
  exists h', results. split; assumption.
Defined.

Lemma prefix_append (s t : string) : String.prefix s (s +:+ t) = true.
Proof.
  induction s as [| c s IH]; [destruct t; reflexivity |].
  simpl. destruct (ascii_dec c c); [exact IH | congruence].
Qed.

Lemma append_empty (s : string) : s +:+ "" = s.
Proof.
  induction s as [| c s IH]; [reflexivity |].
  change (String c (s +:+ "") = String c s). now rewrite IH.
Qed.

Lemma join_prefix (sep p : string) (rest : list string) :
  String.prefix p (join sep (p :: rest)) = true.
Proof.
  destruct rest as [| q rest]; cbn [join].
  - rewrite <- (append_empty p) at 2. apply prefix_append.
  - apply prefix_append.
Qed.

Lemma pathOf_prefix (pageName : string) (chain : list Node.t) :
  String.prefix pageName (pathOf pageName chain) = true.
Proof. unfold pathOf. rewrite rev_unit. apply join_prefix. Qed.

(** One visit of the classification adds nothing or one item, named and
    on the path of the node. *)
Lemma classifyA_step (dict : gmap string Meta.t) (pageName : string)
    (chain : list Node.t) (n : Node.t) (u : UiComponents.ui) :
  classifyA dict pageName chain n u = u \/
  exists k nm,
    nm <> "" /\
    classifyA dict pageName chain n u
    = UiComponents.push k (UiComponents.mkItem nm (pathOf pageName chain)) u.
Proof.
  assert (Hs : forall v,
             default v
               (UiComponents.visitStructural
                  (fun _ => Some (pathOf pageName chain)) n v) = v \/
             exists k nm,
               nm <> "" /\
               default v
                 (UiComponents.visitStructural
                    (fun _ => Some (pathOf pageName chain)) n v)
               = UiComponents.push k
                   (UiComponents.mkItem nm (pathOf pageName chain)) v).
  { intros v. unfold UiComponents.visitStructural.
    destruct (UiComponents.classifyStructuralUi n) as [k |]; [| left; reflexivity].
    right. exists k, (strOr (Node.name n) (UiComponents.kindName k)).
    split; [| reflexivity].
    destruct (Node.name n) as [[| c t] |]; destruct k; discriminate. }
  unfold classifyA, UiComponents.visitRest.
  destruct (if typeIs (Node.type n) "INSTANCE" then Node.componentId n else None)
    as [cid |]; [| apply Hs].
  destruct (UiComponents.resolvedName dict cid n) as [| c t] eqn:Er;
    [left; reflexivity |].
  destruct (UiComponents.isIconComponentName _); [left; reflexivity |].
  destruct (UiComponents.isUiComponentName _); [| apply Hs].
  destruct (UiComponents.nameCategory _) as [k |]; [| left; reflexivity].
  right. exists k, (String c t). split; [discriminate | reflexivity].
Qed.

Lemma allItems_push (k : UiComponents.kind) (it : UiComponents.item)
    (u : UiComponents.ui) :
  List.length (allItems (UiComponents.push k it u))
  = S (List.length (allItems u)) /\
  forall x, In x (allItems (UiComponents.push k it u)) ->
            x = it \/ In x (allItems u).
Proof.
  unfold allItems. split.
  - destruct k; cbn; rewrite !List.length_app; cbn; lia.
  - intros x. destruct k; cbn; rewrite !in_app_iff; cbn;
      intuition (subst; auto).
Qed.

Lemma classify_fold (dict : gmap string Meta.t) (pageName : string)
    (l : list (list Node.t * Node.t)) :
  forall u,
    let u' :=
      fold_left (fun acc cx => classifyA dict pageName (fst cx) (snd cx) acc)
        l u in
    (List.length (allItems u') <= List.length (allItems u) + List.length l)%nat
    /\ (forall x, In x (allItems u') ->
          In x (allItems u) \/
          (UiComponents.name x <> "" /\
           String.prefix pageName (UiComponents.path x) = true)).
Proof.
  induction l as [| [c n] l IH]; intros u; cbn [fold_left fst snd].
  - cbn. split; [lia | tauto].
  - specialize (IH (classifyA dict pageName c n u)). cbn zeta in *.
    destruct IH as [Hlen Hitems].
    destruct (classifyA_step dict pageName c n u) as [E | (k & nm & Hne & E)];
      rewrite E in *.
    + split; [cbn [List.length]; lia | exact Hitems].
    + destruct (allItems_push k (UiComponents.mkItem nm (pathOf pageName c)) u)
        as [Hp1 Hp2].
      split; [cbn [List.length]; lia |].
      intros x Hx. destruct (Hitems x Hx) as [Hin | Hok]; [| right; exact Hok].
      destruct (Hp2 x Hin) as [-> | Hin']; [| left; exact Hin'].
      right. cbn. split; [exact Hne | apply pathOf_prefix].
Qed.

(** X13.  The classification returns one report per page, in order and
    under the name of the page.  A page report holds at most one item
    per node of the page, the three categories taken together; every
    item has a name that is not empty and a path that starts with the
    name of the page. *)
Theorem classification_report_shape (fuel : nat) (file : File.t) (h : heap) :
  distinctObjects file ->
  deepEnough fuel file ->
  exists h' reports,
    UiComponents.main fuel file h = Some (h', reports)
    /\ map UiComponents.pageName reports
       = map (fun pg => strOr (Node.name pg) "(isimsiz sayfa)")
           (pagesNodes file)
    /\ Forall2
         (fun pg r =>
            (List.length (allItems (UiComponents.pageUi r))
             <= List.length (nodes pg))%nat /\
            forall x, In x (allItems (UiComponents.pageUi r)) ->
              UiComponents.name x <> "" /\
              String.prefix (UiComponents.pageName r) (UiComponents.path x)
              = true)
         (pagesNodes file) reports.
Proof.
  intros Hnd Hdeep.
  rewrite (classify_main_linked fuel file h Hnd Hdeep).
  eexists. eexists. split; [reflexivity |]. split.
  - rewrite map_map. reflexivity.
  - induction (pagesNodes file) as [| pg pages IH]; constructor; [| exact IH].
    unfold classifyPageA. cbn [UiComponents.pageUi UiComponents.pageName].
    rewrite traversePageA_chains.
    destruct (classify_fold (File.components file)
                (strOr (Node.name pg) "(isimsiz sayfa)")
                (pageChains pg) UiComponents.emptyUi) as [Hlen Hitems].
    cbn zeta in *. split.
    + rewrite <- pageChains_nodes, List.length_map. cbn in Hlen. exact Hlen.
    + intros x Hx. destruct (Hitems x Hx) as [[] | Hok]. exact Hok.
Qed.

Lemma classification_report_shape_witness :
  exists h' reports,
    UiComponents.main 5 sampleAuthFile ∅ = Some (h', reports) /\
    map UiComponents.pageName reports
    = map (fun pg => strOr (Node.name pg) "(isimsiz sayfa)")
        (pagesNodes sampleAuthFile).
Proof.
  destruct (classification_report_shape 5 sampleAuthFile ∅
              sampleAuthFile_distinct sampleAuthFile_deep)
    as (h' & reports & H1 & H2 & _).
  exists h', reports. split; assumption.
Defined.

(* ================================================================== *)
(** * The view of a card *)
(* ================================================================== *)

Lemma frameName_skip (c : Node.t) (top : string) :
  namedFrame c = false -> InspectCards.frameName c top = top.
Proof.
  unfold namedFrame, InspectCards.frameName.
  destruct (typeIs (Node.type c) "FRAME"); [| reflexivity].
  destruct (Node.name c); [discriminate | reflexivity].
Qed.

Lemma topFrameOf_skip (chain : list Node.t) :
  forall top,
    Forall (fun c => namedFrame c = false) chain ->
    topFrameOf top chain = top.
Proof.
  unfold topFrameOf.
  induction chain as [| c chain IH]; intros top Hall; [reflexivity |].
  inversion Hall as [| ? ? Hc Hrest]; subst. cbn [fold_left].
  rewrite (frameName_skip c top Hc). apply IH, Hrest.
Qed.

(** X14.  The view recorded for a card is the name of the outermost
    FRAME with a name among the node and the nodes that hold it below
    the page, not of the nearest one; it is the name of the page when
    there is none. *)
Theorem view_is_outermost_frame (fuel : nat) (h : heap) (pg : Node.t)
    (pageName : string) (n : Node.t) (chain : list Node.t) :
  linkedTo h pg (PRef n) chain ->
  (List.length chain < fuel)%nat ->
  (forall inner f outer v,
      chain = inner ++ f :: outer ->
      typeIs (Node.type f) "FRAME" = true ->
      Node.name f = Some v ->
      Forall (fun c => namedFrame c = false) outer ->
      InspectCards.topFrame fuel h pg pageName n = Some v)
  /\ (Forall (fun c => namedFrame c = false) chain ->
      InspectCards.topFrame fuel h pg pageName n = Some pageName).
Proof.
  intros Hl Hf. unfold InspectCards.topFrame.
  rewrite (walkUp_linked InspectCards.frameName h pg chain fuel (PRef n)
             pageName Hl Hf).
  split.
  - intros inner f outer v -> Hty Hname Hout. f_equal.
    rewrite fold_left_app. cbn [fold_left].
    change (topFrameOf
              (InspectCards.frameName f
                 (fold_left (fun a c => InspectCards.frameName c a) inner
                    pageName)) outer = v).
    rewrite (topFrameOf_skip outer _ Hout).
    unfold InspectCards.frameName. rewrite Hty, Hname. reflexivity.
  - intros Hall. f_equal. exact (topFrameOf_skip chain pageName Hall).
Qed.

Lemma view_is_outermost_frame_witness :
  InspectCards.topFrame 5
    {[ 5%positive := PRef sampleSubmit;
       4%positive := PRef sampleCard;
       3%positive := PRef (sampleView sampleSubmit);
       2%positive := PRef (samplePage sampleSubmit) ]}
    (samplePage sampleSubmit) "Auth" (sampleText 5 "Go")
  = Some "Login View".
Proof.
  refine (proj1 (view_is_outermost_frame 5 _ (samplePage sampleSubmit) "Auth"
                   (sampleText 5 "Go")
                   [sampleText 5 "Go"; sampleSubmit; sampleCard;
                    sampleView sampleSubmit] _ _)
            [sampleText 5 "Go"; sampleSubmit; sampleCard]
            (sampleView sampleSubmit) [] "Login View" _ _ _ _).
  - cbn. repeat split; discriminate.
  - cbn. lia.
  - reflexivity.
  - reflexivity.
  - reflexivity.
  - constructor.
Defined.

(* ================================================================== *)
(** * Reading the address of a file *)
(* ================================================================== *)

Lemma append_cons (c : ascii) (s t : string) :
  String c s +:+ t = String c (s +:+ t).
Proof. reflexivity. Qed.

Lemma append_nil (t : string) : "" +:+ t = t.
Proof. reflexivity. Qed.

Lemma append_assoc_char (cur : string) (c : ascii) (s : string) :
  (cur +:+ String c "") +:+ s = cur +:+ String c s.
Proof.
  induction cur as [| d cur IH]; [reflexivity |].
  rewrite !append_cons, IH. reflexivity.
Qed.

Lemma noSlash_append (s t : string) :
  noSlash (s +:+ t) = noSlash s && noSlash t.
Proof.
  induction s as [| c s IH]; [reflexivity |].
  rewrite append_cons. cbn [noSlash]. rewrite IH, andb_assoc. reflexivity.
Qed.

Lemma splitSlash_parts (s : string) :
  forall cur,
    noSlash cur = true ->
    Forall (fun p => noSlash p = true) (Url.splitSlash s cur).
Proof.
  induction s as [| c s IH]; intros cur Hcur; cbn [Url.splitSlash].
  - constructor; [exact Hcur | constructor].
  - destruct (Ascii.eqb c "/") eqn:Ec.
    + constructor; [exact Hcur | apply IH; reflexivity].
    + apply IH. rewrite noSlash_append, Hcur. cbn [noSlash]. rewrite Ec.
      reflexivity.
Qed.

Lemma parts_shape (url : Url.t) :
  Forall (fun p => p <> "" /\ noSlash p = true) (Url.parts url).
Proof.
  unfold Url.parts.
  pose proof (splitSlash_parts (Url.pathname url) "" eq_refl) as H.
  induction H as [| p l Hp _ IH]; cbn [List.filter]; [constructor |].
  destruct (String.eqb p "") eqn:Ep; cbn [negb]; [exact IH |].
  constructor; [| exact IH].
  split; [| exact Hp]. intros ->. discriminate.
Qed.

Lemma nodeIdOf_nonempty (url : Url.t) : Url.nodeIdOf url <> Some "".
Proof.
  unfold Url.nodeIdOf.
  destruct (Url.get (Url.searchParams url) "node-id") as [[| c s] |];
    try discriminate;
    destruct (Url.get (Url.searchParams url) "node_id") as [[| d r] |];
    discriminate.
Qed.

Lemma splitSlash_segment (a : string) :
  forall cur b,
    noSlash a = true ->
    Url.splitSlash (a +:+ b) cur = Url.splitSlash b (cur +:+ a).
Proof.
  induction a as [| c a IH]; intros cur b Ha.
  - rewrite append_nil, append_empty. reflexivity.
  - rewrite append_cons. cbn [Url.splitSlash]. cbn [noSlash] in Ha.
    apply andb_prop in Ha. destruct Ha as [Hc Ha].
    destruct (Ascii.eqb c "/"); [discriminate |].
    rewrite (IH _ b Ha), append_assoc_char. reflexivity.
Qed.

(** X15.  The two variants of [parseFigmaUrl] agree on every address:
    the test of an empty key of the scripts never fires, because the
    empty segments of the path are dropped before.  A key that is
    returned is the second segment of the path behind [file] or
    [design]; it is not empty and holds no slash, and a node id that is
    returned is not empty. *)
Theorem parseFigmaUrl_variants_agree (url : Url.t) :
  Url.parseFigmaUrlChecked url = Url.parseFigmaUrl url
  /\ Url.parseFigmaUrlChecked url <> inl Url.MissingFileKey
  /\ forall p,
       Url.parseFigmaUrl url = inr p ->
       Url.fileKey p <> "" /\ noSlash (Url.fileKey p) = true /\
       Url.nodeId p <> Some "" /\
       exists seg rest,
         Url.parts url = seg :: Url.fileKey p :: rest /\
         (seg = "file" \/ seg = "design").
Proof.
  pose proof (parts_shape url) as Hs.
  unfold Url.parseFigmaUrlChecked, Url.parseFigmaUrl.
  destruct (Url.parts url) as [| seg [| key rest]];
    [repeat split; discriminate | repeat split; discriminate |].
  inversion Hs as [| ? ? _ Hs']; subst.
  inversion Hs' as [| ? ? [Hne Hno] _]; subst.
  destruct (String.eqb seg "file") eqn:Ef;
    destruct (String.eqb seg "design") eqn:Ed; cbn [negb andb];
    (destruct key as [| c k]; [congruence |]);
    (split; [reflexivity |]); (split; [discriminate |]);
    intros p Hp; try discriminate;
    injection Hp as <-; cbn [Url.fileKey Url.nodeId];
    (split; [exact Hne |]); (split; [exact Hno |]);
    (split; [apply nodeIdOf_nonempty |]);
    exists seg, rest; (split; [reflexivity |]).
  - left. apply String.eqb_eq, Ef.
  - left. apply String.eqb_eq, Ef.
  - right. apply String.eqb_eq, Ed.
Qed.

(** X16.  An address whose path is [/file/<key>] or [/design/<key>],
    alone or followed by a slash and anything, is read as that key,
    whenever the key is not empty and holds no slash. *)
Theorem parseFigmaUrl_reads_key (seg key title : string)
    (params : list (string * string)) :
  seg = "file" \/ seg = "design" ->
  key <> "" ->
  noSlash key = true ->
  let alone := Url.mk ("/" +:+ seg +:+ "/" +:+ key) params in
  let titled := Url.mk ("/" +:+ seg +:+ "/" +:+ key +:+ "/" +:+ title) params in
  Url.parseFigmaUrl alone = inr (Url.mkParsed key (Url.nodeIdOf alone)) /\
  Url.parseFigmaUrl titled = inr (Url.mkParsed key (Url.nodeIdOf titled)).
Proof.
  intros Hseg Hne Hno alone titled.
  assert (Hsg : noSlash seg = true /\ seg <> "" /\
                negb (String.eqb seg "file") && negb (String.eqb seg "design")
                = false)
    by (destruct Hseg as [-> | ->]; repeat split; discriminate).
  destruct Hsg as (Hsn & Hse & Hsd).
  assert (Hk : String.eqb key "" = false) by (apply String.eqb_neq, Hne).
  assert (Hs : String.eqb seg "" = false) by (apply String.eqb_neq, Hse).
  assert (Hhead : forall tail,
             Url.splitSlash ("/" +:+ seg +:+ "/" +:+ tail) ""
             = "" :: seg :: Url.splitSlash tail "").
  { intros tail. change ("/" +:+ seg +:+ "/" +:+ tail)
      with (String "/" (seg +:+ String "/" tail)).
    cbn [Url.splitSlash Ascii.eqb Bool.eqb].
    rewrite (splitSlash_segment seg "" _ Hsn). reflexivity. }
  unfold Url.parseFigmaUrl, Url.parts, alone, titled.
  cbn [Url.pathname]. rewrite !Hhead. split.
  - rewrite <- (append_empty key) at 1.
    rewrite (splitSlash_segment key "" "" Hno).
    cbn [Url.splitSlash List.filter]. rewrite append_nil, Hs, Hk.
    cbn [negb String.eqb]. rewrite Hsd. reflexivity.
  - rewrite (splitSlash_segment key "" _ Hno).
    change ("/" +:+ title) with (String "/" title).
    cbn [Url.splitSlash Ascii.eqb Bool.eqb List.filter].
    rewrite append_nil, Hs, Hk.
    cbn [negb String.eqb]. rewrite Hsd. reflexivity.
Qed.

Lemma parseFigmaUrl_reads_key_witness :
  Url.parseFigmaUrl
    (Url.mk "/design/AbC123/My-App" [("node-id", "1-2"); ("t", "x")])
  = inr (Url.mkParsed "AbC123" (Some "1-2")).
Proof.
  exact (proj2 (parseFigmaUrl_reads_key "design" "AbC123" "My-App"
                  [("node-id", "1-2"); ("t", "x")]
                  (or_intror eq_refl) ltac:(discriminate) eq_refl)).
Defined.

(* ================================================================== *)
(** * The export of the components *)
(* ================================================================== *)

Section ExportFacts.

Context {Style : Type} (styleOf : Node.t -> option Style).

Lemma simplifyNode_children (n : Node.t) :
  Server.simpleChildren (Server.simplifyNode styleOf n)
  = Server.nonEmpty
      (map (Server.simplifyNode styleOf)
         (List.filter Server.isAllowed (Node.children n))).
Proof.
  destruct n as [o i nm ty kids bb sz w h fl st sw cr rr ch cid op].
  cbn [Server.simplifyNode Server.simpleChildren Node.children]. f_equal.
  induction kids as [| c kids IH]; [reflexivity |].
  cbn [List.filter]. destruct (Server.isAllowed c); cbn [map]; congruence.
Qed.

Lemma simplifyNode_type (n : Node.t) :
  Server.simpleType (Server.simplifyNode styleOf n)
  = default "NODE" (Node.type n).
Proof. destruct n; reflexivity. Qed.

Lemma descendants_nonEmpty (l : list (Server.simple Style)) (s : Server.simple Style) :
  Server.simpleChildren s = Server.nonEmpty l ->
  descendants s = flat_map (fun c => c :: descendants c) l.
Proof.
  intros H. destruct s as [a b c d e f g h i j k ch].
  cbn [descendants Server.simpleChildren] in *. rewrite H.
  destruct l; reflexivity.
Qed.

Lemma descendants_simplify (n : Node.t) :
  descendants (Server.simplifyNode styleOf n)
  = map (Server.simplifyNode styleOf) (allowedBelow n).
Proof.
  induction n as [n IH] using node_children_ind.
  rewrite (descendants_nonEmpty _ _ (simplifyNode_children n)).
  destruct n as [o i nm ty kids bb sz w h fl st sw cr rr ch cid op].
  cbn [allowedBelow Node.children] in *.
  induction IH as [| c kids Hc _ IHk]; [reflexivity |].
  cbn [List.filter flat_map].
  destruct (Server.isAllowed c); [| exact IHk].
  cbn [map flat_map]. rewrite map_app, <- IHk, Hc. reflexivity.
Qed.

Lemma allowedBelow_allowed (n : Node.t) :
  Forall (fun c => Server.isAllowed c = true) (allowedBelow n).
Proof.
  induction n as [n IH] using node_children_ind.
  destruct n as [o i nm ty kids bb sz w h fl st sw cr rr ch cid op].
  cbn [allowedBelow Node.children] in *.
  induction IH as [| c kids Hc _ IHk]; [constructor |].
  cbn [flat_map]. apply Forall_app. split; [| exact IHk].
  destruct (Server.isAllowed c) eqn:Ec; [| constructor].
  constructor; [exact Ec | exact Hc].
Qed.

Lemma isAllowed_type (c : Node.t) :
  Server.isAllowed c = true ->
  In (default "NODE" (Node.type c)) Server.allowedTypes.
Proof.
  unfold Server.isAllowed. intros H. apply existsb_exists in H.
  destruct H as (ty & Hin & Hty).
  destruct (Node.type c) as [t |]; [| discriminate].
  cbn in Hty. apply String.eqb_eq in Hty. subst t. exact Hin.
Qed.

Lemma collect_fold (l : list Node.t) :
  forall acc,
    fold_left (fun a x => Server.collectComponent styleOf x a) l acc
    = acc ++ map (Server.simplifyNode styleOf) (List.filter isComponent l).
Proof.
  induction l as [| x l IH]; intros acc; cbn [fold_left List.filter].
  - cbn. rewrite app_nil_r. reflexivity.
  - rewrite IH. unfold Server.collectComponent, isComponent.
    destruct (typeIs (Node.type x) "COMPONENT"); [| reflexivity].
    cbn [map]. rewrite <- app_assoc. reflexivity.
Qed.

(** X17.  The export holds the simplified tree of every COMPONENT node
    of the document, one entry per node and in the order of the
    document; a component that lies inside another one is exported on
    its own as well.  Without a document the export is empty. *)
Theorem export_lists_every_component (document : Node.t) :
  Server.exportComponents styleOf (Some document)
  = map (Server.simplifyNode styleOf) (List.filter isComponent (nodes document))
  /\ Server.exportComponents styleOf None = []
  /\ forall n,
       In n (nodes document) -> isComponent n = true ->
       In (Server.simplifyNode styleOf n)
         (Server.exportComponents styleOf (Some document)).
Proof.
  assert (E : Server.exportComponents styleOf (Some document)
              = map (Server.simplifyNode styleOf)
                  (List.filter isComponent (nodes document))).
  { unfold Server.exportComponents, Server.traverseRoot.
    rewrite traverse_nodes, collect_fold. reflexivity. }
  split; [exact E |]. split; [reflexivity |].
  intros n Hin Hc. rewrite E. apply in_map, filter_In. split; assumption.
Qed.

(** X18.  The simplified tree of a node holds, below its root, the
    simplified nodes that are reached through children of allowed types
    only, in the order of the document: a child of another type is left
    out with everything below it.  Every node below the root has one of
    the eleven allowed types, and the children of the root are the
    simplified allowed children, the field being absent when there is
    none. *)
Theorem simplified_tree_allowed_only (n : Node.t) :
  descendants (Server.simplifyNode styleOf n)
  = map (Server.simplifyNode styleOf) (allowedBelow n)
  /\ Forall (fun s => In (Server.simpleType s) Server.allowedTypes)
       (descendants (Server.simplifyNode styleOf n))
  /\ Server.simpleChildren (Server.simplifyNode styleOf n)
     = Server.nonEmpty
         (map (Server.simplifyNode styleOf)
            (List.filter Server.isAllowed (Node.children n))).
Proof.
  split; [apply descendants_simplify |].
  split; [| apply simplifyNode_children].
  rewrite descendants_simplify. apply List.Forall_forall.
  intros s Hs. apply in_map_iff in Hs. destruct Hs as (c & <- & Hc).
  rewrite simplifyNode_type. apply isAllowed_type.
  pose proof (allowedBelow_allowed n) as Hall.
  rewrite List.Forall_forall in Hall. apply Hall, Hc.
Qed.

End ExportFacts.

(* ================================================================== *)
(** * The fills of a simplified node *)
(* ================================================================== *)

Lemma pushPaint_step (nodeOpacity : Q) (fills : list Server.fill)
    (p : option Paint.t) :
  exists added,
    Server.pushPaint nodeOpacity fills p = fills ++ added /\
    map Server.fillType added = shownType p /\
    Forall fillShape added.
Proof.
  assert (Hskip : forall l, l = fills -> shownType p = [] ->
            exists added,
              l = fills ++ added /\
              map Server.fillType added = shownType p /\
              Forall fillShape added).
  { intros l -> ->. exists []. rewrite app_nil_r.
    repeat split; constructor. }
  assert (Hadd : forall f,
            shownType p = [Server.fillType f] -> fillShape f ->
            exists added,
              fills ++ [f] = fills ++ added /\
              map Server.fillType added = shownType p /\
              Forall fillShape added).
  { intros f -> Hf. exists [f]. repeat split; try constructor; auto. }
  unfold Server.pushPaint.
  destruct p as [p' |]; [| apply Hskip; reflexivity].
  destruct (visibleNotFalse (Some p')) eqn:Ev; cbn [negb];
    [| apply Hskip; [reflexivity | unfold shownType; rewrite Ev; reflexivity]].
  cbn zeta.
  destruct (Paint.type p') as [ty |] eqn:Ety; cbn [typeIs andb];
    [| apply Hskip;
       [reflexivity | unfold shownType; rewrite Ev, Ety; reflexivity]].
  assert (Hshown : shownType (Some p') = [ty])
    by (unfold shownType; rewrite Ev, Ety; reflexivity).
  destruct (String.eqb ty "SOLID") eqn:Es; cbn [andb].
  - apply String.eqb_eq in Es. subst ty.
    destruct (Paint.color p') as [c |].
    + apply Hadd; [exact Hshown |].
      unfold fillShape; cbn. repeat split; auto; congruence.
    + cbn [String.eqb Ascii.eqb Bool.eqb].
      apply Hadd; [exact Hshown |].
      unfold fillShape; cbn. repeat split; auto; congruence.
  - destruct (String.eqb ty "IMAGE") eqn:Ei.
    + apply String.eqb_eq in Ei. subst ty.
      apply Hadd; [exact Hshown |].
      unfold fillShape; cbn. repeat split; auto; congruence.
    + apply Hadd; [exact Hshown |].
      unfold fillShape; cbn. repeat split; auto; congruence.
Qed.

Lemma simplifyPaints_fold (nodeOpacity : Q) (ps : list (option Paint.t)) :
  forall acc,
    exists added,
      fold_left (Server.pushPaint nodeOpacity) ps acc = acc ++ added
      /\ map Server.fillType added = flat_map shownType ps
      /\ Forall fillShape added.
Proof.
  induction ps as [| p ps IH]; intros acc; cbn [fold_left flat_map].
  - exists []. rewrite app_nil_r. repeat split; constructor.
  - destruct (pushPaint_step nodeOpacity acc p) as (a1 & E1 & M1 & F1).
    destruct (IH (Server.pushPaint nodeOpacity acc p)) as (a2 & E2 & M2 & F2).
    exists (a1 ++ a2). rewrite E2, E1, <- app_assoc. split; [reflexivity |].
    split; [rewrite map_app; congruence | apply Forall_app; split; assumption].
Qed.

(** X19.  The fills of a simplified node are the paints that are shown,
    one entry each and in their order: an entry that is null or hidden
    or has no type gives nothing, every other one gives an entry of its
    own type.  Only a SOLID entry carries a colour code and only an
    IMAGE entry carries an opacity. *)
Theorem simplifyPaints_shown_only (paints : list (option Paint.t))
    (nodeOpacity : Q) :
  map Server.fillType (Server.simplifyPaints paints nodeOpacity)
  = flat_map shownType paints
  /\ Forall fillShape (Server.simplifyPaints paints nodeOpacity).
Proof.
  unfold Server.simplifyPaints.
  destruct (simplifyPaints_fold nodeOpacity paints []) as (added & E & Hm & Hf).
  rewrite E. split; [exact Hm | exact Hf].
Qed.

(* ================================================================== *)
(** * The paths of the three linking scripts *)
(* ================================================================== *)

Lemma pushName_fold (chain : list Node.t) :
  forall parts,
    fold_left (fun parts c => UiComponents.pushName c parts) chain parts
    = parts ++ List.filter notEmpty (map label chain).
Proof.
  induction chain as [| c chain IH]; intros parts; cbn [fold_left map List.filter].
  - rewrite app_nil_r. reflexivity.
  - rewrite IH. unfold UiComponents.pushName. fold (label c).
    destruct (label c) as [| a s]; [reflexivity |].
    cbn. rewrite <- app_assoc. reflexivity.
Qed.

Lemma pushAnyName_fold (chain : list Node.t) :
  forall parts,
    fold_left (fun parts c => pushAnyName c parts) chain parts
    = parts ++ map label chain.
Proof.
  induction chain as [| c chain IH]; intros parts; cbn [fold_left map].
  - rewrite app_nil_r. reflexivity.
  - rewrite IH. unfold pushAnyName. fold (label c).
    rewrite <- app_assoc. reflexivity.
Qed.

Lemma filter_all {A : Type} (f : A -> bool) (l : list A) :
  Forall (fun x => f x = true) l -> List.filter f l = l.
Proof.
  induction 1 as [| x l Hx _ IH]; cbn [List.filter]; [reflexivity |].
  rewrite Hx, IH. reflexivity.
Qed.

(** X20.  A path starts with the name of the page and goes down to the
    node, one segment per node in between: its name, else its id.  The
    classification leaves out a node that has neither; the button and
    the card inspection keep an empty segment for it.  The two paths of
    a node are the same when every node on the way has a name or an
    id. *)
Theorem paths_from_the_page (fuel : nat) (h : heap) (page : Node.t)
    (pageName : string) (n : Node.t) (chain : list Node.t) :
  linkedTo h page (PRef n) chain ->
  (List.length chain < fuel)%nat ->
  UiComponents.makePath fuel h page pageName n
  = Some (join " / "
            (pageName :: List.filter notEmpty (map label (rev chain))))
  /\ makePathAll fuel h page pageName n
     = Some (join " / " (pageName :: map label (rev chain)))
  /\ (Forall (fun c => notEmpty (label c) = true) chain ->
      UiComponents.makePath fuel h page pageName n
      = makePathAll fuel h page pageName n).
Proof.
  intros Hl Hf.
  rewrite (makePath_linked fuel h page pageName n chain Hl Hf).
  rewrite (makePathAll_linked fuel h page pageName n chain Hl Hf).
  unfold pathOf, pathAllOf.
  rewrite pushName_fold, pushAnyName_fold. cbn [app].
  rewrite !rev_unit, <- List.filter_rev, <- !List.map_rev.
  split; [reflexivity |]. split; [reflexivity |].
  intros Hall. rewrite filter_all; [reflexivity |].
  apply List.Forall_forall. intros x Hx. apply in_map_iff in Hx.
  destruct Hx as (c & <- & Hc). apply in_rev in Hc.
  rewrite List.Forall_forall in Hall. apply Hall, Hc.
Qed.

Lemma paths_from_the_page_witness :
  UiComponents.makePath 5
    {[ 5%positive := PRef sampleSubmit;
       4%positive := PRef sampleCard;
       3%positive := PRef (sampleView sampleSubmit);
       2%positive := PRef (samplePage sampleSubmit) ]}
    (samplePage sampleSubmit) "Auth" sampleSubmit
  = Some "Auth / Login View / Card / Submit".
Proof.
  refine (proj1 (paths_from_the_page 5 _ (samplePage sampleSubmit) "Auth"
                   sampleSubmit
                   [sampleSubmit; sampleCard; sampleView sampleSubmit] _ _)).
  - cbn. repeat split; discriminate.
  - cbn. lia.
Defined.

(* ================================================================== *)
(** * The report of the card inspection *)
(* ================================================================== *)

Lemma cardsA_step (pageName : string) (chain : list Node.t) (n : Node.t)
    (cards : list InspectCards.found) :
  cardsA pageName chain n cards = cards ++ cardFound pageName (chain, n).
Proof.
  unfold cardsA, cardFound, InspectCards.visitRest. cbn [fst snd].
  destruct (InspectCards.classifyAsCard n); cbn;
    [reflexivity | symmetry; apply app_nil_r].
Qed.

Lemma cards_pages_exact (fuel : nat) (pages : list Node.t) :
  List.NoDup (flat_map oids pages) ->
  Forall (fun pg => (height pg <= fuel)%nat) pages ->
  forall h acc,
    fold_left
      (fun acc pg =>
         match acc with
         | Some st => InspectCards.inspectPage fuel pg st
         | None => None
         end)
      pages (Some (h, acc))
    = Some (fold_left (fun hh pg => linkAll pg PUndef hh) pages h,
            acc ++
            flat_map
              (fun pg =>
                 flat_map (cardFound (InspectButtons.pageNameOf pg))
                   (pageChains pg))
              pages).
Proof.
  induction pages as [| pg pages IH]; intros Hnd Hdeep h acc; simpl.
  - rewrite app_nil_r. reflexivity.
  - inversion Hdeep as [| ? ? Hpg Hrest]; subst.
    rewrite cardsPage_linked;
      [| apply (NoDup_flat_map_each oids (pg :: pages) Hnd); left; reflexivity
       | exact Hpg].
    rewrite IH; [| apply (List.NoDup_app_remove_l _ _ Hnd) | exact Hrest].
    rewrite traversePageA_chains.
    rewrite (fold_left_pointwise
               (fun acc cx => cardsA (InspectButtons.pageNameOf pg)
                                (fst cx) (snd cx) acc)
               (fun acc cx => acc ++ cardFound (InspectButtons.pageNameOf pg) cx)).
    + rewrite fold_left_append, <- app_assoc. reflexivity.
    + intros res [c x]. apply cardsA_step.
Qed.

(** X21.  The card inspection returns, and its results are the nodes
    that [classifyAsCard] accepts, page after page and in the order of
    the traversal, each once, with the name of its page, its view, its
    path, its attributes and the role inferred from the view and the
    name. *)
Theorem card_inspection_results (fuel : nat) (file : File.t) (h : heap) :
  distinctObjects file ->
  deepEnough fuel file ->
  exists h' cards,
    InspectCards.main fuel file h = Some (h', cards)
    /\ cards
       = flat_map
           (fun pg =>
              flat_map (cardFound (InspectButtons.pageNameOf pg))
                (pageChains pg))
           (pagesNodes file)
    /\ map InspectCards.infoOf cards
       = map InspectCards.extractCardInfo
           (List.filter InspectCards.classifyAsCard
              (flat_map nodes (pagesNodes file)))
    /\ (forall r, In r cards ->
          InspectCards.role r
          = InspectCards.inferRole (InspectCards.view r)
              (InspectCards.name (InspectCards.infoOf r))).
Proof.
  intros Hnd Hdeep. unfold InspectCards.main.
  rewrite (cards_pages_exact fuel _ Hnd Hdeep).
  eexists. eexists. split; [reflexivity |]. split; [reflexivity |].
  assert (Hinfo : forall pg,
             map InspectCards.infoOf
               (flat_map (cardFound (InspectButtons.pageNameOf pg))
                  (pageChains pg))
             = map InspectCards.extractCardInfo
                 (List.filter InspectCards.classifyAsCard (nodes pg))).
  { intros pg. rewrite <- pageChains_nodes.
    induction (pageChains pg) as [| [c x] l IH]; [reflexivity |].
    cbn [flat_map map List.filter snd]. rewrite map_app, IH.
    unfold cardFound. cbn [snd].
    destruct (InspectCards.classifyAsCard x); reflexivity. }
  cbn [app]. split.
  - induction (pagesNodes file) as [| pg pages IH]; [reflexivity |].
    cbn [flat_map]. rewrite map_app, List.filter_app, map_app, Hinfo, IH.
    reflexivity.
  - intros r Hr. apply in_flat_map in Hr as (pg & _ & Hr).
    apply in_flat_map in Hr as ([c x] & _ & Hr).
    unfold cardFound in Hr. cbn [snd fst] in Hr.
    destruct (InspectCards.classifyAsCard x); [| destruct Hr].
    destruct Hr as [<- | []]. reflexivity.
Qed.

Lemma card_inspection_results_witness :
  exists h' cards,
    InspectCards.main 5 sampleAuthFile ∅ = Some (h', cards) /\
    cards
    = flat_map
        (fun pg =>
           flat_map (cardFound (InspectButtons.pageNameOf pg))
             (pageChains pg))
        (pagesNodes sampleAuthFile).
Proof.
  destruct (card_inspection_results 5 sampleAuthFile ∅
              sampleAuthFile_distinct sampleAuthFile_deep)
    as (h' & cards & H1 & H2 & _).
  exists h', cards. split; assumption.
Defined.
